(** * Visitor-classification gate: blacklist store, heuristics, interaction check

  A shallow embedding of the decision logic of the CAPTCHA utilities
  ([blacklistSystem], [analyzeInteractions]) and of the fingerprint
  collector ([collectFingerprintComponents]), with the properties of the
  specification stated and settled against it. The same is done for the
  code around them: the URL fragment handler ([fragmentHandler]), the
  client identifier ([getClientIdentifier]), the interaction tracker
  ([initializeInteractionTracking]), font detection ([detectFonts]), the
  bot trap log ([recordBotVisit]), the form handler ([handleFormSubmit])
  and the token check of the redirect ([redirectToProtectedContent],
  [restoreFragmentIfNeeded]); their properties are read off the code.

  Conventions of the embedding.
  - JavaScript code that reads the clock, the storage or the in-memory
    singleton is written in a state-and-exception monad [M]: a thrown
    exception keeps the state reached so far, as in JavaScript.
  - [Date.now()] is a read of a clock that may advance between two reads.
  - A [localStorage] cell is described by what [JSON.parse] makes of its
    text: nothing stored, text that does not parse, or the JSON text of a
    map in the layout the program itself writes.
  - JavaScript objects used as maps are finite maps keyed by strings; the
    enumeration order of [Object.keys] is that of the map, and no
    statement below depends on it. The keys are client identifiers,
    base64 text of 12 to 32 characters; none of them is taken to be the
    name of a property inherited from [Object.prototype].
  - Numbers that the code compares with [>] against 0.3 and 0.4 are
    rationals: the quotients are taken exactly. For the score they are
    multiples of 1/16, which binary floating point represents exactly;
    for the movement ratio the two comparisons agree as long as there are
    fewer than 10^15 samples.
  - Strings are sequences of 8-bit characters; [toLowerCase] acts on the
    letters A to Z. A character above U+00FF has no place in such a
    string. The one operation of the embedded code that tells such a
    character apart is [btoa], which throws on it: a world records in
    [wideCharacters] whether the text of the client identifier holds
    one, and every function of the blacklist system that asks for the
    identifier throws there, whatever the user agent.
  - The storage of a page either accepts every write or refuses every
    write (storage disabled, private mode); a quota reached between two
    writes of one function is not embedded.
  - [getClientIdentifier] itself is embedded on UTF-16 code units, with
    [btoa] throwing on a unit above 255.
  - Results of floating-point library functions that the code only
    stores and compares ([Math.sqrt], [Math.atan2], a quotient) are
    parameters of the embedding: functions of the whole numbers they are
    computed from. So are the measures of the test element in
    [detectFonts].
  - The handlers that address elements of the document are embedded for
    a page that has these elements; what they display is the value they
    return. The address that [assembleRedirectUrl] produces is a
    parameter of the redirect. *)

From Stdlib Require Import ZArith QArith Bool List Ascii String Lia.
From Stdlib Require Import DecimalString DecimalPos.
From stdpp Require Import base option list gmap strings fin_maps.

Local Open Scope Z_scope.

(** ** Strings *)

Module Str.

Definition lower_ascii (c : ascii) : ascii :=
  let n := nat_of_ascii c in
  if ((65 <=? n)%nat && (n <=? 90)%nat)%bool then ascii_of_nat (n + 32) else c.

(** [String.prototype.toLowerCase]. *)
Fixpoint toLowerCase (s : string) : string :=
  match s with
  | EmptyString => EmptyString
  | String c r => String (lower_ascii c) (toLowerCase r)
  end.

(** [s.startsWith(t)]. *)
Fixpoint startsWith (s t : string) {struct t} : bool :=
  match t, s with
  | EmptyString, _ => true
  | String c t', String d s' => (Ascii.eqb c d && startsWith s' t')%bool
  | String _ _, EmptyString => false
  end.

(** [s.includes(t)]: [t] occurs in [s] at some position. *)
Fixpoint includes (s t : string) : bool :=
  (startsWith s t ||
   match s with
   | EmptyString => false
   | String _ s' => includes s' t
   end)%bool.

(** [t] occurs in [s] up to the case of letters. *)
Definition occurs_ignoring_case (t s : string) : Prop :=
  exists pre mid post : string,
    s = String.append pre (String.append mid post)
    /\ toLowerCase mid = toLowerCase t.

End Str.

(** ** JavaScript effects *)

Module Js.

Inductive exn : Set :=
| DOMException   (* storage access refused, quota exceeded *)
| SyntaxError    (* JSON.parse on text that is not JSON *)
| TypeError      (* property read on undefined or null *)
| InvalidCharacterError.  (* btoa on a character above U+00FF *)

Inductive outcome (A : Type) : Type :=
| Returns (a : A)
| Throws (e : exn).
Arguments Returns {A} a.
Arguments Throws {A} e.

(** What [JSON.parse(localStorage.getItem(k) || '{}')] has to work with. *)
Inductive item (A : Type) : Type :=
| NoItem           (* getItem gives null or the empty string *)
| BadText          (* text that JSON.parse rejects *)
| Text (v : A).    (* JSON text of v *)
Arguments NoItem {A}.
Arguments BadText {A}.
Arguments Text {A} v.

End Js.
Export Js.

(** ** The blacklist store *)

Module Store.

(** One element of a [reasons] array. *)
Record Reason : Set := mkReason { reason : string; timestamp : Z }.

Record FailedAttemptRecord : Set := mkAttempt {
  count : Z;
  reasons : list Reason;
  firstAttempt : Z
}.

Record BlacklistEntry : Set := mkEntry {
  added : Z;
  expires : Z;
  entry_reasons : list Reason
}.

(** [localStorage], restricted to the two keys of the blacklist system. *)
Record Storage : Type := mkStorage {
  getItem_throws : bool;
  setItem_throws : bool;
  captcha_blacklist : item (gmap string BlacklistEntry);
  captcha_failed_attempts : item (gmap string FailedAttemptRecord)
}.

(** The page: clock, navigator, storage and the [blacklistSystem] object. *)
Record World : Type := mkWorld {
  clock : Z;                 (* what the next Date.now() returns *)
  ticks : list Z;            (* by how much the clock moves after each read *)
  userAgent : string;        (* navigator.userAgent *)
  clientIdentifier : string; (* what getClientIdentifier() returns here *)
  localStorage : Storage;
  failedAttempts : gmap string FailedAttemptRecord;
  blacklistedIPs : list string;
  wideCharacters : bool      (* the text of the identifier holds a character
                                above U+00FF: btoa rejects it *)
}.

Definition M (A : Type) : Type := World -> outcome A * World.

Definition ret {A} (a : A) : M A := fun w => (Returns a, w).

Definition throw {A} (e : exn) : M A := fun w => (Throws e, w).

Definition bind {A B} (c : M A) (k : A -> M B) : M B :=
  fun w =>
    match c w with
    | (Returns a, w') => k a w'
    | (Throws e, w') => (Throws e, w')
    end.

(** [try { body } catch (e) { handler }]. *)
Definition try_catch {A} (body : M A) (handler : exn -> M A) : M A :=
  fun w =>
    match body w with
    | (Returns a, w') => (Returns a, w')
    | (Throws e, w') => handler e w'
    end.

Declare Scope js_scope.
Delimit Scope js_scope with js.
Notation "'do' x <- c ; k" := (bind c (fun x => k))
  (at level 10, x name, c at level 100, k at level 200) : js_scope.
Notation "c ;; k" := (bind c (fun _ => k))
  (at level 100, k at level 200, right associativity) : js_scope.
Local Open Scope js_scope.

Definition result_of {A} (r : outcome A * World) : outcome A := fst r.
Definition world_of {A} (r : outcome A * World) : World := snd r.

(** *** State accessors *)

Definition with_clock (w : World) (t : Z) (ts : list Z) : World :=
  mkWorld t ts (userAgent w) (clientIdentifier w) (localStorage w)
          (failedAttempts w) (blacklistedIPs w) (wideCharacters w).

Definition with_localStorage (w : World) (s : Storage) : World :=
  mkWorld (clock w) (ticks w) (userAgent w) (clientIdentifier w) s
          (failedAttempts w) (blacklistedIPs w) (wideCharacters w).

Definition with_failedAttempts (w : World)
    (fa : gmap string FailedAttemptRecord) : World :=
  mkWorld (clock w) (ticks w) (userAgent w) (clientIdentifier w)
          (localStorage w) fa (blacklistedIPs w) (wideCharacters w).

Definition with_blacklistedIPs (w : World) (l : list string) : World :=
  mkWorld (clock w) (ticks w) (userAgent w) (clientIdentifier w)
          (localStorage w) (failedAttempts w) l (wideCharacters w).

(** [Date.now()]: the current reading; the clock then moves by the next
    tick (by nothing when none is left). *)
Definition Date_now : M Z :=
  fun w =>
    (Returns (clock w),
     with_clock w (clock w + hd 0 (ticks w)) (tl (ticks w))).

Definition navigator_userAgent : M string :=
  fun w => (Returns (userAgent w), w).

Definition get_failedAttempts : M (gmap string FailedAttemptRecord) :=
  fun w => (Returns (failedAttempts w), w).

Definition set_failedAttempts (fa : gmap string FailedAttemptRecord) : M unit :=
  fun w => (Returns tt, with_failedAttempts w fa).

Definition set_blacklistedIPs (l : list string) : M unit :=
  fun w => (Returns tt, with_blacklistedIPs w l).

Definition push_blacklistedIPs (id : string) : M unit :=
  fun w => (Returns tt, with_blacklistedIPs w (blacklistedIPs w ++ [id])).

(** [console.error(...)] has no effect on the modelled state. *)
Definition console_error : M unit := ret tt.

(** *** localStorage *)

(** [JSON.parse(localStorage.getItem('captcha_blacklist') || '{}')]. *)
Definition parse_captcha_blacklist : M (gmap string BlacklistEntry) :=
  fun w =>
    if getItem_throws (localStorage w) then (Throws DOMException, w)
    else match captcha_blacklist (localStorage w) with
         | NoItem => (Returns ∅, w)
         | BadText => (Throws SyntaxError, w)
         | Text m => (Returns m, w)
         end.

(** [JSON.parse(localStorage.getItem('captcha_failed_attempts') || '{}')]. *)
Definition parse_captcha_failed_attempts : M (gmap string FailedAttemptRecord) :=
  fun w =>
    if getItem_throws (localStorage w) then (Throws DOMException, w)
    else match captcha_failed_attempts (localStorage w) with
         | NoItem => (Returns ∅, w)
         | BadText => (Throws SyntaxError, w)
         | Text m => (Returns m, w)
         end.

(** [localStorage.setItem('captcha_blacklist', JSON.stringify(bl))]. *)
Definition store_captcha_blacklist (bl : gmap string BlacklistEntry) : M unit :=
  fun w =>
    let s := localStorage w in
    if setItem_throws s then (Throws DOMException, w)
    else (Returns tt,
          with_localStorage w
            (mkStorage (getItem_throws s) (setItem_throws s)
                       (Text bl) (captcha_failed_attempts s))).

(** [localStorage.setItem('captcha_failed_attempts', JSON.stringify(fa))]. *)
Definition store_captcha_failed_attempts
    (fa : gmap string FailedAttemptRecord) : M unit :=
  fun w =>
    let s := localStorage w in
    if setItem_throws s then (Throws DOMException, w)
    else (Returns tt,
          with_localStorage w
            (mkStorage (getItem_throws s) (setItem_throws s)
                       (captcha_blacklist s) (Text fa))).

(** *** blacklistSystem *)

Definition knownBotSignatures : list string :=
  [ "googlebot"; "bingbot"; "yandexbot"; "slurp"; "duckduckbot"; "baiduspider";
    "bytespider"; "facebookexternalhit"; "twitterbot"; "rogerbot"; "linkedinbot";
    "embedly"; "quora link preview"; "showyoubot"; "outbrain"; "pinterest";
    "slackbot"; "vkshare"; "w3c_validator"; "postman"; "curl"; "wget";
    "python-requests";
    "ahrefs"; "semrushbot"; "mj12bot"; "applebot"; "dotbot"; "zoominfobot";
    "scanner"; "crawler"; "spider"; "headless"; "scraper"; "selenium"; "webdriver";
    "puppeteer"; "phantom"; "nightmare"; "jsdom" ]%string.

Definition securityTools : list string :=
  [ "avast"; "avg"; "avira"; "bitdefender"; "kaspersky"; "mcafee"; "norton";
    "eset"; "f-secure"; "trend micro"; "sophos"; "symantec"; "trustwave";
    "forcepoint";
    "checkpoint"; "barracuda"; "mimecast"; "proofpoint"; "fireeye"; "crowdstrike";
    "cyren"; "spamhaus"; "spamcop"; "netcraft"; "virustotal"; "sucuri"; "urlscan";
    "zscaler"; "office365"; "microsoft-security"; "cisco"; "forcepoint";
    "cofense" ]%string.

(** [thresholds]. *)
Definition maxFailedAttempts : Z := 3.
Definition blacklistDuration : Z := 86400.

(** The value returned by [checkBlacklist]. *)
Record Verdict : Set := mkVerdict { blocked : bool; verdict_reason : option string }.

(** The identifier is a function of the browser (user agent, language,
    screen, canvas output, ...): here a datum of the world. The function
    ends in [btoa(components.join('|')).substring(0, 32)], outside any
    [try]: [btoa] throws where the joined text holds a character above
    U+00FF. *)
Definition getClientIdentifier : M string :=
  fun w =>
    if wideCharacters w then (Throws InvalidCharacterError, w)
    else (Returns (clientIdentifier w), w).

Definition isClientBlacklisted (clientId : string) : M bool :=
  try_catch
    (do blacklist <- parse_captcha_blacklist;
     match blacklist !! clientId with
     | None => ret false                 (* !!undefined *)
     | Some e =>
         do now <- Date_now;
         ret (bool_decide (expires e > now))
     end)
    (fun _ => ret false).

Definition addToBlacklist (clientId : string) (rs : list Reason) : M unit :=
  try_catch
    (do blacklist <- parse_captcha_blacklist;
     do t_added <- Date_now;
     do t_expires <- Date_now;
     store_captcha_blacklist
       (<[clientId := mkEntry t_added (t_expires + blacklistDuration * 1000) rs]>
          blacklist);;
     push_blacklistedIPs clientId)
    (fun _ => console_error).

Definition saveFailedAttempts : M unit :=
  try_catch
    (do fa <- get_failedAttempts;
     store_captcha_failed_attempts fa)
    (fun _ => console_error).

Definition loadFailedAttempts : M unit :=
  try_catch
    (do fa <- parse_captcha_failed_attempts;
     set_failedAttempts fa)
    (fun _ => set_failedAttempts ∅).

(** [this.failedAttempts[clientId]] where a property of it is used next:
    a [TypeError] when the entry is undefined. *)
Definition failedAttempts_at (clientId : string) : M FailedAttemptRecord :=
  do fa <- get_failedAttempts;
  match fa !! clientId with
  | Some r => ret r
  | None => throw TypeError
  end.

(** Assignment to a property of [this.failedAttempts[clientId]]. *)
Definition update_failedAttempts_at (clientId : string)
    (f : FailedAttemptRecord -> FailedAttemptRecord) : M unit :=
  do r <- failedAttempts_at clientId;
  do fa <- get_failedAttempts;
  set_failedAttempts (<[clientId := f r]> fa).

Definition recordFailedAttempt (why : string) : M unit :=
  do clientId <- getClientIdentifier;
  (* Initialize if not exists *)
  do fa <- get_failedAttempts;
  match fa !! clientId with
  | None =>
      do t <- Date_now;
      set_failedAttempts (<[clientId := mkAttempt 0 [] t]> fa)
  | Some _ => ret tt
  end;;
  (* Update attempt count and reasons *)
  update_failedAttempts_at clientId
    (fun r => mkAttempt (count r + 1) (reasons r) (firstAttempt r));;
  do t <- Date_now;
  update_failedAttempts_at clientId
    (fun r => mkAttempt (count r) (reasons r ++ [mkReason why t]) (firstAttempt r));;
  (* Check if threshold exceeded *)
  do r <- failedAttempts_at clientId;
  (if bool_decide (count r >= maxFailedAttempts) then
     addToBlacklist clientId (reasons r);;
     do fa <- get_failedAttempts;
     set_failedAttempts (delete clientId fa)
   else ret tt);;
  (* Save to storage *)
  saveFailedAttempts.

Definition loadBlacklist : M unit :=
  try_catch
    (do blacklist <- parse_captcha_blacklist;
     set_blacklistedIPs (map_to_list blacklist).*1)
    (fun _ => set_blacklistedIPs []).

Definition cleanupExpiredEntries : M unit :=
  try_catch
    (do blacklist <- parse_captcha_blacklist;
     do now <- Date_now;
     (* Remove expired entries *)
     let kept := filter (fun kv => ~ (expires kv.2 < now)) blacklist in
     let changed := negb (bool_decide (map_Forall (fun _ e => ~ (expires e < now)) blacklist)) in
     (* Save if changes were made *)
     if changed then
       store_captcha_blacklist kept;;
       set_blacklistedIPs (map_to_list kept).*1
     else ret tt)
    (fun _ => console_error).

Definition init : M unit :=
  loadBlacklist;;
  cleanupExpiredEntries.

Definition checkBlacklist : M Verdict :=
  (* Check user agent against known bot signatures *)
  do ua <- navigator_userAgent;
  let userAgent := Str.toLowerCase ua in
  if existsb (Str.includes userAgent) knownBotSignatures then
    recordFailedAttempt "known_bot_useragent";;
    ret (mkVerdict true (Some "known_bot"%string))
  else
  (* Check for security tools *)
  if existsb (Str.includes userAgent) securityTools then
    recordFailedAttempt "security_tool_detected";;
    ret (mkVerdict true (Some "security_tool"%string))
  else
  (* Check client fingerprint against blacklisted fingerprints *)
  do clientFingerprint <- getClientIdentifier;
  do listed <- isClientBlacklisted clientFingerprint;
  if listed then ret (mkVerdict true (Some "blacklisted"%string))
  else ret (mkVerdict false None).

(** A new page load: the script is evaluated afresh, so the singleton
    starts from its literal ([failedAttempts: {}], [blacklistedIPs: []]);
    the storage and the clock go on. Then [DOMContentLoaded] runs [init]. *)
Definition freshPage (w : World) : World :=
  with_blacklistedIPs (with_failedAttempts w ∅) [].

Definition pageLoad : M unit :=
  fun w => init (freshPage w).

(** [n] calls of [recordFailedAttempt(why)] in a row. *)
Fixpoint repeatFailedAttempt (n : nat) (why : string) : M unit :=
  match n with
  | O => ret tt
  | S n' => recordFailedAttempt why;; repeatFailedAttempt n' why
  end.

(** *** Vocabulary for the statements *)

(** [c] run in [w] ends with outcome [o] in world [w']. *)
Definition runs {A} (c : M A) (w : World) (o : outcome A) (w' : World) : Prop :=
  c w = (o, w').

(** The world after one read of the clock. *)
Definition tick (w : World) : World :=
  with_clock w (clock w + hd 0 (ticks w)) (tl (ticks w)).

(** The persisted blacklist as the program reads it: nothing when the
    read throws or the text does not parse. *)
Definition readable_blacklist (s : Storage) : option (gmap string BlacklistEntry) :=
  if getItem_throws s then None
  else match captcha_blacklist s with
       | NoItem => Some ∅
       | BadText => None
       | Text m => Some m
       end.

(** What the page cannot change: the browser and the state of its storage
    service. *)
Definition same_browser (w w' : World) : Prop :=
  userAgent w' = userAgent w
  /\ clientIdentifier w' = clientIdentifier w
  /\ getItem_throws (localStorage w') = getItem_throws (localStorage w)
  /\ setItem_throws (localStorage w') = setItem_throws (localStorage w)
  /\ wideCharacters w' = wideCharacters w.

(** The browser has a client identifier: [btoa] accepts the text that
    [getClientIdentifier] joins. *)
Definition identified (w : World) : Prop := wideCharacters w = false.

(** The world after [saveFailedAttempts]. *)
Definition saved (w : World) : World :=
  if setItem_throws (localStorage w) then w
  else with_localStorage w
         (mkStorage (getItem_throws (localStorage w)) false
                    (captcha_blacklist (localStorage w))
                    (Text (failedAttempts w))).

(** The world after an [addToBlacklist] that could read [bl] and write. *)
Definition listed (id : string) (rs : list Reason)
    (bl : gmap string BlacklistEntry) (w : World) : World :=
  let e := mkEntry (clock w) (clock (tick w) + blacklistDuration * 1000) rs in
  with_blacklistedIPs
    (with_localStorage (tick (tick w))
       (mkStorage (getItem_throws (localStorage w)) false
                  (Text (<[id := e]> bl))
                  (captcha_failed_attempts (localStorage w))))
    (blacklistedIPs w ++ [id]).

(** The record as [recordFailedAttempt] leaves it before the threshold
    test: one more attempt, one more reason. *)
Definition noted (why : string) (t : Z) (r : FailedAttemptRecord) : FailedAttemptRecord :=
  mkAttempt (count r + 1) (reasons r ++ [mkReason why t]) (firstAttempt r).

(** The entries [cleanupExpiredEntries] keeps at time [now]. *)
Definition unexpired (now : Z) (bl : gmap string BlacklistEntry)
    : gmap string BlacklistEntry :=
  filter (fun kv => ~ (expires kv.2 < now)) bl.

(** The world after a cleanup that found something to remove and could
    write. *)
Definition swept (bl : gmap string BlacklistEntry) (w : World) : World :=
  with_blacklistedIPs
    (with_localStorage (tick w)
       (mkStorage (getItem_throws (localStorage w)) false
                  (Text (unexpired (clock w) bl))
                  (captcha_failed_attempts (localStorage w))))
    (map_to_list (unexpired (clock w) bl)).*1.

(** The lower-cased user agent contains an element of [l]. *)
Definition matches (l : list string) (w : World) : bool :=
  existsb (Str.includes (Str.toLowerCase (userAgent w))) l.

End Store.

(** ** Interaction monitor *)

Module Interaction.

(** One element of [movementPatterns]. Velocities and directions are
    finite numbers ([trackMouseMovement] divides by a positive time
    difference only), so [===] on them is equality of their values. *)
Record Sample : Set := mkSample { velocity : Q; direction : Q }.

Record Position : Set := mkPosition { pos_x : Z; pos_y : Z; pos_time : Z }.

Record InteractionData : Set := mkInteractionData {
  mouseMoves : Z;
  mouseClicks : Z;
  keyPresses : Z;
  touchEvents : Z;
  movementPatterns : list Sample;
  lastPosition : option Position;
  startTime : Z
}.

(** [prev === x] where [prev] starts as [null]. *)
Definition strict_eq (prev : option Q) (x : Q) : bool :=
  match prev with
  | None => false
  | Some p => Qeq_bool p x
  end.

(** The [for (const pattern of ...)] loop, threading [unnaturalMovements],
    [prevVelocity] and [prevDirection]. *)
Fixpoint scanPatterns (l : list Sample) (unnaturalMovements : nat)
    (prevVelocity prevDirection : option Q) : nat :=
  match l with
  | [] => unnaturalMovements
  | pattern :: rest =>
      let u1 := if strict_eq prevVelocity (velocity pattern)
                then S unnaturalMovements else unnaturalMovements in
      let u2 := if strict_eq prevDirection (direction pattern)
                then S u1 else u1 in
      scanPatterns rest u2 (Some (velocity pattern)) (Some (direction pattern))
  end.

(** [a / b > 0.3] on numbers. *)
Definition exceeds_30_percent (a b : nat) : bool :=
  negb (Qle_bool (inject_Z (Z.of_nat a) / inject_Z (Z.of_nat b)) (3 # 10)).

(** [analyzeInteractions(interactionData)], [now] being what its
    [Date.now()] returns. *)
Definition analyzeInteractions (now : Z) (d : InteractionData) : bool :=
  let timeDiff := now - startTime d in
  let totalInteractions :=
    mouseMoves d + mouseClicks d + keyPresses d + touchEvents d in
  if ((2000 <? timeDiff) && (totalInteractions <? 3))%bool then false
  else if (5 <? length (movementPatterns d))%nat then
    let unnaturalMovements := scanPatterns (movementPatterns d) 0 None None in
    if exceeds_30_percent unnaturalMovements (length (movementPatterns d))
    then false else true
  else true.

(** *** The measure in the words of the specification *)

(** Consecutive pairs of samples. *)
Fixpoint consecutive_pairs (l : list Sample) : list (Sample * Sample) :=
  match l with
  | a :: ((b :: _) as rest) => (a, b) :: consecutive_pairs rest
  | _ => []
  end.

Definition same_velocity (p : Sample * Sample) : bool :=
  Qeq_bool (velocity (fst p)) (velocity (snd p)).

Definition same_direction (p : Sample * Sample) : bool :=
  Qeq_bool (direction (fst p)) (direction (snd p)).

(** Number of consecutive pairs with equal velocity or equal direction. *)
Definition uniform_pairs (l : list Sample) : nat :=
  length (List.filter (fun p => same_velocity p || same_direction p)%bool
                      (consecutive_pairs l)).

(** "the fraction of consecutive sample pairs with exactly equal velocity
    or exactly equal direction". *)
Definition uniform_pair_fraction (l : list Sample) : Q :=
  inject_Z (Z.of_nat (uniform_pairs l))
  / inject_Z (Z.of_nat (length (consecutive_pairs l))).

(** The same count taken over the number of samples. *)
Definition uniform_pair_fraction_of_samples (l : list Sample) : Q :=
  inject_Z (Z.of_nat (uniform_pairs l)) / inject_Z (Z.of_nat (length l)).

(** Consecutive pairs equal in velocity and in direction. *)
Definition doubly_uniform_pairs (l : list Sample) : nat :=
  length (List.filter (fun p => same_velocity p && same_direction p)%bool
                      (consecutive_pairs l)).

(** What the loop adds up: repeated velocities plus repeated directions. *)
Definition repeated_velocities (l : list Sample) : nat :=
  length (List.filter same_velocity (consecutive_pairs l)).

Definition repeated_directions (l : list Sample) : nat :=
  length (List.filter same_direction (consecutive_pairs l)).

End Interaction.

(** ** Signal collection and the suspicious-pattern score *)

Module Fingerprint.

(** JSON text of a value that no check looks into. *)
Definition json : Set := string.

(** The browser as the collector meets it. A field of type [outcome _]
    is an operation that may throw in some browsers: a getter
    ([window.localStorage] raises a security error where storage is
    refused), the body of a probe, or the body of a [try] block. *)
Record Window : Type := mkWindow {
  navigator_userAgent : string;
  navigator_languages : option (list string);  (* undefined, or an array *)
  navigator_plugins_length : option nat;       (* plugins undefined, or its length *)
  window_chrome : bool;                        (* typeof window.chrome !== 'undefined' *)
  window_InstallTrigger : bool;
  window_devicePixelRatio : option Q;
  window_localStorage : outcome bool;          (* truthiness of the property *)
  window_sessionStorage : outcome bool;
  window_indexedDB : outcome bool;
  Intl_timeZone : outcome string;
  audioCodecs_probe : outcome json;            (* body of detectAudioCodecs *)
  videoCodecs_probe : outcome json;            (* body of detectVideoCodecs *)
  canvas_probe : outcome string;               (* try block of generateCanvasFingerprint *)
  fonts_probe : outcome (list string);         (* body of detectFonts *)
  battery_probe : outcome (option json);       (* try block of getBatteryInfo *)
  connection_probe : outcome (option json);    (* try block of getConnectionType *)
  plugins_probe : list json;                   (* what getPluginsInfo pushed before it ended *)
  benchmark_probe : outcome json;              (* body of benchmarkPerformance *)
  webgl_getContext : outcome bool;             (* a context was obtained *)
  webgl_getExtension : outcome bool;           (* WEBGL_debug_renderer_info is there *)
  webgl_vendor : outcome (option string);
  webgl_renderer : outcome (option string);
  adBlocker_probe : outcome bool;              (* the awaited detectAdBlocker() *)
  digest_probe : outcome string;               (* crypto.subtle.digest of the JSON text *)
  fallback_btoa : outcome string               (* btoa(components.join('###')) of the
                                                  fallback: throws on a character above
                                                  U+00FF in user agent or language *)
}.

(** The object built by [collectFingerprintComponents]; plain property
    reads that no check consults are left out. *)
Record Components : Type := mkComponents {
  c_userAgent : string;
  c_languages : option (list string);
  c_pixelRatio : Q;
  c_timezoneStr : string;
  c_localStorage : bool;
  c_sessionStorage : bool;
  c_indexedDB : bool;
  c_adBlocker : bool;
  c_audioCodecs : json;
  c_videoCodecs : json;
  webglVendor : option string;
  webglRenderer : option string;
  canvasHash : string;
  fonts : list string;
  batteryInfo : option json;
  connectionType : option json;
  plugins : list json;
  performanceMetrics : json
}.

Definition obind {A B} (c : outcome A) (k : A -> outcome B) : outcome B :=
  match c with
  | Returns a => k a
  | Throws e => Throws e
  end.

Definition otry {A} (body : outcome A) (handler : exn -> outcome A) : outcome A :=
  match body with
  | Returns a => Returns a
  | Throws e => handler e
  end.

Declare Scope probe_scope.
Delimit Scope probe_scope with probe.
Notation "'probe' x <- c ; k" := (obind c (fun x => k))
  (at level 10, x name, c at level 100, k at level 200) : probe_scope.
Local Open Scope probe_scope.

Definition canvas_not_supported : string := "canvas_not_supported".

Definition generateCanvasFingerprint (win : Window) : outcome string :=
  otry (canvas_probe win) (fun _ => Returns canvas_not_supported).

Definition null_info : option string * option string := (None, None).

Definition getWebGLInfo (win : Window) : outcome (option string * option string) :=
  otry
    (probe gl <- webgl_getContext win;
     if negb gl then Returns null_info
     else
       probe debugInfo <- webgl_getExtension win;
       if negb debugInfo then Returns null_info
       else
         probe vendor <- webgl_vendor win;
         probe renderer <- webgl_renderer win;
         Returns (vendor, renderer))
    (fun _ => Returns null_info).

Definition getBatteryInfo (win : Window) : outcome (option json) :=
  otry (battery_probe win) (fun _ => Returns None).

Definition getConnectionType (win : Window) : outcome (option json) :=
  otry (connection_probe win) (fun _ => Returns None).

Definition getPluginsInfo (win : Window) : outcome (list json) :=
  Returns (plugins_probe win).

Definition detectAudioCodecs (win : Window) : outcome json := audioCodecs_probe win.
Definition detectVideoCodecs (win : Window) : outcome json := videoCodecs_probe win.
Definition detectFonts (win : Window) : outcome (list string) := fonts_probe win.
Definition benchmarkPerformance (win : Window) : outcome json := benchmark_probe win.
Definition detectAdBlocker (win : Window) : outcome bool := adBlocker_probe win.

Definition set_webgl (c : Components) (info : option string * option string)
    : Components :=
  mkComponents (c_userAgent c) (c_languages c) (c_pixelRatio c) (c_timezoneStr c)
    (c_localStorage c) (c_sessionStorage c) (c_indexedDB c) (c_adBlocker c)
    (c_audioCodecs c) (c_videoCodecs c) (fst info) (snd info) (canvasHash c)
    (fonts c) (batteryInfo c) (connectionType c) (plugins c)
    (performanceMetrics c).

Definition set_adBlocker (c : Components) (b : bool) : Components :=
  mkComponents (c_userAgent c) (c_languages c) (c_pixelRatio c) (c_timezoneStr c)
    (c_localStorage c) (c_sessionStorage c) (c_indexedDB c) b
    (c_audioCodecs c) (c_videoCodecs c) (webglVendor c) (webglRenderer c)
    (canvasHash c) (fonts c) (batteryInfo c) (connectionType c) (plugins c)
    (performanceMetrics c).

(** [x || 1] on a number that may be undefined. *)
Definition or_one (x : option Q) : Q :=
  match x with
  | Some q => if Qeq_bool q 0 then 1%Q else q
  | None => 1%Q
  end.

(** The properties of the object literal are evaluated in source order;
    [await] is sequencing. *)
Definition collectFingerprintComponents (win : Window) : outcome Components :=
  probe timezoneStr <- Intl_timeZone win;
  probe localStorage <- window_localStorage win;
  probe sessionStorage <- window_sessionStorage win;
  probe indexedDB <- window_indexedDB win;
  probe audioCodecs <- detectAudioCodecs win;
  probe videoCodecs <- detectVideoCodecs win;
  probe canvasHash <- generateCanvasFingerprint win;
  probe fonts <- detectFonts win;
  probe batteryInfo <- getBatteryInfo win;
  probe connectionType <- getConnectionType win;
  probe plugins <- getPluginsInfo win;
  probe performanceMetrics <- benchmarkPerformance win;
  let components :=
    mkComponents (navigator_userAgent win) (navigator_languages win)
      (or_one (window_devicePixelRatio win)) timezoneStr
      localStorage sessionStorage indexedDB false
      audioCodecs videoCodecs None None canvasHash
      fonts batteryInfo connectionType plugins performanceMetrics in
  (* Add WebGL info *)
  let components :=
    match getWebGLInfo win with
    | Returns webglInfo => set_webgl components webglInfo
    | Throws _ => components        (* WebGL might be disabled *)
    end in
  (* Detect ad blockers *)
  probe adBlocker <- detectAdBlocker win;
  Returns (set_adBlocker components adBlocker).

(** What [generateBrowserFingerprint] resolves to. *)
Inductive BrowserFingerprint : Type :=
| Hashed (c : Components) (hashHex : string)
| Fallback (text : string).

(** The array literal reads [window.sessionStorage] and
    [window.localStorage] under [typeof], which evaluates the getters;
    then [btoa] encodes the joined text. Nothing here is guarded. *)
Definition generateFallbackFingerprint (win : Window) : outcome BrowserFingerprint :=
  probe _ss <- window_sessionStorage win;
  probe _ls <- window_localStorage win;
  probe text <- fallback_btoa win;
  Returns (Fallback text).

Definition generateBrowserFingerprint (win : Window) : outcome BrowserFingerprint :=
  otry
    (probe fingerprints <- collectFingerprintComponents win;
     probe hashHex <- digest_probe win;
     Returns (Hashed fingerprints hashHex))
    (fun _ => generateFallbackFingerprint win).

(** *** hasTooManySuspiciousPatterns *)

Record SuspiciousPatterns : Set := mkPatterns {
  noFonts : bool; noCanvas : bool; noWebGL : bool; mismatchedUA : bool;
  spoofedLanguages : bool; noStorage : bool; inconsistentFeatures : bool;
  tooBluetooth : bool; tooNetwork : bool; tamperedDOM : bool;
  perfectConsistency : bool; allPluginsDisabled : bool; unusualTimezone : bool
}.

Definition suspiciousPatterns : SuspiciousPatterns :=
  mkPatterns true true true true true true true true true true true true true.

(** Truthiness of a string that may be null. *)
Definition truthy (s : option string) : bool :=
  match s with
  | Some EmptyString => false
  | Some _ => true
  | None => false
  end.

(** [x % 1 === 0]. *)
Definition is_whole (q : Q) : bool := Pos.eqb (Qden (Qred q)) 1.

(** The conditions of the eight blocks, in source order; the fourth
    block holds two. [fingerprint.fonts] is an array here, hence truthy. *)
Definition fonts_missing (fp : Components) : bool :=
  noFonts suspiciousPatterns && (length (fonts fp) <? 2)%nat.

Definition canvas_blocked (fp : Components) : bool :=
  noCanvas suspiciousPatterns && String.eqb (canvasHash fp) "canvas_not_supported".

Definition webgl_missing (fp : Components) : bool :=
  noWebGL suspiciousPatterns
  && (negb (truthy (webglVendor fp)) && negb (truthy (webglRenderer fp))).

Definition chrome_mismatch (win : Window) : bool :=
  mismatchedUA suspiciousPatterns
  && (Str.includes (Str.toLowerCase (navigator_userAgent win)) "chrome"
      && negb (window_chrome win)).

Definition firefox_mismatch (win : Window) : bool :=
  mismatchedUA suspiciousPatterns
  && (Str.includes (Str.toLowerCase (navigator_userAgent win)) "firefox"
      && negb (window_InstallTrigger win)).

Definition languages_empty (win : Window) : bool :=
  spoofedLanguages suspiciousPatterns
  && match navigator_languages win with
     | None => true
     | Some l => (length l =? 0)%nat
     end.

(** [!window.localStorage || !window.sessionStorage]: the second getter
    is read only when the first is truthy. *)
Definition storage_missing (win : Window) : outcome bool :=
  if noStorage suspiciousPatterns then
    probe ls <- window_localStorage win;
    if negb ls then Returns true
    else
      probe ss <- window_sessionStorage win;
      Returns (negb ss)
  else Returns false.

Definition pixel_ratio_whole (win : Window) : bool :=
  perfectConsistency suspiciousPatterns
  && match window_devicePixelRatio win with
     | Some q => negb (Qeq_bool q 0) && is_whole q
     | None => false
     end.

Definition plugins_empty (win : Window) : bool :=
  allPluginsDisabled suspiciousPatterns
  && match navigator_plugins_length win with
     | Some n => (n =? 0)%nat
     | None => false
     end.

(** [(suspiciousCount / totalChecks) > 0.4]. The counts are multiples of
    one half and the divisor is 8, so the quotient is exact in binary
    floating point; 0.4 as a double lies strictly between 6/16 and 7/16,
    so the comparison of doubles is the comparison of these rationals. *)
Definition over_threshold (suspiciousCount totalChecks : Q) : bool :=
  negb (Qle_bool (suspiciousCount / totalChecks) (4 # 10)).

Definition hasTooManySuspiciousPatterns (win : Window) (fingerprint : Components)
    : outcome bool :=
  let suspiciousCount : Q := 0%Q in
  let totalChecks : Q := 0%Q in
  (* Check for suspicious font detection *)
  let suspiciousCount :=
    if fonts_missing fingerprint then (suspiciousCount + 1)%Q else suspiciousCount in
  let totalChecks := (totalChecks + 1)%Q in
  (* Check for canvas blocking *)
  let suspiciousCount :=
    if canvas_blocked fingerprint then (suspiciousCount + 1)%Q else suspiciousCount in
  let totalChecks := (totalChecks + 1)%Q in
  (* Check for WebGL blocking *)
  let suspiciousCount :=
    if webgl_missing fingerprint then (suspiciousCount + 1)%Q else suspiciousCount in
  let totalChecks := (totalChecks + 1)%Q in
  (* User agent inconsistencies *)
  let suspiciousCount :=
    if chrome_mismatch win then (suspiciousCount + 1)%Q else suspiciousCount in
  let suspiciousCount :=
    if firefox_mismatch win then (suspiciousCount + 1)%Q else suspiciousCount in
  let totalChecks := (totalChecks + 1)%Q in
  (* Suspicious languages settings *)
  let suspiciousCount :=
    if languages_empty win then (suspiciousCount + 1)%Q else suspiciousCount in
  let totalChecks := (totalChecks + 1)%Q in
  (* Storage availability *)
  probe storageMissing <- storage_missing win;
  let suspiciousCount :=
    if storageMissing then (suspiciousCount + 1)%Q else suspiciousCount in
  let totalChecks := (totalChecks + 1)%Q in
  (* Too perfect fingerprint *)
  let suspiciousCount :=
    if pixel_ratio_whole win then (suspiciousCount + (1 # 2))%Q else suspiciousCount in
  let totalChecks := (totalChecks + 1)%Q in
  (* Plugins all disabled *)
  let suspiciousCount :=
    if plugins_empty win then (suspiciousCount + 1)%Q else suspiciousCount in
  let totalChecks := (totalChecks + 1)%Q in
  Returns (over_threshold suspiciousCount totalChecks).

(** *** The score in the words of the specification *)

(** The user-agent check: one of the eight checks, with two conditions. *)
Definition ua_mismatch (win : Window) : bool :=
  chrome_mismatch win || firefox_mismatch win.

(** Both conditions of the user-agent check hold: the check adds two
    points. *)
Definition ua_counts_twice (win : Window) : bool :=
  chrome_mismatch win && firefox_mismatch win.

(** The seven checks of weight 1, [storageMissing] being the value of the
    storage check; the eighth check is the pixel ratio, of weight one
    half. *)
Definition full_weight_checks (win : Window) (fp : Components)
    (storageMissing : bool) : list bool :=
  [ fonts_missing fp; canvas_blocked fp; webgl_missing fp; ua_mismatch win;
    languages_empty win; storageMissing; plugins_empty win ].

(** The full-weight conditions that hold, [storageMissing] being the
    value of the storage condition. *)
Definition full_weight_triggers (win : Window) (fp : Components)
    (storageMissing : bool) : list bool :=
  [ fonts_missing fp; canvas_blocked fp; webgl_missing fp;
    chrome_mismatch win; firefox_mismatch win; languages_empty win;
    storageMissing; plugins_empty win ].

Definition triggered (l : list bool) : nat := length (List.filter id l).

(** One point per full-weight condition, half a point for the pixel
    ratio. *)
Definition suspicious_points (win : Window) (fp : Components)
    (storageMissing : bool) : Q :=
  (inject_Z (Z.of_nat (triggered (full_weight_triggers win fp storageMissing)))
   + (if pixel_ratio_whole win then 1 # 2 else 0))%Q.

(** Points over the fixed denominator of 8 checks. *)
Definition suspicious_ratio (win : Window) (fp : Components)
    (storageMissing : bool) : Q :=
  (suspicious_points win fp storageMissing / 8)%Q.

(** *** Vocabulary for the statements *)

Definition returns {A} (o : outcome A) : bool :=
  match o with
  | Returns _ => true
  | Throws _ => false
  end.

(** The operations of [collectFingerprintComponents] that no [try]
    guards all return. *)
Definition unguarded_probes_return (win : Window) : bool :=
  returns (Intl_timeZone win) && returns (window_localStorage win)
  && returns (window_sessionStorage win) && returns (window_indexedDB win)
  && returns (audioCodecs_probe win) && returns (videoCodecs_probe win)
  && returns (fonts_probe win) && returns (benchmark_probe win)
  && returns (adBlocker_probe win).

(** The exception of an operation, if it throws. *)
Definition thrown {A} (o : outcome A) : option exn :=
  match o with
  | Returns _ => None
  | Throws e => Some e
  end.

Fixpoint first_thrown (l : list (option exn)) : option exn :=
  match l with
  | [] => None
  | Some e :: _ => Some e
  | None :: rest => first_thrown rest
  end.

(** The first exception, in the order of evaluation, among the operations
    of [collectFingerprintComponents] that no [try] guards. *)
Definition first_unguarded_throw (win : Window) : option exn :=
  first_thrown
    [ thrown (Intl_timeZone win); thrown (window_localStorage win);
      thrown (window_sessionStorage win); thrown (window_indexedDB win);
      thrown (audioCodecs_probe win); thrown (videoCodecs_probe win);
      thrown (fonts_probe win); thrown (benchmark_probe win);
      thrown (adBlocker_probe win) ].

(** WebGL answers: a context, the debug extension and both parameters. *)
Definition webgl_available (win : Window) : bool :=
  match webgl_getContext win, webgl_getExtension win with
  | Returns true, Returns true => returns (webgl_vendor win) && returns (webgl_renderer win)
  | _, _ => false
  end.

End Fingerprint.

(** ** The blacklist store: invariants *)

Module StoreInvariant.
Import Store.

(** The records of the in-memory map are live: between one attempt and
    [maxFailedAttempts - 1], with one reason per attempt. *)
Definition live_record (r : FailedAttemptRecord) : Prop :=
  1 <= count r < maxFailedAttempts /\ Z.of_nat (length (reasons r)) = count r.

Definition live_attempts (w : World) : Prop :=
  map_Forall (fun _ r => live_record r) (failedAttempts w).

(** The persisted blacklist entry of [id], when the store can be read. *)
Definition persisted_entry (w : World) (id : string) : option BlacklistEntry :=
  match readable_blacklist (localStorage w) with
  | Some bl => bl !! id
  | None => None
  end.

End StoreInvariant.

(** ** URL fragments *)

Module Fragment.

(** *** Strings, continued *)

Fixpoint sfilter (p : ascii -> bool) (s : string) : string :=
  match s with
  | EmptyString => EmptyString
  | String c r => if p c then String c (sfilter p r) else sfilter p r
  end.

Fixpoint sforall (p : ascii -> bool) (s : string) : bool :=
  match s with
  | EmptyString => true
  | String c r => p c && sforall p r
  end.

(** Number of occurrences of [c] in [s]. *)
Fixpoint occurrences (c : ascii) (s : string) : nat :=
  match s with
  | EmptyString => O
  | String a r => if Ascii.eqb a c then S (occurrences c r) else occurrences c r
  end.

(** [s.split(c)[0]]: [s] up to its first [c]. *)
Fixpoint before (c : ascii) (s : string) : string :=
  match s with
  | EmptyString => EmptyString
  | String a r => if Ascii.eqb a c then EmptyString else String a (before c r)
  end.

(** [s] cut at its first [c]. *)
Fixpoint cut_first (c : ascii) (s : string) : option (string * string) :=
  match s with
  | EmptyString => None
  | String a r =>
      if Ascii.eqb a c then Some (EmptyString, r)
      else match cut_first c r with
           | Some (p, q) => Some (String a p, q)
           | None => None
           end
  end.

(** [s] cut at its last [c]. *)
Fixpoint cut_last (c : ascii) (s : string) : option (string * string) :=
  match s with
  | EmptyString => None
  | String a r =>
      match cut_last c r with
      | Some (p, q) => Some (String a p, q)
      | None => if Ascii.eqb a c then Some (EmptyString, r) else None
      end
  end.

(** [s.substring(1)]. *)
Definition substring1 (s : string) : string :=
  match s with
  | EmptyString => EmptyString
  | String _ r => r
  end.

Definition nonempty (s : string) : bool :=
  match s with
  | EmptyString => false
  | String _ _ => true
  end.

(** *** Character classes of the patterns *)

Definition between (lo hi : nat) (c : ascii) : bool :=
  let n := nat_of_ascii c in ((lo <=? n)%nat && (n <=? hi)%nat)%bool.

(** [a-zA-Z] *)
Definition letter (c : ascii) : bool := between 97 122 c || between 65 90 c.

(** [a-zA-Z0-9] *)
Definition alnum (c : ascii) : bool := letter c || between 48 57 c.

Fixpoint one_of (set : string) (c : ascii) : bool :=
  match set with
  | EmptyString => false
  | String a r => Ascii.eqb a c || one_of r c
  end.

(** [[a-zA-Z0-9._%+-]] *)
Definition email_local (c : ascii) : bool := alnum c || one_of "._%+-" c.

(** [[a-zA-Z0-9.-]] *)
Definition email_domain (c : ascii) : bool := alnum c || one_of ".-" c.

(** [[a-zA-Z0-9_\-@.+]] *)
Definition identifier_char (c : ascii) : bool := alnum c || one_of "_-@.+" c.

(** The complement of [[^a-zA-Z0-9@._\-+%]]. *)
Definition kept (c : ascii) : bool := alnum c || one_of "@._-+%" c.

(** [/^[a-zA-Z0-9._%+-]+@[a-zA-Z0-9.-]+\.[a-zA-Z]{2,}$/.test(s)]. The local
    class has no "@", so the local part ends at the first "@"; the last
    class has no ".", so the final part starts after the last ".". *)
Definition emailPattern (s : string) : bool :=
  match cut_first "@" s with
  | Some (local, rest) =>
      nonempty local && sforall email_local local
      && match cut_last "." rest with
         | Some (domain, tld) =>
             nonempty domain && sforall email_domain domain
             && (2 <=? String.length tld)%nat && sforall letter tld
         | None => false
         end
  | None => false
  end.

(** [/^[a-zA-Z0-9_\-@.+]{4,50}$/.test(s)]. *)
Definition identifierPattern (s : string) : bool :=
  sforall identifier_char s
  && (4 <=? String.length s)%nat && (String.length s <=? 50)%nat.

(** *** fragmentHandler; [hash] is [window.location.hash] *)

Definition getFragment (hash : string) : string := hash.

Definition extractIdentifier (hash : string) : option string :=
  let fragment := getFragment hash in
  (* No fragment *)
  if negb (nonempty fragment) || (String.length fragment <=? 1)%nat then None
  else
    (* Remove the # character *)
    let content := substring1 fragment in
    if emailPattern content then Some content
    else if identifierPattern content then Some content
    else None.

Definition sanitizeFragment (fragment : string) : string :=
  if negb (nonempty fragment) then EmptyString
  else sfilter kept fragment.

Definition getRedirectFragment (hash : string) : string :=
  let fragment := getFragment hash in
  if negb (nonempty fragment) || (String.length fragment <=? 1)%nat then EmptyString
  else
    let sanitized := sanitizeFragment fragment in
    if nonempty sanitized then String "#" sanitized else EmptyString.

Definition appendFragmentToUrl (hash : string) (baseUrl : string) : string :=
  let fragment := getRedirectFragment hash in
  if negb (nonempty fragment) then baseUrl
  else if Str.includes baseUrl "#" then String.append (before "#" baseUrl) fragment
  else String.append baseUrl fragment.

(** *** The language of the e-mail pattern, spelled out *)

Definition email_shape (s : string) : Prop :=
  exists local domain tld : string,
    s = String.append local (String "@" (String.append domain (String "." tld)))
    /\ nonempty local = true /\ sforall email_local local = true
    /\ nonempty domain = true /\ sforall email_domain domain = true
    /\ (2 <= String.length tld)%nat /\ sforall letter tld = true.

End Fragment.

(** ** The client identifier *)

Module ClientId.

(** *** Text *)

(** A JavaScript string is a sequence of UTF-16 code units; where no
    character is above U+00FF it is a [string] of 8-bit characters. The
    texts that the browser hands out (user agent, language, platform,
    vendor) are kept as code units here, since [btoa] tells the two
    kinds apart. *)
Definition text : Set := list N.

(** The code units of a string of 8-bit characters. *)
Fixpoint units (s : string) : text :=
  match s with
  | EmptyString => []
  | String c r => N_of_ascii c :: units r
  end.

(** No code unit is above 255. *)
Definition latin1 (t : text) : bool := forallb (fun u => u <=? 255)%N t.

(** The 8-bit characters of such a text. *)
Fixpoint bytes (t : text) : string :=
  match t with
  | [] => EmptyString
  | u :: r => String (ascii_of_N u) (bytes r)
  end.

(** *** [btoa] *)

Definition base64_alphabet : string :=
  "ABCDEFGHIJKLMNOPQRSTUVWXYZabcdefghijklmnopqrstuvwxyz0123456789+/".

(** The character of a 6-bit value. *)
Definition base64_digit (n : N) : ascii :=
  match String.get (N.to_nat n) base64_alphabet with
  | Some c => c
  | None => "="%char
  end.

(** The four 6-bit values of three bytes. *)
Definition sextet1 (a : ascii) : N := N.shiftr (N_of_ascii a) 2.

Definition sextet2 (a b : ascii) : N :=
  N.lor (N.shiftl (N.land (N_of_ascii a) 3) 4) (N.shiftr (N_of_ascii b) 4).

Definition sextet3 (b c : ascii) : N :=
  N.lor (N.shiftl (N.land (N_of_ascii b) 15) 2) (N.shiftr (N_of_ascii c) 6).

Definition sextet4 (c : ascii) : N := N.land (N_of_ascii c) 63.

Definition zero_byte : ascii := ascii_of_nat 0.

(** Base64 with padding of a string of 8-bit characters. *)
Fixpoint base64 (s : string) : string :=
  match s with
  | EmptyString => EmptyString
  | String a EmptyString =>
      String (base64_digit (sextet1 a))
        (String (base64_digit (sextet2 a zero_byte)) "==")
  | String a (String b EmptyString) =>
      String (base64_digit (sextet1 a))
        (String (base64_digit (sextet2 a b))
           (String (base64_digit (sextet3 b zero_byte)) "="))
  | String a (String b (String c r)) =>
      String (base64_digit (sextet1 a))
        (String (base64_digit (sextet2 a b))
           (String (base64_digit (sextet3 b c))
              (String (base64_digit (sextet4 c)) (base64 r))))
  end.

(** [btoa(t)]: an [InvalidCharacterError] when a code unit of [t] is
    above 255, the base64 text of its bytes otherwise. *)
Definition btoa (t : text) : outcome string :=
  if latin1 t then Returns (base64 (bytes t)) else Throws InvalidCharacterError.

(** [l.join(sep)]. *)
Fixpoint join (sep : text) (l : list text) : text :=
  match l with
  | [] => []
  | [x] => x
  | x :: rest => x ++ sep ++ join sep rest
  end.

(** A whole number as JavaScript prints it: all its decimal digits, with
    a minus sign below zero. JavaScript does so for the whole numbers
    that are doubles and lie below 10^21, among them all those between
    -2^53 and 2^53; from 10^21 on it prints an exponent. The numbers
    printed here (screen sizes, core counts, readings of the clock) are
    of the first kind. *)
Definition show_Z (z : Z) : string := NilZero.string_of_int (Z.to_int z).

(** *** getClientIdentifier *)

(** [navigator.deviceMemory], where defined, is one of these numbers of
    gigabytes. *)
Inductive DeviceMemory : Set :=
| GiB_0_25 | GiB_0_5 | GiB_1 | GiB_2 | GiB_4 | GiB_8.

Definition show_DeviceMemory (m : DeviceMemory) : string :=
  match m with
  | GiB_0_25 => "0.25"
  | GiB_0_5 => "0.5"
  | GiB_1 => "1"
  | GiB_2 => "2"
  | GiB_4 => "4"
  | GiB_8 => "8"
  end.

(** What [getClientIdentifier] reads of the browser. *)
Record Browser : Type := mkBrowser {
  navigator_userAgent : text;
  navigator_language : text;
  screen_width : Z;
  screen_height : Z;
  navigator_hardwareConcurrency : option Z;        (* undefined, or a number *)
  navigator_deviceMemory : option DeviceMemory;    (* undefined, or a number *)
  navigator_platform : text;
  navigator_vendor : text;
  canvas_toDataURL : outcome string                (* the try block on the canvas:
                                                      a data URL, or an exception *)
}.

(** [navigator.hardwareConcurrency || ''] as [join] prints it. *)
Definition hardwareConcurrency_or_empty (b : Browser) : string :=
  match navigator_hardwareConcurrency b with
  | Some n => if n =? 0 then EmptyString else show_Z n
  | None => EmptyString
  end.

(** [navigator.deviceMemory || ''] as [join] prints it. *)
Definition deviceMemory_or_empty (b : Browser) : string :=
  match navigator_deviceMemory b with
  | Some m => show_DeviceMemory m
  | None => EmptyString
  end.

(** The [components] array when [join] is called. *)
Definition components (b : Browser) : list text :=
  [ navigator_userAgent b;
    navigator_language b;
    units (String.append (show_Z (screen_width b))
             (String.append "x" (show_Z (screen_height b))));
    units (hardwareConcurrency_or_empty b);
    units (deviceMemory_or_empty b);
    navigator_platform b;
    navigator_vendor b ]
  ++ [ units match canvas_toDataURL b with
             | Returns dataURL => dataURL
             | Throws _ => "no_canvas"%string
             end ].

(** The last statement is outside the [try]: an exception of [btoa]
    leaves the function. *)
Definition getClientIdentifier (b : Browser) : outcome string :=
  match btoa (join (units "|") (components b)) with
  | Returns encoded => Returns (String.substring 0 32 encoded)
  | Throws e => Throws e
  end.

(** *** Vocabulary for the statements *)

(** A character of the output of [btoa]. *)
Definition base64_char (c : ascii) : bool :=
  Fragment.alnum c || Fragment.one_of "+/=" c.

(** One of the texts of the browser holds a character above U+00FF. *)
Definition wide_text (b : Browser) : bool :=
  negb (latin1 (navigator_userAgent b) && latin1 (navigator_language b)
        && latin1 (navigator_platform b) && latin1 (navigator_vendor b)).

End ClientId.

(** ** Interaction tracking *)

Module Tracker.
Import Store Interaction.
Local Open Scope js_scope.

(** The events that [initializeInteractionTracking] listens to; a mouse
    move carries [clientX] and [clientY]. *)
Inductive Event : Set :=
| mousemove (clientX clientY : Z)
| mousedown
| keydown
| touchstart
| touchmove.

(** The object that [initializeInteractionTracking] creates and returns;
    the listeners it installs are [dispatch] below. *)
Definition initializeInteractionTracking : M InteractionData :=
  do now <- Date_now;
  ret (mkInteractionData 0 0 0 0 [] None now).

Section FloatingPoint.

(** The two floating-point results of [trackMouseMovement], as functions
    of the whole numbers they are computed from:
    [Math.sqrt(Math.pow(dx, 2) + Math.pow(dy, 2)) / timeDiff] and
    [Math.atan2(dy, dx)]. *)
Variable velocity_of : Z -> Z -> Z -> Q.
Variable Math_atan2 : Z -> Z -> Q.

Definition trackMouseMovement (clientX clientY : Z) (d : InteractionData)
    : M InteractionData :=
  let mouseMoves := mouseMoves d + 1 in
  (* Store current position *)
  do now <- Date_now;
  let currentPosition := mkPosition clientX clientY now in
  (* Calculate velocity if we have a previous position *)
  let movementPatterns :=
    match lastPosition d with
    | Some last =>
        let timeDiff := pos_time currentPosition - pos_time last in
        if 0 <? timeDiff then
          movementPatterns d
          ++ [ mkSample
                 (velocity_of (pos_x currentPosition - pos_x last)
                              (pos_y currentPosition - pos_y last) timeDiff)
                 (Math_atan2 (pos_y currentPosition - pos_y last)
                             (pos_x currentPosition - pos_x last)) ]
        else movementPatterns d
    | None => movementPatterns d
    end in
  ret (mkInteractionData mouseMoves (mouseClicks d) (keyPresses d) (touchEvents d)
         movementPatterns (Some currentPosition) (startTime d)).

(** The listener of each event. *)
Definition dispatch (e : Event) (d : InteractionData) : M InteractionData :=
  match e with
  | mousemove clientX clientY => trackMouseMovement clientX clientY d
  | mousedown =>
      ret (mkInteractionData (mouseMoves d) (mouseClicks d + 1) (keyPresses d)
             (touchEvents d) (movementPatterns d) (lastPosition d) (startTime d))
  | keydown =>
      ret (mkInteractionData (mouseMoves d) (mouseClicks d) (keyPresses d + 1)
             (touchEvents d) (movementPatterns d) (lastPosition d) (startTime d))
  | touchstart | touchmove =>
      ret (mkInteractionData (mouseMoves d) (mouseClicks d) (keyPresses d)
             (touchEvents d + 1) (movementPatterns d) (lastPosition d) (startTime d))
  end.

(** The events of a visit, in order. *)
Fixpoint replay (events : list Event) (d : InteractionData) : M InteractionData :=
  match events with
  | [] => ret d
  | e :: rest => do d' <- dispatch e d; replay rest d'
  end.

(** The tracking of a whole visit: the page starts tracking, then the
    events arrive. *)
Definition track (events : list Event) : M InteractionData :=
  do d <- initializeInteractionTracking;
  replay events d.

End FloatingPoint.

(** *** Vocabulary for the statements *)

Definition is_mousemove (e : Event) : bool :=
  match e with
  | mousemove _ _ => true
  | _ => false
  end.

(** [n] mouse moves along a straight line, at steps of [(dx, dy)]. *)
Fixpoint sweep (n : nat) (x y dx dy : Z) : list Event :=
  match n with
  | O => []
  | S k => mousemove x y :: sweep k (x + dx) (y + dy) dx dy
  end.

(** The samples a visit can have gathered: one per mouse move after the
    first. *)
Definition sample_bound (last : option Position) (moves : nat) : nat :=
  match last with
  | None => pred moves
  | Some _ => moves
  end.

End Tracker.

(** ** The page: bot trap, form handler and redirect *)

Module Page.
Import Store Interaction.

(** *** parseInt *)

(** The white space that [parseInt] skips, among 8-bit characters: tab,
    line feed, vertical tab, form feed, carriage return, space and
    no-break space. *)
Definition is_whitespace (c : ascii) : bool :=
  let n := nat_of_ascii c in
  ((9 <=? n)%nat && (n <=? 13)%nat) || (n =? 32)%nat || (n =? 160)%nat.

Fixpoint trim_start (s : string) : string :=
  match s with
  | String c r => if is_whitespace c then trim_start r else s
  | EmptyString => s
  end.

(** The value of [c] as a digit in base [radix], if it is one. *)
Definition digit_value (radix : Z) (c : ascii) : option Z :=
  let n := Z.of_nat (nat_of_ascii c) in
  let v := if (48 <=? n) && (n <=? 57) then Some (n - 48)
           else if (97 <=? n) && (n <=? 122) then Some (n - 87)
           else if (65 <=? n) && (n <=? 90) then Some (n - 55)
           else None in
  match v with
  | Some d => if d <? radix then Some d else None
  | None => None
  end.

(** The value of the longest prefix of digits of [s], after [acc]. *)
Fixpoint digits_value (radix acc : Z) (s : string) : Z :=
  match s with
  | String c r =>
      match digit_value radix c with
      | Some d => digits_value radix (acc * radix + d) r
      | None => acc
      end
  | EmptyString => acc
  end.

(** [parseInt(s)]; [None] is NaN. The value is exact, as in JavaScript
    below 2^53. *)
Definition parseInt (s : string) : option Z :=
  let s := trim_start s in
  let '(sign, s) :=
    match s with
    | String "-" r => (-1, r)
    | String "+" r => (1, r)
    | _ => (1, s)
    end in
  let '(radix, s) :=
    match s with
    | String "0" (String "x" r) => (16, r)
    | String "0" (String "X" r) => (16, r)
    | _ => (10, s)
    end in
  match s with
  | String c _ =>
      match digit_value radix c with
      | Some _ => Some (sign * digits_value radix 0 s)
      | None => None
      end
  | EmptyString => None
  end.

(** *** State *)

(** One element of the [bot_visits] array. *)
Record BotVisit : Set := mkVisit {
  visit_timestamp : Z;
  visit_userAgent : string;
  visit_reason : string;
  visit_fingerprint : string
}.

(** The page of the blacklist system, with the other storage keys that
    the bot trap, the form handler and the redirect use, and the flag of
    the [verification] object that the form handler reads. *)
Record Page : Type := mkPage {
  world : World;
  bot_visits : item (list BotVisit);     (* localStorage['bot_visits'] *)
  secureToken : option string;           (* localStorage['secureToken'] *)
  tokenTimestamp : option string;        (* localStorage['tokenTimestamp'] *)
  sessionStorage_throws : bool;
  redirectIdentifier : option string;    (* sessionStorage['redirectIdentifier'] *)
  environmentVerified : bool             (* verification.environmentVerified *)
}.

Definition P (A : Type) : Type := Page -> outcome A * Page.

Definition pret {A} (a : A) : P A := fun p => (Returns a, p).

Definition pbind {A B} (c : P A) (k : A -> P B) : P B :=
  fun p =>
    match c p with
    | (Returns a, p') => k a p'
    | (Throws e, p') => (Throws e, p')
    end.

Definition ptry {A} (body : P A) (handler : exn -> P A) : P A :=
  fun p =>
    match body p with
    | (Returns a, p') => (Returns a, p')
    | (Throws e, p') => handler e p'
    end.

Declare Scope page_scope.
Delimit Scope page_scope with page.
Notation "'do' x <- c ; k" := (pbind c (fun x => k))
  (at level 10, x name, c at level 100, k at level 200) : page_scope.
Notation "c ;; k" := (pbind c (fun _ => k))
  (at level 100, k at level 200, right associativity) : page_scope.
Local Open Scope page_scope.

Definition with_world (p : Page) (w : World) : Page :=
  mkPage w (bot_visits p) (secureToken p) (tokenTimestamp p)
         (sessionStorage_throws p) (redirectIdentifier p) (environmentVerified p).

(** Code of the blacklist system, run in the page. *)
Definition lift {A} (c : M A) : P A :=
  fun p =>
    match c (world p) with
    | (o, w') => (o, with_world p w')
    end.

Definition page_of {A} (r : outcome A * Page) : Page := snd r.
Definition shown_of {A} (r : outcome A * Page) : outcome A := fst r.

(** *** localStorage and sessionStorage *)

(** [JSON.parse(localStorage.getItem('bot_visits') || '[]')]. *)
Definition parse_bot_visits : P (list BotVisit) :=
  fun p =>
    if getItem_throws (localStorage (world p)) then (Throws DOMException, p)
    else match bot_visits p with
         | NoItem => (Returns [], p)
         | BadText => (Throws SyntaxError, p)
         | Text l => (Returns l, p)
         end.

(** [localStorage.setItem('bot_visits', JSON.stringify(l))]. *)
Definition store_bot_visits (l : list BotVisit) : P unit :=
  fun p =>
    if setItem_throws (localStorage (world p)) then (Throws DOMException, p)
    else (Returns tt,
          mkPage (world p) (Text l) (secureToken p) (tokenTimestamp p)
                 (sessionStorage_throws p) (redirectIdentifier p)
                 (environmentVerified p)).

Definition getItem_secureToken : P (option string) :=
  fun p =>
    if getItem_throws (localStorage (world p)) then (Throws DOMException, p)
    else (Returns (secureToken p), p).

Definition getItem_tokenTimestamp : P (option string) :=
  fun p =>
    if getItem_throws (localStorage (world p)) then (Throws DOMException, p)
    else (Returns (tokenTimestamp p), p).

Definition setItem_secureToken (v : string) : P unit :=
  fun p =>
    if setItem_throws (localStorage (world p)) then (Throws DOMException, p)
    else (Returns tt,
          mkPage (world p) (bot_visits p) (Some v) (tokenTimestamp p)
                 (sessionStorage_throws p) (redirectIdentifier p)
                 (environmentVerified p)).

Definition setItem_tokenTimestamp (v : string) : P unit :=
  fun p =>
    if setItem_throws (localStorage (world p)) then (Throws DOMException, p)
    else (Returns tt,
          mkPage (world p) (bot_visits p) (secureToken p) (Some v)
                 (sessionStorage_throws p) (redirectIdentifier p)
                 (environmentVerified p)).

Definition sessionStorage_getItem : P (option string) :=
  fun p =>
    if sessionStorage_throws p then (Throws DOMException, p)
    else (Returns (redirectIdentifier p), p).

Definition with_redirectIdentifier (p : Page) (v : option string) : Page :=
  mkPage (world p) (bot_visits p) (secureToken p) (tokenTimestamp p)
         (sessionStorage_throws p) v (environmentVerified p).

Definition sessionStorage_setItem (v : string) : P unit :=
  fun p =>
    if sessionStorage_throws p then (Throws DOMException, p)
    else (Returns tt, with_redirectIdentifier p (Some v)).

Definition sessionStorage_removeItem : P unit :=
  fun p =>
    if sessionStorage_throws p then (Throws DOMException, p)
    else (Returns tt, with_redirectIdentifier p None).

Definition get_environmentVerified : P bool :=
  fun p => (Returns (environmentVerified p), p).

(** Truthiness of a string that may be null. *)
Definition truthy (s : option string) : bool :=
  match s with
  | Some s => Fragment.nonempty s
  | None => false
  end.

(** *** botTrapSystem *)

(** [botVisits.splice(0, botVisits.length - 100)] when there are more than
    100 records. *)
Definition keep_last_100 (botVisits : list BotVisit) : list BotVisit :=
  if (100 <? length botVisits)%nat
  then drop (length botVisits - 100) botVisits
  else botVisits.

Definition recordBotVisit (why : string) : P unit :=
  ptry
    (do botVisits <- parse_bot_visits;
     (* Add new record *)
     do now <- lift Date_now;
     do ua <- lift navigator_userAgent;
     do fingerprint <- lift getClientIdentifier;
     let botVisits := botVisits ++ [mkVisit now ua why fingerprint] in
     (* Keep only the last 100 records *)
     let botVisits := keep_last_100 botVisits in
     (* Save back to storage *)
     store_bot_visits botVisits)
    (fun _ => pret tt).

(** What the visitor is shown. *)
Inductive Shown : Set :=
| FieldRequired                       (* 'This field is required.' *)
| ConstructionPage (why : string)     (* one of the construction templates *)
| RedirectSection                     (* the form is about to be submitted *)
| StorageUnavailable.                 (* 'Session storage unavailable.' *)

(** [showConstructionPage(reason)]: the visit is recorded, then the
    document is replaced by a template picked at random. *)
Definition showConstructionPage (why : string) : P Shown :=
  recordBotVisit why;;
  pret (ConstructionPage why).

(** *** handleFormSubmit *)

(** What the handler reads of the form and the browser. The page has the
    elements the handler addresses, and [blacklistSystem] and
    [botTrapSystem] are loaded, as in this repository. *)
Record Submission : Type := mkSubmission {
  recaptchaResponse : string;             (* grecaptcha.getResponse() *)
  honeypotFields : list string;           (* the values of the hidden inputs *)
  interactionData : InteractionData;      (* the tracking data of the page *)
  navigator_webdriver : bool;
  navigator_plugins : option nat;         (* plugins undefined, or its length *)
  navigator_languages : option (list string);  (* an array, or something else *)
  dynamic_token : string;                 (* the value of #dynamic-token *)
  window_localStorage : outcome bool      (* truthiness of the property *)
}.

Definition handleFormSubmit (s : Submission) : P Shown :=
  (* Double-check reCAPTCHA is valid *)
  if (String.length (recaptchaResponse s) <? 1)%nat then pret FieldRequired
  else
  (* Check honeypot fields *)
  let honeypotFilled := existsb Fragment.nonempty (honeypotFields s) in
  if honeypotFilled then
    lift (recordFailedAttempt "honeypot_filled");;
    showConstructionPage "honeypot_triggered"
  else
  (* Analyze interaction data for human-like patterns *)
  do now <- lift Date_now;
  let humanInteractions := analyzeInteractions now (interactionData s) in
  if negb humanInteractions then
    lift (recordFailedAttempt "no_interactions");;
    showConstructionPage "non_human_pattern"
  else
  (* Check for headless browsers and automation *)
  do ua <- lift navigator_userAgent;
  let isHeadless :=
    navigator_webdriver s || Str.includes ua "HeadlessChrome"
    || Str.includes ua "PhantomJS" in
  do hasPlugins <-
    match navigator_plugins s with
    | Some n => pret (0 <? n)%nat
    | None => fun p => (Throws TypeError, p)
    end;
  let hasLanguages :=
    match navigator_languages s with
    | Some l => (0 <? length l)%nat
    | None => false
    end in
  if isHeadless || negb hasPlugins || negb hasLanguages then
    lift (recordFailedAttempt "automation_detected");;
    showConstructionPage "automation_detected"
  else
  (* Environment verification *)
  do verified <- get_environmentVerified;
  if negb verified then
    lift (recordFailedAttempt "environment_verification_failed");;
    showConstructionPage "environment_verification_failed"
  else
  (* Store the secure token in localStorage for redirect verification *)
  let token := dynamic_token s in
  ptry
    (do present <- (fun p => (window_localStorage s, p));
     (if present then
        setItem_secureToken token;;
        (* Also store a timestamp to make the token expire *)
        do now <- lift Date_now;
        setItem_tokenTimestamp (ClientId.show_Z now)
      else pret tt);;
     pret RedirectSection)
    (fun _ =>
       lift (recordFailedAttempt "storage_unavailable");;
       pret StorageUnavailable).

(** *** redirect.js *)

Inductive Redirect : Set :=
| ShowRedirectError (message : string)
| Navigate (href : string).              (* window.location.href = ... *)

(** [redirectToProtectedContent(token)] on a page whose location has the
    fragment [hash]; [baseUrl] is the destination before the fragment is
    appended: what [assembleRedirectUrl()] returns, or the fallback
    address when [_u] is not defined. [fragmentHandler] is loaded. *)
Definition redirectToProtectedContent (baseUrl hash token : string) : P Redirect :=
  (* Validate the token against localStorage *)
  do storedToken <- getItem_secureToken;
  do storedTimestamp <- getItem_tokenTimestamp;
  let tokenTimestamp :=
    parseInt (match storedTimestamp with
              | Some t => if Fragment.nonempty t then t else "0"
              | None => "0"
              end) in
  (* Invalid or missing token *)
  if negb (truthy storedToken)
     || negb (bool_decide (storedToken = Some token)) then
    pret (ShowRedirectError "Invalid security token. Please try again.")
  else
  (* Expired token (10 minute validity) *)
  do now <- lift Date_now;
  let expired :=
    match tokenTimestamp with
    | Some t => 600000 <? now - t
    | None => false                       (* NaN > 600000 *)
    end in
  if expired then
    pret (ShowRedirectError "Security token expired. Please try again.")
  else
  (* Append any URL fragment *)
  let destinationUrl := Fragment.appendFragmentToUrl hash baseUrl in
  (* Store the identifier in sessionStorage for the next page *)
  match Fragment.extractIdentifier hash with
  | Some identifier =>
      if Fragment.nonempty identifier then
        ptry (sessionStorage_setItem identifier) (fun _ => pret tt)
      else pret tt
  | None => pret tt
  end;;
  (* Perform the actual redirect *)
  pret (Navigate destinationUrl).

(** [restoreFragmentIfNeeded()] on a page at [href] with fragment [hash]:
    the address passed to [history.replaceState], if any. *)
Definition restoreFragmentIfNeeded (href hash : string) : P (option string) :=
  ptry
    (do storedIdentifier <- sessionStorage_getItem;
     if truthy storedIdentifier && negb (Fragment.nonempty hash) then
       let newUrl :=
         String.append href
           (String.append "#" (match storedIdentifier with
                               | Some i => i
                               | None => EmptyString
                               end)) in
       (* Clean up *)
       sessionStorage_removeItem;;
       pret (Some newUrl)
     else pret None)
    (fun _ => pret None).

(** *** Vocabulary for the statements *)

(** The same page at a later reading of the clock. *)
Definition at_time (p : Page) (now : Z) : Page :=
  with_world p (with_clock (world p) now (ticks (world p))).

(** The whole numbers that JavaScript holds exactly and prints in full:
    [Number.isSafeInteger]. *)
Definition safe_integer (z : Z) : Prop := - 2 ^ 53 < z < 2 ^ 53.

(** The attempts counted for the client of the page. *)
Definition attempts (p : Page) : Z :=
  match failedAttempts (world p) !! clientIdentifier (world p) with
  | Some r => count r
  | None => 0
  end.

(** The attempts of the client after one more failed attempt: one more,
    or none when the threshold is reached and the record is deleted. *)
Definition bump (n : Z) : Z := if n + 1 <? maxFailedAttempts then n + 1 else 0.

(** The signs of automation that [handleFormSubmit] looks for. Undefined
    plugins count as a sign here; the handler throws on them instead of
    deciding. *)
Definition automation_signs (ua : string) (s : Submission) : bool :=
  navigator_webdriver s || Str.includes ua "HeadlessChrome"
  || Str.includes ua "PhantomJS"
  || match navigator_plugins s with Some n => (n =? 0)%nat | None => true end
  || match navigator_languages s with Some l => (length l =? 0)%nat | None => true end.

(** What [redirectToProtectedContent] decides on a page whose storage
    can be read. *)
Definition redirect_decision (baseUrl hash token : string) (p : Page) : Redirect :=
  if negb (truthy (secureToken p)) || negb (bool_decide (secureToken p = Some token))
  then ShowRedirectError "Invalid security token. Please try again."
  else if match parseInt (match tokenTimestamp p with
                          | Some t => if Fragment.nonempty t then t else "0"
                          | None => "0"
                          end) with
          | Some t => 600000 <? clock (world p) - t
          | None => false
          end
       then ShowRedirectError "Security token expired. Please try again."
       else Navigate (Fragment.appendFragmentToUrl hash baseUrl).

End Page.

(** ** Font detection *)

Module Fonts.

(** List of fonts to test. *)
Definition fontList : list string :=
  [ "Arial"; "Arial Black"; "Arial Narrow"; "Calibri"; "Cambria";
    "Cambria Math"; "Comic Sans MS"; "Consolas"; "Courier"; "Courier New";
    "Georgia"; "Helvetica"; "Impact"; "Lucida Console"; "Lucida Sans Unicode";
    "Microsoft Sans Serif"; "Palatino Linotype"; "Tahoma"; "Times";
    "Times New Roman"; "Trebuchet MS"; "Verdana"; "Webdings" ]%string.

(** Baseline fonts that should exist on any system. *)
Definition baseFonts : list string := [ "monospace"; "sans-serif"; "serif" ]%string.

Section Measure.

(** [offsetWidth] and [offsetHeight] of the test element once it is in
    the document, as a function of its font family: a baseline alone, or
    a font of the list followed by a baseline. The layout of the page is
    the same at every measurement. *)
Variable offsetSize : option string -> string -> Z * Z.

(** The inner loop: [detected] after the baselines [bases]. *)
Fixpoint compareBaselines (font : string) (bases : list string) : bool :=
  match bases with
  | [] => true
  | baseFont :: rest =>
      (* First check with base font *)
      let '(baseWidth, baseHeight) := offsetSize None baseFont in
      (* Then check with test font, falling back to base font *)
      let '(testWidth, testHeight) := offsetSize (Some font) baseFont in
      (* If metrics are the same, font isn't installed *)
      if (baseWidth =? testWidth) && (baseHeight =? testHeight) then false
      else compareBaselines font rest
  end.

(** The outer loop, threading [detectedFonts]. *)
Fixpoint checkFonts (fonts : list string) (detectedFonts : list string) : list string :=
  match fonts with
  | [] => detectedFonts
  | font :: rest =>
      let detected := compareBaselines font baseFonts in
      checkFonts rest (if detected then detectedFonts ++ [font] else detectedFonts)
  end.

Definition detectFonts : list string := checkFonts fontList [].

(** *** Vocabulary for the statements *)

(** Naming [font] before [baseFont] changes the measure of the text. *)
Definition changes_measure (font baseFont : string) : Prop :=
  offsetSize (Some font) baseFont <> offsetSize None baseFont.

End Measure.

End Fonts.

(** ** Concrete browsers, stores and recordings *)

Module Scenarios.
Import Store Interaction Fingerprint.

Definition plain_id : string := "TW96aWxsYS81LjAgKFgxMTsgTGludXgg".
Definition curl_id : string := "Y3VybC84LjUuMHxlbi1VU3wxOTIweDEw".
Definition crawler_id : string := "TW96aWxsYS81LjAgKGNvbXBhdGlibGU7".

Definition empty_storage : Storage := mkStorage false false NoItem NoItem.

(** A browser whose clock moves by one millisecond between reads. *)
Definition ticking_world : World :=
  mkWorld 1000 [1; 1; 1; 1; 1; 1; 1; 1] "Mozilla/5.0 (X11; Linux x86_64)" plain_id
          empty_storage ∅ [] false.

(** A browser whose storage refuses every access; the clock stands still. *)
Definition storeless_world : World :=
  mkWorld 1000 [] "Mozilla/5.0 (X11; Linux x86_64)" plain_id
          (mkStorage true true NoItem NoItem) ∅ [] false.

(** A browser whose persisted blacklist is not JSON. *)
Definition corrupt_world : World :=
  mkWorld 5000 [] "Mozilla/5.0 (X11; Linux x86_64)" plain_id
          (mkStorage false false BadText NoItem) ∅ ["stale"%string] false.

(** Two attempts recorded and saved by one page, then a new page load. *)
Definition second_page : World :=
  world_of (pageLoad (world_of (repeatFailedAttempt 2 "honeypot_filled" ticking_world))).

(** A store holding the entry of a client blacklisted at time 1000. *)
Definition listed_entry : BlacklistEntry :=
  mkEntry 1000 86401000 [mkReason "honeypot_filled" 1000].

Definition listed_storage (id : string) : Storage :=
  mkStorage false false (Text {[ id := listed_entry ]}) NoItem.

(** The entry expires at the very reading of the clock. *)
Definition boundary_world : World :=
  mkWorld 86401000 [] "Mozilla/5.0 (X11; Linux x86_64)" plain_id
          (listed_storage plain_id) ∅ [] false.

(** A blacklisted visitor with a plain browser user agent, and one that
    identifies itself as curl. *)
Definition listed_browser_world : World :=
  mkWorld 5000 [] "Mozilla/5.0 (X11; Linux x86_64)" plain_id
          (listed_storage plain_id) ∅ [] false.

Definition listed_curl_world : World :=
  mkWorld 5000 [] "curl/8.5.0" curl_id (listed_storage curl_id) ∅ [] false.

(** curl with the user agent 'curl/8.5.0 ✓': the check mark is U+2713,
    above U+00FF (an 8-bit string shows it as a question mark), and
    [btoa] rejects the text of the identifier. *)
Definition wide_curl_world : World :=
  mkWorld 1000 [] "curl/8.5.0 ?" curl_id empty_storage ∅ [] true.

(** A crawler whose user agent also names a security tool. *)
Definition crawler_world : World :=
  mkWorld 1000 [] "Mozilla/5.0 (compatible; GoogleBot/2.1; Avast)" crawler_id
          empty_storage ∅ [] false.

(** Six samples that all share one velocity and one direction. *)
Definition uniform_data : InteractionData :=
  mkInteractionData 7 1 0 0 (repeat (mkSample (3 # 2) (1 # 4)) 6)
                    (Some (mkPosition 10 10 900)) 0.

(** Six samples of which only the first two agree, in velocity and in
    direction. *)
Definition one_repeat_data : InteractionData :=
  mkInteractionData 7 1 0 0
    [ mkSample (3 # 2) (1 # 4); mkSample (3 # 2) (1 # 4); mkSample (2 # 1) (1 # 3);
      mkSample (5 # 2) (1 # 2); mkSample (3 # 1) (2 # 3); mkSample (7 # 2) (3 # 4) ]
    (Some (mkPosition 10 10 900)) 0.

(** Seven samples with two single repeats: the second repeats the
    velocity of the first, the fourth the direction of the third. *)
Definition two_repeats_data : InteractionData :=
  mkInteractionData 8 1 0 0
    [ mkSample (3 # 2) (1 # 4); mkSample (3 # 2) (1 # 3); mkSample (2 # 1) (1 # 2);
      mkSample (5 # 2) (1 # 2); mkSample (3 # 1) (2 # 3); mkSample (7 # 2) (3 # 4);
      mkSample (4 # 1) (1 # 1) ]
    (Some (mkPosition 10 10 900)) 0.

(** A headless browser: no canvas, no WebGL, no battery API, no plugins,
    no languages. *)
Definition headless_window : Window :=
  mkWindow "Mozilla/5.0 (X11; Linux x86_64) HeadlessChrome/120.0"
    (Some []) (Some 0%nat) false false (Some (1 # 1))
    (Returns true) (Returns true) (Returns true) (Returns "UTC"%string)
    (Returns "{}"%string) (Returns "{}"%string)
    (Throws TypeError) (Returns [])
    (Throws TypeError) (Returns None) []
    (Returns "{}"%string)
    (Returns false) (Returns false) (Returns None) (Returns None)
    (Returns false) (Returns "00"%string)
    (Returns "TW96aWxsYS81LjAgKFgxMTsgTGludXggeDg2XzY0KSBIZWFkbGVzc0Nocm9tZS8xMjAuMCMjI2VuLVVTIyMjMjQjIyMxOTIweDEwODAjIyMwIyMjdHJ1ZSMjI3RydWUjIyN0cnVl"%string).

(** A desktop browser with storage refused: reading [window.localStorage]
    throws. *)
Definition storage_refused_window : Window :=
  mkWindow "Mozilla/5.0 (X11; Linux x86_64) Chrome/120.0"
    (Some ["en-US"%string]) (Some 3%nat) true false (Some (3 # 2))
    (Throws DOMException) (Throws DOMException) (Throws DOMException)
    (Returns "UTC"%string)
    (Returns "{}"%string) (Returns "{}"%string)
    (Returns "5f2a"%string) (Returns ["Arial"%string; "Verdana"%string])
    (Returns None) (Returns None) []
    (Returns "{}"%string)
    (Returns true) (Returns true) (Returns (Some "Intel"%string))
    (Returns (Some "Mesa"%string))
    (Returns false) (Returns "00"%string)
    (Returns "TW96aWxsYS81LjAgKFgxMTsgTGludXggeDg2XzY0KSBDaHJvbWUvMTIwLjAjIyNlbi1VUyMjIzI0IyMjMTkyMHgxMDgwIyMjMCMjI3RydWUjIyN0cnVlIyMjdHJ1ZQ=="%string).

(** A desktop browser with a fractional pixel ratio, and two sets of
    collected components: one trips four full-weight conditions
    (fonts, canvas, WebGL, and the plugins of [bare_window]), the other
    three. *)
Definition bare_window (plugins : nat) : Window :=
  mkWindow "Mozilla/5.0 (X11; Linux x86_64) Chrome/120.0"
    (Some ["en-US"%string]) (Some plugins) true false (Some (3 # 2))
    (Returns true) (Returns true) (Returns true) (Returns "UTC"%string)
    (Returns "{}"%string) (Returns "{}"%string)
    (Throws TypeError) (Returns [])
    (Returns None) (Returns None) []
    (Returns "{}"%string)
    (Returns false) (Returns false) (Returns None) (Returns None)
    (Returns false) (Returns "00"%string)
    (Returns "TW96aWxsYS81LjAgKFgxMTsgTGludXggeDg2XzY0KSBDaHJvbWUvMTIwLjAjIyNlbi1VUyMjIzI0IyMjMTkyMHgxMDgwIyMjMCMjI3RydWUjIyN0cnVlIyMjdHJ1ZQ=="%string).

(** A user agent that names both Chrome and Firefox, in a browser with
    neither [window.chrome] nor [InstallTrigger]; no canvas, no fonts,
    WebGL works. *)
Definition spoofed_window : Window :=
  mkWindow "Mozilla/5.0 (X11; Linux x86_64) Chrome/120.0 Firefox/120.0"
    (Some ["en-US"%string]) (Some 3%nat) false false (Some (3 # 2))
    (Returns true) (Returns true) (Returns true) (Returns "UTC"%string)
    (Returns "{}"%string) (Returns "{}"%string)
    (Throws TypeError) (Returns [])
    (Returns None) (Returns None) []
    (Returns "{}"%string)
    (Returns true) (Returns true) (Returns (Some "Intel"%string))
    (Returns (Some "Mesa"%string))
    (Returns false) (Returns "00"%string)
    (Returns "TW96aWxsYS81LjAgKFgxMTsgTGludXggeDg2XzY0KSBDaHJvbWUvMTIwLjAgRmlyZWZveC8xMjAuMCMjI2VuLVVTIyMjMjQjIyMxOTIweDEwODAjIyMwIyMjdHJ1ZSMjI3RydWUjIyN0cnVl"%string).

Definition spoofed_components : Components :=
  mkComponents "Mozilla/5.0 (X11; Linux x86_64) Chrome/120.0 Firefox/120.0"
    (Some ["en-US"%string]) (3 # 2) "UTC" true true true false "{}" "{}"
    (Some "Intel"%string) (Some "Mesa"%string) "canvas_not_supported" [] None None [] "{}".

Definition bare_components : Components :=
  mkComponents "Mozilla/5.0 (X11; Linux x86_64) Chrome/120.0" (Some ["en-US"%string])
    (3 # 2) "UTC" true true true false "{}" "{}" None None
    "canvas_not_supported" [] None None [] "{}".

(** A page that has recorded one attempt of its client. *)
Definition one_attempt_world : World :=
  mkWorld 2000 [1; 1; 1; 1] "Mozilla/5.0 (X11; Linux x86_64)" plain_id
          empty_storage
          {[ plain_id := mkAttempt 1 [mkReason "honeypot_filled" 1000] 1000 ]} [] false.

(** The same page over a store that lists another client, whose record
    also sits in the in-memory map. *)
Definition two_clients_world : World :=
  mkWorld 2000 [1; 1; 1; 1] "Mozilla/5.0 (X11; Linux x86_64)" plain_id
          (listed_storage curl_id)
          {[ plain_id := mkAttempt 2 [mkReason "honeypot_filled" 1000;
                                      mkReason "no_interactions" 1500] 1000;
             curl_id := mkAttempt 1 [mkReason "known_bot_useragent" 900] 900 ]} [] false.

(** Two Linux browsers that differ in everything but the first 24
    characters of the user agent; the first has no canvas. *)
Definition linux_browser : ClientId.Browser :=
  ClientId.mkBrowser (ClientId.units "Mozilla/5.0 (X11; Linux x86_64)")
    (ClientId.units "en-US") 1920 1080 (Some 8)
    (Some ClientId.GiB_8) (ClientId.units "Linux x86_64") [] (Throws TypeError).

Definition linux_laptop : ClientId.Browser :=
  ClientId.mkBrowser (ClientId.units "Mozilla/5.0 (X11; Linux aarch64) Firefox/120.0")
    (ClientId.units "de-DE") 1366 768
    (Some 4) None (ClientId.units "Linux aarch64") []
    (Returns "data:image/png;base64,iVBORw0KGgo="%string).

(** curl with the user agent 'curl/8.5.0 ✓': the check mark is the code
    unit 0x2713. *)
Definition wide_curl_browser : ClientId.Browser :=
  ClientId.mkBrowser (ClientId.units "curl/8.5.0 " ++ [10003%N])
    (ClientId.units "en-US") 1920 1080 None None (ClientId.units "Linux x86_64") []
    (Throws TypeError).

(** A desktop browser on an ordinary monitor (pixel ratio 1) with
    plugins, languages and storage, in which canvas readout throws, font
    detection finds nothing and WebGL gives no context. *)
Definition hardened_window : Window :=
  mkWindow "Mozilla/5.0 (X11; Linux x86_64) Gecko/20100101"
    (Some ["en-US"%string]) (Some 3%nat) false false (Some (1 # 1))
    (Returns true) (Returns true) (Returns true) (Returns "UTC"%string)
    (Returns "{}"%string) (Returns "{}"%string)
    (Throws DOMException) (Returns [])
    (Returns None) (Returns None) []
    (Returns "{}"%string)
    (Returns false) (Returns false) (Returns None) (Returns None)
    (Returns false) (Returns "00"%string)
    (Returns "TW96aWxsYS81LjAgKFgxMTsgTGludXggeDg2XzY0KSBHZWNrby8yMDEwMDEwMSMjI2VuLVVTIyMjMjQjIyMxOTIweDEwODAjIyMwIyMjdHJ1ZSMjI3RydWUjIyN0cnVl"%string).

(** A page served without a secure context, so that the digest is not
    available, to a browser whose user agent holds a character above
    U+00FF (shown as a question mark): [btoa] rejects the text of the
    fallback. *)
Definition wide_fallback_window : Window :=
  mkWindow "Mozilla/5.0 (X11; Linux x86_64) Gecko/20100101 ?"
    (Some ["en-US"%string]) (Some 3%nat) false false (Some (1 # 1))
    (Returns true) (Returns true) (Returns true) (Returns "UTC"%string)
    (Returns "{}"%string) (Returns "{}"%string)
    (Returns "5f2a"%string) (Returns ["Arial"%string; "Verdana"%string])
    (Returns None) (Returns None) []
    (Returns "{}"%string)
    (Returns false) (Returns false) (Returns None) (Returns None)
    (Returns false) (Throws TypeError) (Throws InvalidCharacterError).

(** Stand-ins for the two floating-point functions of
    [trackMouseMovement]: the statements hold for any two functions. *)
Definition sample_velocity (dx dy dt : Z) : Q := (dx * dx + dy * dy) # Z.to_pos dt.
Definition sample_angle (dy dx : Z) : Q := dy # Z.to_pos (Z.abs dx + 1).

(** What [initializeInteractionTracking] returns at time 1000. *)
Definition fresh_data : InteractionData := mkInteractionData 0 0 0 0 [] None 1000.

(** A page whose store holds 100 recorded visits. *)
Definition old_visit (n : nat) : Page.BotVisit :=
  Page.mkVisit (Z.of_nat n) "curl/8.5.0" "known_bot" curl_id.

Definition full_log_page : Page.Page :=
  Page.mkPage ticking_world (Text (List.map old_visit (seq 0 100))) None None false None true.

(** The page of curl with a check mark in its user agent: no identifier
    can be computed. *)
Definition wide_page : Page.Page :=
  Page.mkPage wide_curl_world NoItem None None false None true.

(** A page with an empty store whose environment has been verified. *)
Definition verified_page : Page.Page :=
  Page.mkPage ticking_world NoItem None None false None true.

(** The tracking data of a visitor who typed and moved the mouse a
    little. *)
Definition human_data : InteractionData :=
  mkInteractionData 4 1 6 0 [] (Some (mkPosition 10 10 900)) 500.

(** A submission that passes every check. *)
Definition good_submission : Page.Submission :=
  Page.mkSubmission "03AGdBq25" [EmptyString; EmptyString] human_data false (Some 3%nat)
    (Some ["en-US"%string]) "dG9rZW4=" (Returns true).

(** A page whose stored timestamp is not a number. *)
Definition tampered_page : Page.Page :=
  Page.mkPage ticking_world NoItem (Some "dG9rZW4="%string) (Some "never"%string)
         false None true.

(** A submission with a honeypot field filled in. *)
Definition trapped_submission : Page.Submission :=
  Page.mkSubmission "03AGdBq25" [EmptyString; "http://example.com"%string] human_data false
    (Some 3%nat) (Some ["en-US"%string]) "dG9rZW4=" (Returns true).

(** A browser in which only Arial, Georgia and Verdana change the
    measure of the text, and Courier New is the monospace font. *)
Definition three_fonts_measure (font : option string) (baseFont : string) : Z * Z :=
  match font with
  | Some f =>
      if String.eqb f "Arial" then (520, 83)
      else if String.eqb f "Georgia" then (540, 82)
      else if String.eqb f "Verdana" then (600, 88)
      else if String.eqb f "Courier New" && negb (String.eqb baseFont "monospace")
      then (560, 81)
      else if String.eqb baseFont "monospace" then (560, 81)
      else if String.eqb baseFont "serif" then (530, 80)
      else (510, 84)
  | None =>
      if String.eqb baseFont "monospace" then (560, 81)
      else if String.eqb baseFont "serif" then (530, 80)
      else (510, 84)
  end.

End Scenarios.

(** * Properties *)

(** ** Strings *)

Module StrFacts.
Import Str.

Lemma append_nil (b : string) : String.append EmptyString b = b.
Proof. reflexivity. Qed.

Lemma append_cons c (a b : string) :
  String.append (String c a) b = String c (String.append a b).
Proof. reflexivity. Qed.

Lemma toLowerCase_app (a b : string) :
  toLowerCase (String.append a b) = String.append (toLowerCase a) (toLowerCase b).
Proof.
  induction a as [|c a IH]; [reflexivity|].
  rewrite append_cons. cbn [toLowerCase]. rewrite append_cons. by rewrite IH.
Qed.

Lemma startsWith_app (t post : string) : startsWith (String.append t post) t = true.
Proof.
  induction t as [|c t IH]; [reflexivity|].
  rewrite append_cons. cbn [startsWith]. rewrite Ascii.eqb_refl. exact IH.
Qed.

Lemma includes_cons c (s t : string) :
  includes s t = true -> includes (String c s) t = true.
Proof. intros H. cbn [includes]. rewrite H. apply orb_true_r. Qed.

Lemma includes_app (pre t post : string) :
  includes (String.append pre (String.append t post)) t = true.
Proof.
  induction pre as [|c pre IH].
  - rewrite append_nil.
    assert (H : startsWith (String.append t post) t = true) by apply startsWith_app.
    destruct (String.append t post); cbn [includes]; by rewrite H.
  - rewrite append_cons. by apply includes_cons.
Qed.

(** Matching on the lower-cased text is matching up to case. *)
Lemma includes_ignoring_case (s t : string) :
  toLowerCase t = t ->
  occurs_ignoring_case t s ->
  includes (toLowerCase s) t = true.
Proof.
  intros Ht (pre & mid & post & -> & Hmid).
  rewrite !toLowerCase_app, Hmid, Ht. apply includes_app.
Qed.

Lemma existsb_includes (s t : string) (l : list string) :
  In t l -> includes s t = true -> existsb (includes s) l = true.
Proof. intros Hin Hs. apply existsb_exists. eauto. Qed.

End StrFacts.

(** ** The blacklist store *)

Module StoreFacts.
Import Store StrFacts.

Lemma runs_ret {A} (a : A) w : runs (ret a) w (Returns a) w.
Proof. reflexivity. Qed.

Lemma runs_bind {A B} (c : M A) (k : A -> M B) w a w1 o w2 :
  runs c w (Returns a) w1 -> runs (k a) w1 o w2 -> runs (bind c k) w o w2.
Proof. unfold runs, bind. intros -> ->. reflexivity. Qed.

Lemma runs_bind_throws {A B} (c : M A) (k : A -> M B) w e w1 :
  runs c w (Throws e) w1 -> runs (bind c k) w (Throws e) w1.
Proof. unfold runs, bind. intros ->. reflexivity. Qed.

Lemma runs_try {A} (c : M A) h w a w1 :
  runs c w (Returns a) w1 -> runs (try_catch c h) w (Returns a) w1.
Proof. unfold runs, try_catch. intros ->. reflexivity. Qed.

Lemma runs_catch {A} (c : M A) h w e w1 o w2 :
  runs c w (Throws e) w1 -> runs (h e) w1 o w2 -> runs (try_catch c h) w o w2.
Proof. unfold runs, try_catch. intros -> ->. reflexivity. Qed.

Lemma runs_Date_now w : runs Date_now w (Returns (clock w)) (tick w).
Proof. reflexivity. Qed.

Lemma runs_failedAttempts_at id w r :
  failedAttempts w !! id = Some r -> runs (failedAttempts_at id) w (Returns r) w.
Proof.
  intros H. unfold failedAttempts_at.
  eapply runs_bind; [reflexivity|]. rewrite H. reflexivity.
Qed.

Lemma runs_update_failedAttempts_at id f w r :
  failedAttempts w !! id = Some r ->
  runs (update_failedAttempts_at id f) w (Returns tt)
       (with_failedAttempts w (<[id := f r]> (failedAttempts w))).
Proof.
  intros H. unfold update_failedAttempts_at.
  eapply runs_bind; [by apply runs_failedAttempts_at|].
  eapply runs_bind; reflexivity.
Qed.

Lemma runs_parse_captcha_blacklist w bl :
  readable_blacklist (localStorage w) = Some bl ->
  runs parse_captcha_blacklist w (Returns bl) w.
Proof.
  unfold readable_blacklist, runs, parse_captcha_blacklist.
  destruct (getItem_throws _); [discriminate|].
  destruct (captcha_blacklist _); intros [= <-]; reflexivity.
Qed.

Lemma parse_captcha_blacklist_throws w :
  readable_blacklist (localStorage w) = None ->
  exists e, runs parse_captcha_blacklist w (Throws e) w.
Proof.
  unfold readable_blacklist, runs, parse_captcha_blacklist.
  destruct (getItem_throws _); [eauto|].
  destruct (captcha_blacklist _); try discriminate; eauto.
Qed.

Lemma same_browser_refl w : same_browser w w.
Proof. by repeat split. Qed.

Lemma same_browser_trans w1 w2 w3 :
  same_browser w1 w2 -> same_browser w2 w3 -> same_browser w1 w3.
Proof.
  intros (a1 & a2 & a3 & a4 & a5) (b1 & b2 & b3 & b4 & b5).
  repeat split; congruence.
Qed.

(** *** saveFailedAttempts *)

Lemma runs_saveFailedAttempts w : runs saveFailedAttempts w (Returns tt) (saved w).
Proof.
  unfold runs, saveFailedAttempts, saved, try_catch, bind, get_failedAttempts,
    store_captcha_failed_attempts, console_error, ret.
  destruct (setItem_throws (localStorage w)) eqn:E; reflexivity.
Qed.

Lemma saved_failedAttempts w : failedAttempts (saved w) = failedAttempts w.
Proof. unfold saved. by destruct (setItem_throws _). Qed.

Lemma saved_blacklist w :
  captcha_blacklist (localStorage (saved w)) = captcha_blacklist (localStorage w).
Proof. unfold saved. by destruct (setItem_throws _). Qed.

Lemma saved_readable w :
  readable_blacklist (localStorage (saved w)) = readable_blacklist (localStorage w).
Proof. unfold saved. by destruct (setItem_throws _). Qed.

Lemma saved_clock w : clock (saved w) = clock w /\ ticks (saved w) = ticks w.
Proof. unfold saved. by destruct (setItem_throws _). Qed.

Lemma saved_same_browser w : same_browser w (saved w).
Proof.
  unfold saved, same_browser. destruct (setItem_throws _) eqn:E; cbn; by rewrite ?E.
Qed.

Lemma saved_persists w :
  setItem_throws (localStorage w) = false ->
  captcha_failed_attempts (localStorage (saved w)) = Text (failedAttempts w).
Proof. unfold saved. by intros ->. Qed.

(** *** addToBlacklist *)

Lemma runs_addToBlacklist id rs bl w :
  readable_blacklist (localStorage w) = Some bl ->
  setItem_throws (localStorage w) = false ->
  runs (addToBlacklist id rs) w (Returns tt) (listed id rs bl w).
Proof.
  intros Hr Hs. unfold addToBlacklist.
  apply runs_try.
  eapply runs_bind; [by apply runs_parse_captcha_blacklist|].
  eapply runs_bind; [apply runs_Date_now|].
  eapply runs_bind; [apply runs_Date_now|].
  eapply runs_bind.
  - unfold runs, store_captcha_blacklist. cbn. rewrite Hs. reflexivity.
  - reflexivity.
Qed.

(** Whatever the storage does, [addToBlacklist] returns and leaves the
    in-memory attempts and the persisted attempts alone. *)
Lemma addToBlacklist_frame id rs w :
  exists w', runs (addToBlacklist id rs) w (Returns tt) w'
    /\ failedAttempts w' = failedAttempts w
    /\ captcha_failed_attempts (localStorage w') = captcha_failed_attempts (localStorage w)
    /\ same_browser w w'.
Proof.
  destruct (readable_blacklist (localStorage w)) as [bl|] eqn:Hr.
  - destruct (setItem_throws (localStorage w)) eqn:Hs.
    + exists (tick (tick w)). split; [|by repeat split].
      unfold addToBlacklist. eapply runs_catch; [|reflexivity].
      eapply runs_bind; [by apply runs_parse_captcha_blacklist|].
      eapply runs_bind; [apply runs_Date_now|].
      eapply runs_bind; [apply runs_Date_now|].
      apply runs_bind_throws.
      unfold runs, store_captcha_blacklist. cbn. rewrite Hs. reflexivity.
    + exists (listed id rs bl w). split; [by apply runs_addToBlacklist|].
      by repeat split.
  - destruct (parse_captcha_blacklist_throws w Hr) as [e He].
    exists w. split; [|split; [done|split; [done|apply same_browser_refl]]].
    unfold addToBlacklist. eapply runs_catch; [|reflexivity].
    apply runs_bind_throws. exact He.
Qed.

(** Where the store cannot be written the clock has been read twice and
    nothing else has happened. *)
Lemma addToBlacklist_unwritable id rs bl w :
  readable_blacklist (localStorage w) = Some bl ->
  setItem_throws (localStorage w) = true ->
  runs (addToBlacklist id rs) w (Returns tt) (tick (tick w)).
Proof.
  intros Hr Hs. unfold addToBlacklist. eapply runs_catch; [|reflexivity].
  eapply runs_bind; [by apply runs_parse_captcha_blacklist|].
  eapply runs_bind; [apply runs_Date_now|].
  eapply runs_bind; [apply runs_Date_now|].
  apply runs_bind_throws.
  unfold runs, store_captcha_blacklist. cbn. rewrite Hs. reflexivity.
Qed.

(** Without a readable store nothing is written. *)
Lemma addToBlacklist_unreadable id rs w :
  readable_blacklist (localStorage w) = None ->
  runs (addToBlacklist id rs) w (Returns tt) w.
Proof.
  intros Hr. destruct (parse_captcha_blacklist_throws w Hr) as [e He].
  unfold addToBlacklist. eapply runs_catch; [|reflexivity].
  apply runs_bind_throws. exact He.
Qed.

(** Without a store that can be read and written no entry is made: the
    storage and the runtime list are what they were. *)
Lemma addToBlacklist_no_entry id rs w :
  readable_blacklist (localStorage w) = None \/ setItem_throws (localStorage w) = true ->
  exists w', runs (addToBlacklist id rs) w (Returns tt) w'
    /\ localStorage w' = localStorage w
    /\ blacklistedIPs w' = blacklistedIPs w.
Proof.
  intros H. destruct (readable_blacklist (localStorage w)) as [bl|] eqn:Hr.
  - destruct H as [H|H]; [discriminate|].
    exists (tick (tick w)). split; [by eapply addToBlacklist_unwritable|by split].
  - exists w. split; [by apply addToBlacklist_unreadable|by split].
Qed.

(** *** recordFailedAttempt *)

Lemma runs_eq {A} (c : M A) w o w1 w2 :
  runs c w o w1 -> w1 = w2 -> runs c w o w2.
Proof. by intros H <-. Qed.

Lemma runs_getClientIdentifier w :
  identified w -> runs getClientIdentifier w (Returns (clientIdentifier w)) w.
Proof. unfold identified, runs, getClientIdentifier. by intros ->. Qed.

Lemma getClientIdentifier_throws w :
  wideCharacters w = true ->
  runs getClientIdentifier w (Throws InvalidCharacterError) w.
Proof. unfold runs, getClientIdentifier. by intros ->. Qed.

Ltac run_prim :=
  first
    [ apply runs_getClientIdentifier; eassumption
    | apply runs_Date_now
    | apply runs_saveFailedAttempts
    | eapply runs_failedAttempts_at; cbn; apply lookup_insert_eq
    | eapply runs_update_failedAttempts_at; cbn; apply lookup_insert_eq
    | eapply runs_failedAttempts_at; eassumption
    | eapply runs_update_failedAttempts_at; eassumption
    | reflexivity ].

Ltac run_step := eapply runs_bind; [run_prim | cbv beta].

Lemma world_eq c1 t1 u1 i1 s1 f1 b1 x1 c2 t2 u2 i2 s2 f2 b2 x2 :
  c1 = c2 -> t1 = t2 -> u1 = u2 -> i1 = i2 -> s1 = s2 -> f1 = f2 -> b1 = b2 ->
  x1 = x2 ->
  mkWorld c1 t1 u1 i1 s1 f1 b1 x1 = mkWorld c2 t2 u2 i2 s2 f2 b2 x2.
Proof. by intros -> -> -> -> -> -> -> ->. Qed.

(** Where [btoa] rejects the text of the identifier, the call throws at
    its first statement and nothing has changed. *)
Lemma recordFailedAttempt_wide why w :
  wideCharacters w = true ->
  runs (recordFailedAttempt why) w (Throws InvalidCharacterError) w.
Proof.
  intros Hw. unfold recordFailedAttempt.
  apply runs_bind_throws. by apply getClientIdentifier_throws.
Qed.

(** First attempt of a client: a record with one attempt is created. *)
Lemma recordFailedAttempt_first why w :
  identified w ->
  failedAttempts w !! clientIdentifier w = None ->
  runs (recordFailedAttempt why) w (Returns tt)
    (saved (with_failedAttempts (tick (tick w))
              (<[clientIdentifier w :=
                   noted why (clock (tick w)) (mkAttempt 0 [] (clock w))]>
                 (failedAttempts w)))).
Proof.
  intros Hw H. unfold recordFailedAttempt.
  run_step. run_step. rewrite H.
  eapply runs_bind; [run_step; reflexivity | cbv beta].
  run_step. run_step. run_step. run_step.
  rewrite bool_decide_eq_false_2 by (cbn; unfold maxFailedAttempts; lia).
  run_step.
  eapply runs_eq; [run_prim|].
  f_equal. cbn. apply world_eq; try reflexivity.
  by rewrite !insert_insert_eq.
Qed.

(** A further attempt below the threshold: the record is updated. *)
Lemma recordFailedAttempt_next why w r :
  identified w ->
  failedAttempts w !! clientIdentifier w = Some r ->
  count r + 1 < maxFailedAttempts ->
  runs (recordFailedAttempt why) w (Returns tt)
    (saved (with_failedAttempts (tick w)
              (<[clientIdentifier w := noted why (clock w) r]> (failedAttempts w)))).
Proof.
  intros Hw H Hc. unfold recordFailedAttempt.
  run_step. run_step. rewrite H.
  run_step. run_step. run_step. run_step. run_step.
  rewrite bool_decide_eq_false_2 by (cbn; lia).
  run_step.
  eapply runs_eq; [run_prim|].
  f_equal. cbn. apply world_eq; try reflexivity.
  by rewrite !insert_insert_eq.
Qed.

(** The attempt that reaches the threshold: [addToBlacklist] runs on the
    completed record, which is then deleted. *)
Lemma recordFailedAttempt_escalates why w r w2 :
  identified w ->
  failedAttempts w !! clientIdentifier w = Some r ->
  count r + 1 >= maxFailedAttempts ->
  runs (addToBlacklist (clientIdentifier w) (reasons (noted why (clock w) r)))
       (with_failedAttempts (tick w)
          (<[clientIdentifier w := noted why (clock w) r]> (failedAttempts w)))
       (Returns tt) w2 ->
  runs (recordFailedAttempt why) w (Returns tt)
    (saved (with_failedAttempts w2 (delete (clientIdentifier w) (failedAttempts w2)))).
Proof.
  intros Hw H Hc Hadd. unfold recordFailedAttempt.
  run_step. run_step. rewrite H.
  run_step. run_step. run_step. run_step. run_step.
  rewrite bool_decide_eq_true_2 by (cbn; lia).
  eapply runs_bind.
  - eapply runs_bind.
    + eapply runs_eq; [|reflexivity].
      cbn. cbn in Hadd. rewrite insert_insert_eq. exact Hadd.
    + cbv beta. run_step. reflexivity.
  - cbv beta. run_prim.
Qed.

(** *** isClientBlacklisted *)

Lemma isClientBlacklisted_unreadable id w :
  readable_blacklist (localStorage w) = None ->
  runs (isClientBlacklisted id) w (Returns false) w.
Proof.
  intros Hr. destruct (parse_captcha_blacklist_throws w Hr) as [e He].
  unfold isClientBlacklisted. eapply runs_catch; [|reflexivity].
  apply runs_bind_throws. exact He.
Qed.

Lemma isClientBlacklisted_absent id w bl :
  readable_blacklist (localStorage w) = Some bl ->
  bl !! id = None ->
  runs (isClientBlacklisted id) w (Returns false) w.
Proof.
  intros Hr Hid. unfold isClientBlacklisted. apply runs_try.
  eapply runs_bind; [by apply runs_parse_captcha_blacklist|cbv beta].
  rewrite Hid. reflexivity.
Qed.

Lemma isClientBlacklisted_entry id w bl e :
  readable_blacklist (localStorage w) = Some bl ->
  bl !! id = Some e ->
  runs (isClientBlacklisted id) w (Returns (bool_decide (expires e > clock w))) (tick w).
Proof.
  intros Hr Hid. unfold isClientBlacklisted. apply runs_try.
  eapply runs_bind; [by apply runs_parse_captcha_blacklist|cbv beta].
  rewrite Hid. run_step. reflexivity.
Qed.

(** [isClientBlacklisted] returns, writes nothing, and at most reads the
    clock. *)
Lemma isClientBlacklisted_frame id w :
  exists b w', runs (isClientBlacklisted id) w (Returns b) w'
    /\ (w' = w \/ w' = tick w).
Proof.
  destruct (readable_blacklist (localStorage w)) as [bl|] eqn:Hr.
  - destruct (bl !! id) as [e|] eqn:Hid.
    + eexists _, _. split; [by eapply isClientBlacklisted_entry|by right].
    + eexists _, _. split; [by eapply isClientBlacklisted_absent|by left].
  - eexists _, _. split; [by eapply isClientBlacklisted_unreadable|by left].
Qed.

(** *** loadBlacklist, cleanupExpiredEntries, init *)

Lemma loadBlacklist_unreadable w :
  readable_blacklist (localStorage w) = None ->
  runs loadBlacklist w (Returns tt) (with_blacklistedIPs w []).
Proof.
  intros Hr. destruct (parse_captcha_blacklist_throws w Hr) as [e He].
  unfold loadBlacklist. eapply runs_catch; [|reflexivity].
  apply runs_bind_throws. exact He.
Qed.

Lemma loadBlacklist_readable w bl :
  readable_blacklist (localStorage w) = Some bl ->
  runs loadBlacklist w (Returns tt) (with_blacklistedIPs w (map_to_list bl).*1).
Proof.
  intros Hr. unfold loadBlacklist. apply runs_try.
  eapply runs_bind; [by apply runs_parse_captcha_blacklist|cbv beta].
  reflexivity.
Qed.

Lemma loadBlacklist_frame w :
  exists l, runs loadBlacklist w (Returns tt) (with_blacklistedIPs w l).
Proof.
  destruct (readable_blacklist (localStorage w)) as [bl|] eqn:Hr.
  - eexists. by apply loadBlacklist_readable.
  - eexists. by apply loadBlacklist_unreadable.
Qed.

Lemma cleanup_unreadable w :
  readable_blacklist (localStorage w) = None ->
  runs cleanupExpiredEntries w (Returns tt) w.
Proof.
  intros Hr. destruct (parse_captcha_blacklist_throws w Hr) as [e He].
  unfold cleanupExpiredEntries. eapply runs_catch; [|reflexivity].
  apply runs_bind_throws. exact He.
Qed.

Lemma cleanup_nothing_due w bl :
  readable_blacklist (localStorage w) = Some bl ->
  map_Forall (fun _ e => ~ (expires e < clock w)) bl ->
  runs cleanupExpiredEntries w (Returns tt) (tick w).
Proof.
  intros Hr Hall. unfold cleanupExpiredEntries. apply runs_try.
  eapply runs_bind; [by apply runs_parse_captcha_blacklist|cbv beta].
  run_step. cbv zeta. rewrite bool_decide_eq_true_2 by done. reflexivity.
Qed.

Lemma cleanup_sweeps w bl :
  readable_blacklist (localStorage w) = Some bl ->
  ~ map_Forall (fun _ e => ~ (expires e < clock w)) bl ->
  setItem_throws (localStorage w) = false ->
  runs cleanupExpiredEntries w (Returns tt) (swept bl w).
Proof.
  intros Hr Hsome Hs. unfold cleanupExpiredEntries. apply runs_try.
  eapply runs_bind; [by apply runs_parse_captcha_blacklist|cbv beta].
  run_step. cbv zeta. rewrite bool_decide_eq_false_2 by done. cbn [negb].
  eapply runs_bind.
  - unfold runs, store_captcha_blacklist. cbn. rewrite Hs. reflexivity.
  - reflexivity.
Qed.

Lemma cleanup_cannot_write w bl :
  readable_blacklist (localStorage w) = Some bl ->
  ~ map_Forall (fun _ e => ~ (expires e < clock w)) bl ->
  setItem_throws (localStorage w) = true ->
  runs cleanupExpiredEntries w (Returns tt) (tick w).
Proof.
  intros Hr Hsome Hs. unfold cleanupExpiredEntries.
  eapply runs_catch; [|reflexivity].
  eapply runs_bind; [by apply runs_parse_captcha_blacklist|cbv beta].
  run_step. cbv zeta. rewrite bool_decide_eq_false_2 by done. cbn [negb].
  apply runs_bind_throws.
  unfold runs, store_captcha_blacklist. cbn. rewrite Hs. reflexivity.
Qed.

(** [cleanupExpiredEntries] returns and does not touch the attempts. *)
Lemma cleanup_frame w :
  exists w', runs cleanupExpiredEntries w (Returns tt) w'
    /\ failedAttempts w' = failedAttempts w
    /\ captcha_failed_attempts (localStorage w')
       = captcha_failed_attempts (localStorage w)
    /\ same_browser w w'.
Proof.
  destruct (readable_blacklist (localStorage w)) as [bl|] eqn:Hr.
  - destruct (decide (map_Forall (fun _ e => ~ (expires e < clock w)) bl)) as [Ha|Ha].
    + exists (tick w). split; [by eapply cleanup_nothing_due|by repeat split].
    + destruct (setItem_throws (localStorage w)) eqn:Hs.
      * exists (tick w). split; [by eapply cleanup_cannot_write|by repeat split].
      * exists (swept bl w). split; [by eapply cleanup_sweeps|].
        by repeat split.
  - exists w. split; [by apply cleanup_unreadable|].
    split; [done|split; [done|apply same_browser_refl]].
Qed.

(** [init] does not load the persisted attempts: after a page load the
    in-memory map is the empty literal. *)
Lemma pageLoad_frame w :
  exists w', runs pageLoad w (Returns tt) w'
    /\ failedAttempts w' = ∅
    /\ captcha_failed_attempts (localStorage w')
       = captcha_failed_attempts (localStorage w)
    /\ same_browser w w'.
Proof.
  destruct (loadBlacklist_frame (freshPage w)) as [l Hl].
  destruct (cleanup_frame (with_blacklistedIPs (freshPage w) l))
    as (w' & Hc & Hfa & Hst & Hsb).
  exists w'. split; [|split; [|split]].
  - unfold runs, pageLoad. change (runs init (freshPage w) (Returns tt) w').
    unfold init. eapply runs_bind; [exact Hl|exact Hc].
  - by rewrite Hfa.
  - by rewrite Hst.
  - exact Hsb.
Qed.

(** *** checkBlacklist *)

(** Every configured signature is written in lower case. *)
Lemma knownBotSignatures_lower sig :
  In sig knownBotSignatures -> Str.toLowerCase sig = sig.
Proof.
  assert (H : forallb (fun s => String.eqb (Str.toLowerCase s) s) knownBotSignatures = true)
    by (vm_compute; reflexivity).
  rewrite forallb_forall in H. intros Hin. apply String.eqb_eq. by apply H.
Qed.

Lemma securityTools_lower tool :
  In tool securityTools -> Str.toLowerCase tool = tool.
Proof.
  assert (H : forallb (fun s => String.eqb (Str.toLowerCase s) s) securityTools = true)
    by (vm_compute; reflexivity).
  rewrite forallb_forall in H. intros Hin. apply String.eqb_eq. by apply H.
Qed.

(** For a client that has an identifier, [recordFailedAttempt] returns
    and changes the record of the client. *)
Lemma recordFailedAttempt_total why w :
  identified w ->
  exists w', runs (recordFailedAttempt why) w (Returns tt) w'
    /\ failedAttempts w' !! clientIdentifier w <> failedAttempts w !! clientIdentifier w
    /\ same_browser w w'.
Proof.
  intros Hw.
  destruct (failedAttempts w !! clientIdentifier w) as [r|] eqn:Hid.
  - destruct (decide (count r + 1 < maxFailedAttempts)) as [Hlt|Hge].
    + eexists. split; [by apply recordFailedAttempt_next|]. split.
      * rewrite saved_failedAttempts. cbn. rewrite lookup_insert_eq.
        intros [= E]. apply (f_equal count) in E. cbn in E. lia.
      * eapply same_browser_trans; [|apply saved_same_browser]. by repeat split.
    + destruct (addToBlacklist_frame (clientIdentifier w)
                  (reasons (noted why (clock w) r))
                  (with_failedAttempts (tick w)
                     (<[clientIdentifier w := noted why (clock w) r]> (failedAttempts w))))
        as (w2 & Hrun & Hfa & _ & Hsb).
      eexists. split; [eapply recordFailedAttempt_escalates; [done|done|lia|exact Hrun]|].
      split.
      * rewrite saved_failedAttempts. cbn. by rewrite lookup_delete_eq.
      * eapply same_browser_trans; [|apply saved_same_browser].
        destruct Hsb as (a1 & a2 & a3 & a4 & a5). by repeat split.
  - eexists. split; [by apply recordFailedAttempt_first|]. split.
    + rewrite saved_failedAttempts. cbn. by rewrite lookup_insert_eq.
    + eapply same_browser_trans; [|apply saved_same_browser]. by repeat split.
Qed.

Lemma checkBlacklist_known_bot w w' :
  matches knownBotSignatures w = true ->
  runs (recordFailedAttempt "known_bot_useragent") w (Returns tt) w' ->
  runs checkBlacklist w (Returns (mkVerdict true (Some "known_bot"%string))) w'.
Proof.
  unfold matches. intros Hm Hrec. unfold checkBlacklist.
  eapply runs_bind; [reflexivity|cbv beta zeta]. rewrite Hm.
  eapply runs_bind; [exact Hrec|reflexivity].
Qed.

Lemma checkBlacklist_security_tool w w' :
  matches knownBotSignatures w = false ->
  matches securityTools w = true ->
  runs (recordFailedAttempt "security_tool_detected") w (Returns tt) w' ->
  runs checkBlacklist w (Returns (mkVerdict true (Some "security_tool"%string))) w'.
Proof.
  unfold matches. intros Hb Hm Hrec. unfold checkBlacklist.
  eapply runs_bind; [reflexivity|cbv beta zeta]. rewrite Hb, Hm.
  eapply runs_bind; [exact Hrec|reflexivity].
Qed.

Lemma checkBlacklist_lookup w b w' :
  identified w ->
  matches knownBotSignatures w = false ->
  matches securityTools w = false ->
  runs (isClientBlacklisted (clientIdentifier w)) w (Returns b) w' ->
  runs checkBlacklist w
    (Returns (if b then mkVerdict true (Some "blacklisted"%string)
              else mkVerdict false None)) w'.
Proof.
  unfold matches. intros Hw Hb Hm Hrun. unfold checkBlacklist.
  eapply runs_bind; [reflexivity|cbv beta zeta]. rewrite Hb, Hm.
  eapply runs_bind; [by apply runs_getClientIdentifier|cbv beta].
  eapply runs_bind; [exact Hrun|cbv beta].
  by destruct b.
Qed.

(** Every path of [checkBlacklist] asks for the identifier: where [btoa]
    rejects its text the call throws, and nothing has changed. *)
Lemma checkBlacklist_wide w :
  wideCharacters w = true ->
  runs checkBlacklist w (Throws InvalidCharacterError) w.
Proof.
  intros Hw. unfold checkBlacklist.
  eapply runs_bind; [reflexivity|cbv beta zeta].
  destruct (existsb _ knownBotSignatures).
  - apply runs_bind_throws. by apply recordFailedAttempt_wide.
  - destruct (existsb _ securityTools).
    + apply runs_bind_throws. by apply recordFailedAttempt_wide.
    + apply runs_bind_throws. by apply getClientIdentifier_throws.
Qed.

(** *** Sequences of attempts *)

Lemma saved_clientIdentifier w : clientIdentifier (saved w) = clientIdentifier w.
Proof. unfold saved. by destruct (setItem_throws _). Qed.

Lemma saved_ticks w : ticks (saved w) = ticks w.
Proof. unfold saved. by destruct (setItem_throws _). Qed.

Lemma saved_wideCharacters w : wideCharacters (saved w) = wideCharacters w.
Proof. unfold saved. by destruct (setItem_throws _). Qed.

Lemma saved_blacklistedIPs w : blacklistedIPs (saved w) = blacklistedIPs w.
Proof. unfold saved. by destruct (setItem_throws _). Qed.

Lemma saved_setItem_throws w :
  setItem_throws (localStorage (saved w)) = setItem_throws (localStorage w).
Proof.
  unfold saved. destruct (setItem_throws (localStorage w)) eqn:E; [exact E|reflexivity].
Qed.

Lemma hd_tl4 (l : list Z) : hd 0 (tl (tl (tl (tl l)))) = nth 4 l 0.
Proof. by destruct l as [|? [|? [|? [|? [|? ?]]]]]. Qed.

Lemma runs_result {A} (c : M A) w o w' : runs c w o w' -> result_of (c w) = o.
Proof. unfold runs, result_of. by intros ->. Qed.

Lemma runs_world {A} (c : M A) w o w' : runs c w o w' -> world_of (c w) = w'.
Proof. unfold runs, world_of. by intros ->. Qed.

(** Two attempts of a new client leave a record of two attempts. *)
Lemma two_attempts why w :
  identified w ->
  failedAttempts w !! clientIdentifier w = None ->
  exists w2 r2,
    runs (repeatFailedAttempt 2 why) w (Returns tt) w2
    /\ failedAttempts w2 !! clientIdentifier w = Some r2
    /\ count r2 = 2 /\ length (reasons r2) = 2%nat
    /\ clientIdentifier w2 = clientIdentifier w
    /\ ticks w2 = tl (tl (tl (ticks w)))
    /\ readable_blacklist (localStorage w2) = readable_blacklist (localStorage w)
    /\ setItem_throws (localStorage w2) = setItem_throws (localStorage w)
    /\ identified w2
    /\ captcha_blacklist (localStorage w2) = captcha_blacklist (localStorage w)
    /\ blacklistedIPs w2 = blacklistedIPs w.
Proof.
  intros Hw H.
  pose proof (recordFailedAttempt_first why w Hw H) as R1.
  set (r1 := noted why (clock (tick w)) (mkAttempt 0 [] (clock w))) in R1.
  set (w1 := saved _) in R1.
  assert (Hid1 : clientIdentifier w1 = clientIdentifier w)
    by (unfold w1; by rewrite saved_clientIdentifier).
  assert (H1 : failedAttempts w1 !! clientIdentifier w1 = Some r1).
  { rewrite Hid1. unfold w1. rewrite saved_failedAttempts. cbn.
    apply lookup_insert_eq. }
  assert (Hc1 : count r1 + 1 < maxFailedAttempts) by (cbn; unfold maxFailedAttempts; lia).
  assert (Hw1 : identified w1)
    by (unfold identified, w1; by rewrite saved_wideCharacters).
  pose proof (recordFailedAttempt_next why w1 r1 Hw1 H1 Hc1) as R2.
  set (w2 := saved _) in R2.
  exists w2, (noted why (clock w1) r1).
  split; [|repeat split].
  - cbn [repeatFailedAttempt].
    eapply runs_bind; [exact R1|]. eapply runs_bind; [exact R2|reflexivity].
  - unfold w2. rewrite saved_failedAttempts. cbn. rewrite Hid1.
    apply lookup_insert_eq.
  - unfold w2. by rewrite saved_clientIdentifier.
  - unfold w2. rewrite saved_ticks. cbn. unfold w1. by rewrite saved_ticks.
  - unfold w2. rewrite saved_readable. cbn [tick with_failedAttempts with_clock localStorage].
    unfold w1. by rewrite saved_readable.
  - unfold w2. rewrite saved_setItem_throws. cbn [tick with_failedAttempts with_clock localStorage].
    unfold w1. by rewrite saved_setItem_throws.
  - unfold identified, w2. rewrite saved_wideCharacters. exact Hw1.
  - unfold w2. rewrite saved_blacklist. cbn [tick with_failedAttempts with_clock localStorage].
    unfold w1. by rewrite saved_blacklist.
  - unfold w2. rewrite saved_blacklistedIPs.
    cbn [tick with_failedAttempts with_clock blacklistedIPs].
    unfold w1. by rewrite saved_blacklistedIPs.
Qed.

(** [loadFailedAttempts] would bring the persisted attempts back. *)
Lemma loadFailedAttempts_restores w fa :
  getItem_throws (localStorage w) = false ->
  captcha_failed_attempts (localStorage w) = Text fa ->
  runs loadFailedAttempts w (Returns tt) (with_failedAttempts w fa).
Proof.
  intros Hg Ht. unfold loadFailedAttempts. apply runs_try.
  eapply runs_bind; [|reflexivity].
  unfold runs, parse_captcha_failed_attempts. by rewrite Hg, Ht.
Qed.

(** *** Expiry *)

(** An entry with [expires <= now] does not count as blacklisted. *)
Lemma isClientBlacklisted_expired id w bl e :
  readable_blacklist (localStorage w) = Some bl ->
  bl !! id = Some e ->
  expires e <= clock w ->
  result_of (isClientBlacklisted id w) = Returns false.
Proof.
  intros Hr Hid He.
  rewrite (runs_result _ _ _ _ (isClientBlacklisted_entry id w bl e Hr Hid)).
  by rewrite bool_decide_eq_false_2 by lia.
Qed.

(** An entry with [expires < now] is removed from a writable store. *)
Lemma cleanup_removes_expired id w bl e :
  readable_blacklist (localStorage w) = Some bl ->
  setItem_throws (localStorage w) = false ->
  bl !! id = Some e ->
  expires e < clock w ->
  exists bl',
    readable_blacklist (localStorage (world_of (cleanupExpiredEntries w))) = Some bl'
    /\ bl' !! id = None.
Proof.
  intros Hr Hs Hid He.
  assert (Hsome : ~ map_Forall (fun _ e => ~ (expires e < clock w)) bl).
  { intros Hall. by apply (Hall id e Hid). }
  rewrite (runs_world _ _ _ _ (cleanup_sweeps w bl Hr Hsome Hs)).
  exists (unexpired (clock w) bl). split.
  - unfold swept, readable_blacklist in *. cbn.
    by destruct (getItem_throws (localStorage w)).
  - unfold unexpired. apply map_lookup_filter_None. right.
    intros e' He'. cbn. rewrite Hid in He'. injection He' as <-. tauto.
Qed.

(** An entry with [expires = now] is not blacklisted and yet survives the
    cleanup, whatever else the cleanup does. *)
Lemma cleanup_keeps_boundary id w bl e :
  readable_blacklist (localStorage w) = Some bl ->
  bl !! id = Some e ->
  expires e = clock w ->
  result_of (isClientBlacklisted id w) = Returns false
  /\ exists bl',
       readable_blacklist (localStorage (world_of (cleanupExpiredEntries w))) = Some bl'
       /\ bl' !! id = Some e.
Proof.
  intros Hr Hid He.
  split; [eapply isClientBlacklisted_expired; eauto; lia|].
  destruct (decide (map_Forall (fun _ e => ~ (expires e < clock w)) bl)) as [Ha|Ha].
  - rewrite (runs_world _ _ _ _ (cleanup_nothing_due w bl Hr Ha)). by exists bl.
  - destruct (setItem_throws (localStorage w)) eqn:Hs.
    + rewrite (runs_world _ _ _ _ (cleanup_cannot_write w bl Hr Ha Hs)). by exists bl.
    + rewrite (runs_world _ _ _ _ (cleanup_sweeps w bl Hr Ha Hs)).
      exists (unexpired (clock w) bl). split.
      * unfold swept, readable_blacklist in *. cbn.
        by destruct (getItem_throws (localStorage w)).
      * unfold unexpired. apply map_lookup_filter_Some. split; [done|]. cbn. lia.
Qed.

End StoreFacts.

(** ** The blacklist store: the properties of the specification *)

Section BlacklistStore.
Import Store StoreFacts StrFacts Scenarios.

(** C1 (as amended). For a client that has an identifier and no record,
    [threshold - 1] calls leave a record with [count = threshold - 1]; the
    [threshold]-th call returns and removes the record. Where the
    persisted blacklist can be read and written, it leaves an entry for
    the client with [threshold] reasons whose [expires - added] is
    [blacklistDuration * 1000] plus what the clock moved between the two
    reads that set [added] and [expires]. Where the persisted blacklist
    cannot be read, or the storage cannot be written, no entry is made:
    the stored blacklist and the runtime list are what they were.
    (The three calls read the clock at ticks 0 and 1, then 2, then 3 for
    the last reason, 4 for [added] and 5 for [expires]: the move in
    question is the fifth of [ticks w].) *)
Theorem escalation_at_threshold (why : string) (w : World) :
  identified w ->
  failedAttempts w !! clientIdentifier w = None ->
  let id := clientIdentifier w in
  let threshold := Z.to_nat maxFailedAttempts in
  let w2 := world_of (repeatFailedAttempt (threshold - 1) why w) in
  let w3 := world_of (repeatFailedAttempt threshold why w) in
  (exists r, failedAttempts w2 !! id = Some r /\ count r = maxFailedAttempts - 1)
  /\ result_of (repeatFailedAttempt threshold why w) = Returns tt
  /\ failedAttempts w3 !! id = None
  /\ (forall bl,
        readable_blacklist (localStorage w) = Some bl ->
        setItem_throws (localStorage w) = false ->
        exists bl' e,
          readable_blacklist (localStorage w3) = Some bl'
          /\ bl' !! id = Some e
          /\ Z.of_nat (length (entry_reasons e)) = maxFailedAttempts
          /\ expires e - added e = blacklistDuration * 1000 + nth 4 (ticks w) 0
          /\ (nth 4 (ticks w) 0 = 0 -> expires e - added e = blacklistDuration * 1000))
  /\ (readable_blacklist (localStorage w) = None
      \/ setItem_throws (localStorage w) = true ->
      captcha_blacklist (localStorage w3) = captcha_blacklist (localStorage w)
      /\ blacklistedIPs w3 = blacklistedIPs w).
Proof.
  intros Hw H id threshold w2 w3.
  change threshold with 3%nat in *. change (3 - 1)%nat with 2%nat in *.
  destruct (two_attempts why w Hw H)
    as (v2 & r2 & R2 & Hr2 & Hc2 & Hl2 & Hid2 & Ht2 & Hrd2 & Hst2 & Hw2 & Hbl2 & Hips2).
  assert (E2 : w2 = v2) by (apply (runs_world _ _ _ _ R2)).
  assert (Hr2' : failedAttempts v2 !! clientIdentifier v2 = Some r2) by (by rewrite Hid2).
  assert (Hge : count r2 + 1 >= maxFailedAttempts) by (unfold maxFailedAttempts; lia).
  set (pre := with_failedAttempts (tick v2)
                (<[clientIdentifier v2 := noted why (clock v2) r2]> (failedAttempts v2))).
  assert (Third : forall v, runs (addToBlacklist (clientIdentifier v2)
                                    (reasons (noted why (clock v2) r2))) pre (Returns tt) v ->
            runs (repeatFailedAttempt 3 why) w (Returns tt)
                 (saved (with_failedAttempts v (delete (clientIdentifier v2) (failedAttempts v))))).
  { intros v Hv.
    change (repeatFailedAttempt 3 why)
      with (bind (recordFailedAttempt why)
              (fun _ => bind (recordFailedAttempt why)
                 (fun _ => bind (recordFailedAttempt why) (fun _ => ret tt)))).
    assert (R2' : runs (bind (recordFailedAttempt why)
                      (fun _ => bind (recordFailedAttempt why) (fun _ => ret tt)))
                    w (Returns tt) v2) by exact R2.
    unfold runs, bind in R2' |- *.
    destruct (recordFailedAttempt why w) as [[[]|e1] u1]; [|discriminate].
    destruct (recordFailedAttempt why u1) as [[[]|e2] u2]; [|discriminate].
    injection R2' as <-.
    pose proof (recordFailedAttempt_escalates why u2 r2 v Hw2 Hr2' Hge Hv) as R3.
    unfold runs in R3. by rewrite R3. }
  split; [|split; [|split; [|split]]].
  - exists r2. rewrite E2. split; [done|]. unfold maxFailedAttempts. lia.
  - destruct (addToBlacklist_frame (clientIdentifier v2)
                (reasons (noted why (clock v2) r2)) pre) as (v & Hv & _).
    exact (runs_result _ _ _ _ (Third v Hv)).
  - destruct (addToBlacklist_frame (clientIdentifier v2)
                (reasons (noted why (clock v2) r2)) pre) as (v & Hv & _).
    unfold w3. rewrite (runs_world _ _ _ _ (Third v Hv)).
    rewrite saved_failedAttempts. cbn. unfold id. rewrite <- Hid2.
    apply lookup_delete_eq.
  - intros bl Hbl Hs.
    assert (Hpre_r : readable_blacklist (localStorage pre) = Some bl)
      by (unfold pre; cbn; by rewrite Hrd2).
    assert (Hpre_w : setItem_throws (localStorage pre) = false)
      by (unfold pre; cbn; by rewrite Hst2).
    pose proof (runs_addToBlacklist (clientIdentifier v2)
                  (reasons (noted why (clock v2) r2)) bl pre Hpre_r Hpre_w) as Hv.
    unfold w3. rewrite (runs_world _ _ _ _ (Third _ Hv)).
    rewrite saved_readable.
    eexists _, _. split; [|split; [|split; [|split]]].
    + cbn. unfold readable_blacklist in Hpre_r |- *. cbn in Hpre_r |- *.
      destruct (getItem_throws (localStorage v2)); [discriminate|reflexivity].
    + unfold id. rewrite <- Hid2. apply lookup_insert_eq.
    + cbn. rewrite length_app, Hl2. reflexivity.
    + cbn. rewrite Ht2, hd_tl4. lia.
    + cbn. rewrite Ht2, hd_tl4. intros ->. lia.
  - intros Hno.
    assert (Hpre : readable_blacklist (localStorage pre) = None
                   \/ setItem_throws (localStorage pre) = true).
    { unfold pre. cbn [tick with_failedAttempts with_clock localStorage].
      by rewrite Hrd2, Hst2. }
    destruct (addToBlacklist_no_entry (clientIdentifier v2)
                (reasons (noted why (clock v2) r2)) pre Hpre) as (v & Hv & Hls & Hips).
    unfold w3. rewrite (runs_world _ _ _ _ (Third v Hv)).
    rewrite saved_blacklist, saved_blacklistedIPs. cbn. rewrite Hls, Hips.
    unfold pre. cbn. by rewrite Hbl2, Hips2.
Qed.

(** C1, two instances: a new client with an empty writable store and a
    clock that moves by one millisecond per read; the same client with a
    storage that refuses every access. *)
Lemma escalation_at_threshold_witness :
  (identified ticking_world
   /\ failedAttempts ticking_world !! clientIdentifier ticking_world = None
   /\ exists bl' e,
        readable_blacklist
          (localStorage (world_of (repeatFailedAttempt 3 "honeypot_filled" ticking_world)))
        = Some bl'
        /\ bl' !! clientIdentifier ticking_world = Some e
        /\ Z.of_nat (length (entry_reasons e)) = maxFailedAttempts
        /\ expires e - added e
           = blacklistDuration * 1000 + nth 4 (ticks ticking_world) 0)
  /\ (identified storeless_world
      /\ failedAttempts storeless_world !! clientIdentifier storeless_world = None
      /\ readable_blacklist (localStorage storeless_world) = None
      /\ failedAttempts (world_of (repeatFailedAttempt 3 "honeypot_filled" storeless_world))
         !! clientIdentifier storeless_world = None
      /\ captcha_blacklist
           (localStorage (world_of (repeatFailedAttempt 3 "honeypot_filled" storeless_world)))
         = captcha_blacklist (localStorage storeless_world)).
Proof.
  split.
  - split; [reflexivity|]. split; [reflexivity|].
    destruct (escalation_at_threshold "honeypot_filled" ticking_world eq_refl eq_refl)
      as (_ & _ & _ & H & _).
    destruct (H ∅ eq_refl eq_refl) as (bl' & e & H1 & H2 & H3 & H4 & _).
    exists bl', e. repeat split; assumption.
  - split; [reflexivity|]. split; [reflexivity|]. split; [reflexivity|].
    destruct (escalation_at_threshold "honeypot_filled" storeless_world eq_refl eq_refl)
      as (_ & _ & H3 & _ & H5).
    split; [exact H3|]. exact (proj1 (H5 (or_introl eq_refl))).
Defined.

(** C1 as stated fails in two ways: with a clock that moves between the
    two reads the entry has [expires - added] one millisecond above
    [blacklistDuration * 1000]; with a storage that refuses access the
    third call removes the record and no entry exists. *)
Lemma escalation_counterexample :
  (identified ticking_world
   /\ failedAttempts ticking_world !! clientIdentifier ticking_world = None
   /\ exists e,
        readable_blacklist
          (localStorage (world_of (repeatFailedAttempt 3 "honeypot_filled" ticking_world)))
        = Some {[ clientIdentifier ticking_world := e ]}
        /\ expires e - added e = 86400001
        /\ expires e - added e <> blacklistDuration * 1000)
  /\ (identified storeless_world
      /\ failedAttempts storeless_world !! clientIdentifier storeless_world = None
      /\ failedAttempts (world_of (repeatFailedAttempt 3 "honeypot_filled" storeless_world))
         !! clientIdentifier storeless_world = None
      /\ readable_blacklist
           (localStorage (world_of (repeatFailedAttempt 3 "honeypot_filled" storeless_world)))
         = None
      /\ captcha_blacklist
           (localStorage (world_of (repeatFailedAttempt 3 "honeypot_filled" storeless_world)))
         = NoItem).
Proof.
  split.
  - split; [reflexivity|]. split; [reflexivity|].
    eexists. split; [vm_compute; reflexivity|]. split; [reflexivity|].
    vm_compute. discriminate.
  - repeat split.
Qed.

(** C2 (the code at every input, the failing ones included). Whatever
    attempts the storage holds, a page load ends with an empty in-memory
    map, and the next failed attempt of the client is counted as its
    first; for a client without an identifier the attempt throws and
    nothing is counted. *)
Theorem attempts_forgotten_on_page_load (why : string) (w : World) :
  let w1 := world_of (pageLoad w) in
  let w2 := world_of (recordFailedAttempt why w1) in
  result_of (pageLoad w) = Returns tt
  /\ failedAttempts w1 = ∅
  /\ captcha_failed_attempts (localStorage w1) = captcha_failed_attempts (localStorage w)
  /\ (identified w ->
      result_of (recordFailedAttempt why w1) = Returns tt
      /\ exists r, failedAttempts w2 !! clientIdentifier w = Some r /\ count r = 1)
  /\ (wideCharacters w = true ->
      recordFailedAttempt why w1 = (Throws InvalidCharacterError, w1)).
Proof.
  intros w1 w2.
  destruct (pageLoad_frame w) as (v1 & R1 & Hfa & Hst & Hsb).
  assert (E1 : w1 = v1) by apply (runs_world _ _ _ _ R1).
  assert (Hid : clientIdentifier v1 = clientIdentifier w) by apply Hsb.
  assert (Habs : failedAttempts v1 !! clientIdentifier v1 = None)
    by (rewrite Hfa; apply lookup_empty).
  split; [exact (runs_result _ _ _ _ R1)|].
  split; [by rewrite E1|]. split; [by rewrite E1|].
  assert (Hx : wideCharacters v1 = wideCharacters w) by apply Hsb.
  split.
  - intros Hw.
    assert (Hw1 : identified v1) by (unfold identified; by rewrite Hx).
    pose proof (recordFailedAttempt_first why v1 Hw1 Habs) as R2.
    split; [rewrite E1; exact (runs_result _ _ _ _ R2)|].
    unfold w2. rewrite E1, (runs_world _ _ _ _ R2), saved_failedAttempts.
    cbn. rewrite Hid, lookup_insert_eq. eauto.
  - intros Hw. rewrite E1. apply recordFailedAttempt_wide. by rewrite Hx.
Qed.

(** C2, an instance: the page that follows two recorded attempts. *)
Lemma attempts_forgotten_on_page_load_witness :
  identified (world_of (repeatFailedAttempt 2 "honeypot_filled" ticking_world))
  /\ (exists r, captcha_failed_attempts
                  (localStorage (world_of (repeatFailedAttempt 2 "honeypot_filled"
                                             ticking_world)))
                = Text {[ clientIdentifier ticking_world := r ]} /\ count r = 2)
  /\ failedAttempts second_page = ∅
  /\ exists r, failedAttempts (world_of (recordFailedAttempt "honeypot_filled" second_page))
               !! clientIdentifier ticking_world = Some r /\ count r = 1.
Proof.
  split; [reflexivity|].
  split; [eexists; split; [vm_compute; reflexivity|reflexivity]|].
  destruct (attempts_forgotten_on_page_load "honeypot_filled"
              (world_of (repeatFailedAttempt 2 "honeypot_filled" ticking_world)))
    as (_ & H2 & _ & H4 & _).
  split; [exact H2|]. exact (proj2 (H4 eq_refl)).
Defined.

(** C2, the failing input: two attempts were recorded and saved by one
    page; after the next page load the stored record still has count 2, the
    in-memory map is empty, and the third attempt leaves a record of count
    1 in memory and in storage, and no blacklist entry. *)
Example third_attempt_on_new_page :
  (exists r, captcha_failed_attempts (localStorage second_page)
             = Text {[ clientIdentifier ticking_world := r ]} /\ count r = 2)
  /\ failedAttempts second_page = ∅
  /\ (exists r, failedAttempts (world_of (recordFailedAttempt "honeypot_filled" second_page))
                !! clientIdentifier ticking_world = Some r /\ count r = 1)
  /\ (exists r, captcha_failed_attempts
                  (localStorage (world_of (recordFailedAttempt "honeypot_filled" second_page)))
                = Text {[ clientIdentifier ticking_world := r ]} /\ count r = 1)
  /\ captcha_blacklist
       (localStorage (world_of (recordFailedAttempt "honeypot_filled" second_page)))
     = NoItem.
Proof.
  split; [eexists; split; [vm_compute; reflexivity|reflexivity]|].
  split; [vm_compute; reflexivity|].
  split; [eexists; split; [vm_compute; reflexivity|reflexivity]|].
  split; [eexists; split; [vm_compute; reflexivity|reflexivity]|].
  vm_compute; reflexivity.
Qed.

(** C3, as the code has it. For an entry of the persisted blacklist with
    [expires <= now], [isClientBlacklisted] answers false and
    [cleanupExpiredEntries] returns; the cleanup removes the entry from a
    writable store when [expires < now], and keeps it when
    [expires = now]. *)
Theorem cleanup_keeps_entry_expiring_now (w : World) (id : string)
    (bl : gmap string BlacklistEntry) (e : BlacklistEntry) :
  readable_blacklist (localStorage w) = Some bl ->
  bl !! id = Some e ->
  expires e <= clock w ->
  let after := localStorage (world_of (cleanupExpiredEntries w)) in
  result_of (isClientBlacklisted id w) = Returns false
  /\ result_of (cleanupExpiredEntries w) = Returns tt
  /\ (expires e < clock w -> setItem_throws (localStorage w) = false ->
      exists bl', readable_blacklist after = Some bl' /\ bl' !! id = None)
  /\ (expires e = clock w ->
      exists bl', readable_blacklist after = Some bl' /\ bl' !! id = Some e).
Proof.
  intros Hr Hid He after.
  split; [by eapply isClientBlacklisted_expired|].
  split.
  - destruct (cleanup_frame w) as (w' & Hrun & _).
    exact (runs_result _ _ _ _ Hrun).
  - split.
    + intros Hlt Hs. by eapply cleanup_removes_expired.
    + intros Heq. by destruct (cleanup_keeps_boundary id w bl e Hr Hid Heq) as [_ H].
Qed.

(** C3 at its failing input: the entry expires exactly now;
    [isClientBlacklisted] answers false, and [cleanupExpiredEntries]
    leaves the entry in the persisted blacklist. *)
Lemma cleanup_keeps_entry_expiring_now_witness :
  (readable_blacklist (localStorage boundary_world) = Some {[ plain_id := listed_entry ]}
   /\ ({[ plain_id := listed_entry ]} : gmap string BlacklistEntry) !! plain_id
      = Some listed_entry
   /\ expires listed_entry <= clock boundary_world
   /\ expires listed_entry = clock boundary_world)
  /\ result_of (isClientBlacklisted plain_id boundary_world) = Returns false
  /\ exists bl',
       readable_blacklist (localStorage (world_of (cleanupExpiredEntries boundary_world)))
       = Some bl'
       /\ bl' !! plain_id = Some listed_entry.
Proof.
  assert (Hle : expires listed_entry <= clock boundary_world) by (cbn; lia).
  split; [repeat split; exact Hle|].
  destruct (cleanup_keeps_entry_expiring_now boundary_world plain_id
              {[ plain_id := listed_entry ]} listed_entry eq_refl eq_refl Hle)
    as (H1 & _ & _ & H4).
  split; [exact H1|exact (H4 eq_refl)].
Defined.

(** The same by evaluation: the stored text is what it was. *)
Example cleanup_at_boundary_evaluated :
  captcha_blacklist (localStorage (world_of (cleanupExpiredEntries boundary_world)))
  = captcha_blacklist (localStorage boundary_world).
Proof. vm_compute. reflexivity. Qed.

(** C4 (the code at every input, the failing ones included). A user
    agent that contains a configured bot signature, whatever the case of
    its letters, is blocked with reason "known_bot" where the browser has
    an identifier; the world is then the one
    [recordFailedAttempt("known_bot_useragent")] leaves, so the
    security-tool list has not been consulted. Where [btoa] rejects the
    text of the identifier, the call throws [InvalidCharacterError]
    instead of returning the verdict, and nothing is recorded. *)
Theorem known_bot_blocked_first (w : World) (sig : string) :
  In sig knownBotSignatures ->
  Str.occurs_ignoring_case sig (userAgent w) ->
  (identified w ->
   result_of (checkBlacklist w) = Returns (mkVerdict true (Some "known_bot"%string))
   /\ world_of (checkBlacklist w) = world_of (recordFailedAttempt "known_bot_useragent" w))
  /\ (wideCharacters w = true ->
      checkBlacklist w = (Throws InvalidCharacterError, w)).
Proof.
  intros Hin Hocc.
  assert (Hm : matches knownBotSignatures w = true).
  { unfold matches. apply (existsb_includes _ sig); [done|].
    apply includes_ignoring_case; [by apply knownBotSignatures_lower|done]. }
  split.
  - intros Hw.
    destruct (recordFailedAttempt_total "known_bot_useragent" w Hw) as (w' & Hrec & _).
    pose proof (checkBlacklist_known_bot w w' Hm Hrec) as Hrun.
    split; [exact (runs_result _ _ _ _ Hrun)|].
    by rewrite (runs_world _ _ _ _ Hrun), (runs_world _ _ _ _ Hrec).
  - intros Hw. exact (checkBlacklist_wide w Hw).
Qed.

(** C4, two instances: "GoogleBot" in mixed case, in a user agent that
    also names a security tool; and the failing input, curl with a check
    mark in its user agent. *)
Lemma known_bot_blocked_first_witness :
  (In "googlebot"%string knownBotSignatures
   /\ Str.occurs_ignoring_case "googlebot" (userAgent crawler_world)
   /\ identified crawler_world
   /\ existsb (Str.includes (Str.toLowerCase (userAgent crawler_world))) securityTools = true
   /\ result_of (checkBlacklist crawler_world)
      = Returns (mkVerdict true (Some "known_bot"%string)))
  /\ (In "curl"%string knownBotSignatures
      /\ Str.occurs_ignoring_case "curl" (userAgent wide_curl_world)
      /\ wideCharacters wide_curl_world = true
      /\ checkBlacklist wide_curl_world = (Throws InvalidCharacterError, wide_curl_world)).
Proof.
  assert (Hin : In "googlebot"%string knownBotSignatures) by (left; reflexivity).
  assert (Hocc : Str.occurs_ignoring_case "googlebot" (userAgent crawler_world)).
  { exists "Mozilla/5.0 (compatible; "%string, "GoogleBot"%string, "/2.1; Avast)"%string.
    split; reflexivity. }
  assert (Hin' : In "curl"%string knownBotSignatures)
    by (do 20 right; left; reflexivity).
  assert (Hocc' : Str.occurs_ignoring_case "curl" (userAgent wide_curl_world)).
  { exists EmptyString, "curl"%string, "/8.5.0 ?"%string. split; reflexivity. }
  split.
  - split; [exact Hin|]. split; [exact Hocc|]. split; [reflexivity|].
    split; [reflexivity|].
    exact (proj1 (proj1 (known_bot_blocked_first crawler_world "googlebot" Hin Hocc)
                        eq_refl)).
  - split; [exact Hin'|]. split; [exact Hocc'|]. split; [reflexivity|].
    exact (proj2 (known_bot_blocked_first wide_curl_world "curl" Hin' Hocc') eq_refl).
Defined.

(** C5 (as amended). A client with an unexpired entry in the persisted
    blacklist is always blocked; the reason is "blacklisted" when its user
    agent matches neither signature list. *)
Theorem blacklisted_client_blocked (w : World) (bl : gmap string BlacklistEntry)
    (e : BlacklistEntry) :
  identified w ->
  readable_blacklist (localStorage w) = Some bl ->
  bl !! clientIdentifier w = Some e ->
  expires e > clock w ->
  (exists v, result_of (checkBlacklist w) = Returns v /\ blocked v = true)
  /\ (matches knownBotSignatures w = false ->
      matches securityTools w = false ->
      result_of (checkBlacklist w) = Returns (mkVerdict true (Some "blacklisted"%string))).
Proof.
  intros Hw Hr Hid He.
  assert (Hl : matches knownBotSignatures w = false ->
               matches securityTools w = false ->
               result_of (checkBlacklist w)
               = Returns (mkVerdict true (Some "blacklisted"%string))).
  { intros Hb Ht.
    pose proof (isClientBlacklisted_entry _ w bl e Hr Hid) as Hrun.
    rewrite bool_decide_eq_true_2 in Hrun by done.
    exact (runs_result _ _ _ _ (checkBlacklist_lookup w true _ Hw Hb Ht Hrun)). }
  split; [|exact Hl].
  destruct (matches knownBotSignatures w) eqn:Hb.
  - destruct (recordFailedAttempt_total "known_bot_useragent" w Hw) as (w' & Hrec & _).
    eexists. split; [exact (runs_result _ _ _ _ (checkBlacklist_known_bot w w' Hb Hrec))|done].
  - destruct (matches securityTools w) eqn:Ht.
    + destruct (recordFailedAttempt_total "security_tool_detected" w Hw) as (w' & Hrec & _).
      eexists. split;
        [exact (runs_result _ _ _ _ (checkBlacklist_security_tool w w' Hb Ht Hrec))|done].
    + eexists. split; [by apply Hl|done].
Qed.

(** C5, an instance: a blacklisted client with a plain browser user
    agent. *)
Lemma blacklisted_client_blocked_witness :
  identified listed_browser_world
  /\ (exists bl e,
     readable_blacklist (localStorage listed_browser_world) = Some bl
     /\ bl !! clientIdentifier listed_browser_world = Some e
     /\ expires e > clock listed_browser_world)
  /\ matches knownBotSignatures listed_browser_world = false
  /\ matches securityTools listed_browser_world = false
  /\ result_of (checkBlacklist listed_browser_world)
     = Returns (mkVerdict true (Some "blacklisted"%string)).
Proof.
  split; [reflexivity|].
  split; [eexists _, _; split; [reflexivity|split; [reflexivity|reflexivity]]|].
  split; [reflexivity|]. split; [reflexivity|].
  refine (proj2 (blacklisted_client_blocked listed_browser_world _ _
                   eq_refl eq_refl eq_refl eq_refl)
                eq_refl eq_refl).
Defined.

(** C5 as stated fails for a blacklisted client whose user agent is on the
    bot list: the reason is "known_bot". *)
Lemma blacklisted_client_counterexample :
  identified listed_curl_world
  /\ (exists bl e,
     readable_blacklist (localStorage listed_curl_world) = Some bl
     /\ bl !! clientIdentifier listed_curl_world = Some e
     /\ expires e > clock listed_curl_world)
  /\ result_of (checkBlacklist listed_curl_world)
     = Returns (mkVerdict true (Some "known_bot"%string))
  /\ result_of (checkBlacklist listed_curl_world)
     <> Returns (mkVerdict true (Some "blacklisted"%string)).
Proof.
  split; [reflexivity|].
  split; [eexists _, _; split; [reflexivity|split; [reflexivity|reflexivity]]|].
  split; [vm_compute; reflexivity|].
  vm_compute. discriminate.
Qed.

(** C8. When the read of the persisted blacklist throws, or its text is
    not JSON, [isClientBlacklisted] returns false and [loadBlacklist]
    returns with an empty runtime list; neither raises, neither changes
    anything else. *)
Theorem storage_failure_degrades (w : World) (clientId : string) :
  getItem_throws (localStorage w) = true \/ captcha_blacklist (localStorage w) = BadText ->
  isClientBlacklisted clientId w = (Returns false, w)
  /\ loadBlacklist w = (Returns tt, with_blacklistedIPs w [])
  /\ blacklistedIPs (world_of (loadBlacklist w)) = [].
Proof.
  intros H.
  assert (Hr : readable_blacklist (localStorage w) = None).
  { unfold readable_blacklist. destruct H as [-> | ->]; [done|].
    by destruct (getItem_throws _). }
  split; [exact (isClientBlacklisted_unreadable clientId w Hr)|].
  pose proof (loadBlacklist_unreadable w Hr) as Hl.
  split; [exact Hl|]. by rewrite (runs_world _ _ _ _ Hl).
Qed.

(** C8, two instances: a storage whose reads throw, and a blacklist whose
    text is not JSON. *)
Lemma storage_failure_degrades_witness :
  (getItem_throws (localStorage storeless_world) = true
   /\ isClientBlacklisted (clientIdentifier storeless_world) storeless_world
      = (Returns false, storeless_world))
  /\ (captcha_blacklist (localStorage corrupt_world) = BadText
      /\ isClientBlacklisted (clientIdentifier corrupt_world) corrupt_world
         = (Returns false, corrupt_world)
      /\ blacklistedIPs (world_of (loadBlacklist corrupt_world)) = []).
Proof.
  split.
  - split; [reflexivity|].
    exact (proj1 (storage_failure_degrades storeless_world _ (or_introl eq_refl))).
  - split; [reflexivity|].
    destruct (storage_failure_degrades corrupt_world (clientIdentifier corrupt_world)
                (or_intror eq_refl)) as (H1 & _ & H3).
    split; [exact H1|exact H3].
Defined.

(** C10. A call of [checkBlacklist] that returns "known_bot" or
    "security_tool" has run [recordFailedAttempt] once: the world is the
    one that single call leaves, and the record of the client has changed.
    A call that returns "blacklisted", or any verdict that does not block,
    leaves the in-memory and the persisted attempts as they were. Both
    kinds of call occur: for a browser with an identifier the verdict is
    "known_bot" when the user agent matches a bot signature,
    "security_tool" when it matches a security tool only, and
    "blacklisted" or no block otherwise. *)
Theorem checkBlacklist_effect (w : World) :
  let w' := world_of (checkBlacklist w) in
  let verdict := result_of (checkBlacklist w) in
  let changed :=
    failedAttempts w' !! clientIdentifier w <> failedAttempts w !! clientIdentifier w in
  let unchanged :=
    failedAttempts w' = failedAttempts w
    /\ localStorage w' = localStorage w in
  (verdict = Returns (mkVerdict true (Some "known_bot"%string)) ->
   recordFailedAttempt "known_bot_useragent" w = (Returns tt, w') /\ changed)
  /\ (verdict = Returns (mkVerdict true (Some "security_tool"%string)) ->
      recordFailedAttempt "security_tool_detected" w = (Returns tt, w') /\ changed)
  /\ (forall v, verdict = Returns v ->
        blocked v = false \/ verdict_reason v = Some "blacklisted"%string ->
        unchanged)
  /\ (identified w -> matches knownBotSignatures w = true ->
      verdict = Returns (mkVerdict true (Some "known_bot"%string)))
  /\ (identified w -> matches knownBotSignatures w = false ->
      matches securityTools w = true ->
      verdict = Returns (mkVerdict true (Some "security_tool"%string)))
  /\ (identified w -> matches knownBotSignatures w = false ->
      matches securityTools w = false ->
      verdict = Returns (mkVerdict true (Some "blacklisted"%string))
      \/ verdict = Returns (mkVerdict false None)).
Proof.
  intros w' verdict changed unchanged. subst verdict changed unchanged.
  destruct (wideCharacters w) eqn:Hx.
  { pose proof (checkBlacklist_wide w Hx) as Hrun.
    rewrite (runs_result _ _ _ _ Hrun).
    assert (Hn : ~ identified w) by (unfold identified; congruence).
    split; [discriminate|]. split; [discriminate|].
    split; [intros v; discriminate|].
    split; [|split]; intros Hw; by destruct Hn. }
  assert (Hw : identified w) by exact Hx.
  destruct (matches knownBotSignatures w) eqn:Hb.
  - destruct (recordFailedAttempt_total "known_bot_useragent" w Hw) as (v & Hrec & Hch & _).
    pose proof (checkBlacklist_known_bot w v Hb Hrec) as Hrun.
    assert (E : w' = v) by apply (runs_world _ _ _ _ Hrun).
    rewrite E, (runs_result _ _ _ _ Hrun).
    split; [by intros _|]. split; [discriminate|].
    split; [intros v0 [= <-] [?|?]; discriminate|].
    split; [done|]. split; intros; discriminate.
  - destruct (matches securityTools w) eqn:Ht.
    + destruct (recordFailedAttempt_total "security_tool_detected" w Hw)
        as (v & Hrec & Hch & _).
      pose proof (checkBlacklist_security_tool w v Hb Ht Hrec) as Hrun.
      assert (E : w' = v) by apply (runs_world _ _ _ _ Hrun).
      rewrite E, (runs_result _ _ _ _ Hrun).
      split; [discriminate|]. split; [by intros _|].
      split; [intros v0 [= <-] [?|?]; discriminate|].
      split; [intros; discriminate|]. split; [done|intros; discriminate].
    + destruct (isClientBlacklisted_frame (clientIdentifier w) w) as (b & v & Hrun & Hv).
      pose proof (checkBlacklist_lookup w b v Hw Hb Ht Hrun) as Hck.
      assert (E : w' = v) by apply (runs_world _ _ _ _ Hck).
      assert (Hun : failedAttempts v = failedAttempts w /\ localStorage v = localStorage w)
        by (destruct Hv as [-> | ->]; by split).
      rewrite E, (runs_result _ _ _ _ Hck).
      split; [by destruct b|]. split; [by destruct b|].
      split; [intros; exact Hun|].
      split; [intros; discriminate|]. split; [intros; discriminate|].
      intros _ _ _. destruct b; [by left|by right].
Qed.

(** C10, an instance: the crawler is blocked as a known bot, and the call
    has recorded its first failed attempt. *)
Lemma checkBlacklist_effect_witness :
  identified crawler_world
  /\ matches knownBotSignatures crawler_world = true
  /\ failedAttempts crawler_world !! clientIdentifier crawler_world = None
  /\ result_of (checkBlacklist crawler_world)
     = Returns (mkVerdict true (Some "known_bot"%string))
  /\ recordFailedAttempt "known_bot_useragent" crawler_world
     = (Returns tt, world_of (checkBlacklist crawler_world))
  /\ failedAttempts (world_of (checkBlacklist crawler_world))
     !! clientIdentifier crawler_world
     <> failedAttempts crawler_world !! clientIdentifier crawler_world.
Proof.
  split; [reflexivity|]. split; [reflexivity|]. split; [reflexivity|].
  destruct (checkBlacklist_effect crawler_world) as (H1 & _ & _ & H4 & _).
  pose proof (H4 eq_refl eq_refl) as Hv.
  split; [exact Hv|]. exact (H1 Hv).
Defined.

End BlacklistStore.

(** ** The interaction monitor *)

Module InteractionFacts.
Import Interaction.

Lemma Qeq_bool_refl (q : Q) : Qeq_bool q q = true.
Proof. apply Qeq_bool_iff. reflexivity. Qed.

(** [a / b > 0.3] in integers. *)
Lemma exceeds_30_percent_spec (a b : nat) :
  (0 < b)%nat ->
  exceeds_30_percent a b = true <-> 3 * Z.of_nat b < 10 * Z.of_nat a.
Proof.
  intros Hb. unfold exceeds_30_percent.
  rewrite negb_true_iff, <- not_true_iff_false, Qle_bool_iff.
  destruct b as [|b]; [lia|].
  unfold Qle, Qdiv, Qmult, Qinv, inject_Z.
  change (Z.of_nat (S b)) with (Z.pos (Pos.of_succ_nat b)).
  cbn [Qnum Qden]. rewrite Pos.mul_1_l. lia.
Qed.

(** The loop counts the repeated velocities and the repeated directions,
    each on its own. *)
Lemma scanPatterns_from (prev : Sample) (l : list Sample) (u : nat) :
  scanPatterns l u (Some (velocity prev)) (Some (direction prev))
  = (u + repeated_velocities (prev :: l) + repeated_directions (prev :: l))%nat.
Proof.
  revert prev u. induction l as [|x l IH]; intros prev u.
  - cbn. lia.
  - cbn [scanPatterns strict_eq]. rewrite IH.
    unfold repeated_velocities, repeated_directions.
    cbn [consecutive_pairs List.filter].
    unfold same_velocity at 2, same_direction at 2. cbn [fst snd].
    destruct (Qeq_bool (velocity prev) (velocity x)),
             (Qeq_bool (direction prev) (direction x)); cbn [length]; lia.
Qed.

Lemma scanPatterns_counts (l : list Sample) :
  scanPatterns l 0 None None = (repeated_velocities l + repeated_directions l)%nat.
Proof.
  destruct l as [|x l]; [reflexivity|].
  cbn [scanPatterns strict_eq]. rewrite scanPatterns_from. lia.
Qed.

Lemma consecutive_pairs_cons (a b : Sample) (l : list Sample) :
  consecutive_pairs (a :: b :: l) = (a, b) :: consecutive_pairs (b :: l).
Proof. reflexivity. Qed.

Lemma repeated_in_repeat (s : Sample) (n : nat) :
  repeated_velocities (repeat s (S n)) = n /\ repeated_directions (repeat s (S n)) = n.
Proof.
  unfold repeated_velocities, repeated_directions.
  induction n as [|n [IHv IHd]]; [by split|].
  change (repeat s (S (S n))) with (s :: s :: repeat s n).
  rewrite consecutive_pairs_cons. cbn [List.filter].
  change (s :: repeat s n) with (repeat s (S n)).
  unfold same_velocity at 1, same_direction at 1. cbn [fst snd].
  rewrite !Qeq_bool_refl. cbn [length]. by rewrite IHv, IHd.
Qed.

Lemma filter_or_and {A} (f g : A -> bool) (l : list A) :
  (length (List.filter f l) + length (List.filter g l)
   = length (List.filter (fun x => f x || g x)%bool l)
     + length (List.filter (fun x => f x && g x)%bool l))%nat.
Proof.
  induction l as [|x l IH]; [reflexivity|].
  cbn [List.filter]. destruct (f x), (g x); cbn [orb andb length]; lia.
Qed.

(** A pair equal in velocity and in direction is counted twice. *)
Lemma repeats_are_pairs (l : list Sample) :
  (repeated_velocities l + repeated_directions l
   = uniform_pairs l + doubly_uniform_pairs l)%nat.
Proof. apply filter_or_and. Qed.

(** [> 0.3] on the rational is the test of the code. *)
Lemma exceeds_30_percent_Qlt (a b : nat) :
  exceeds_30_percent a b = true
  <-> (3 # 10 < inject_Z (Z.of_nat a) / inject_Z (Z.of_nat b))%Q.
Proof.
  unfold exceeds_30_percent.
  rewrite negb_true_iff, <- not_true_iff_false, Qle_bool_iff.
  split; [apply Qnot_le_lt|apply Qlt_not_le].
Qed.

(** The decision of [analyzeInteractions]. *)
Lemma analyzeInteractions_false (now : Z) (d : InteractionData) :
  analyzeInteractions now d = false <->
    (now - startTime d > 2000
     /\ mouseMoves d + mouseClicks d + keyPresses d + touchEvents d < 3)
    \/ ((5 < length (movementPatterns d))%nat
        /\ exceeds_30_percent
             (repeated_velocities (movementPatterns d)
              + repeated_directions (movementPatterns d))
             (length (movementPatterns d)) = true).
Proof.
  unfold analyzeInteractions.
  set (total := mouseMoves d + mouseClicks d + keyPresses d + touchEvents d).
  set (n := length (movementPatterns d)).
  rewrite scanPatterns_counts.
  set (repeats := (repeated_velocities (movementPatterns d)
                   + repeated_directions (movementPatterns d))%nat).
  destruct (2000 <? now - startTime d) eqn:Ht;
    destruct (total <? 3) eqn:Hi; cbn [andb];
    try (apply Z.ltb_lt in Ht); try (apply Z.ltb_ge in Ht);
    try (apply Z.ltb_lt in Hi); try (apply Z.ltb_ge in Hi).
  1: { split; [intros _; left; lia|done]. }
  all: destruct (5 <? n)%nat eqn:Hn;
    [apply Nat.ltb_lt in Hn|apply Nat.ltb_ge in Hn];
    try destruct (exceeds_30_percent repeats n) eqn:Hx;
    split; try done; try (intros _; right; split; [lia|done]);
    intros [[? ?]|[? ?]]; try lia; try congruence.
Qed.

End InteractionFacts.

(** ** The interaction monitor: the property of the specification *)

Section InteractionMonitor.
Import Interaction InteractionFacts Scenarios.

(** C7 (as amended). [analyzeInteractions] returns false when more than
    2000 ms have passed with fewer than 3 interactions. Otherwise, with at
    most 5 samples it returns true; with more than 5 samples, none of
    which repeats both the velocity and the direction of its predecessor,
    it returns false exactly when the number of consecutive pairs equal in
    velocity or in direction, divided by the number of samples, exceeds
    0.3. With more than 5 samples of any kind it returns false whenever
    that quotient exceeds 0.3. Samples that all share one velocity and one
    direction, six or more of them, make it return false. *)
Theorem analyzeInteractions_decision (now : Z) (d : InteractionData) :
  let total := mouseMoves d + mouseClicks d + keyPresses d + touchEvents d in
  let l := movementPatterns d in
  let n := length l in
  let too_quiet := now - startTime d > 2000 /\ total < 3 in
  (too_quiet -> analyzeInteractions now d = false)
  /\ (~ too_quiet -> (n <= 5)%nat -> analyzeInteractions now d = true)
  /\ ((5 < n)%nat -> (3 # 10 < uniform_pair_fraction_of_samples l)%Q ->
      analyzeInteractions now d = false)
  /\ (~ too_quiet -> (5 < n)%nat -> doubly_uniform_pairs l = 0%nat ->
      (analyzeInteractions now d = false
       <-> (3 # 10 < uniform_pair_fraction_of_samples l)%Q))
  /\ (forall (s : Sample) (k : nat),
        (6 <= k)%nat -> l = repeat s k -> analyzeInteractions now d = false).
Proof.
  intros total l n too_quiet.
  pose proof (analyzeInteractions_false now d) as Hdec.
  fold total l n in Hdec. fold too_quiet in Hdec.
  assert (Hsingle : doubly_uniform_pairs l = 0%nat ->
            (repeated_velocities l + repeated_directions l)%nat = uniform_pairs l).
  { intros H0. rewrite repeats_are_pairs, H0. lia. }
  assert (Hmore : (5 < n)%nat ->
            (3 # 10 < uniform_pair_fraction_of_samples l)%Q ->
            exceeds_30_percent (repeated_velocities l + repeated_directions l) n = true).
  { intros Hn Hq. apply exceeds_30_percent_spec; [lia|].
    apply exceeds_30_percent_Qlt in Hq. fold n in Hq.
    apply exceeds_30_percent_spec in Hq; [|lia].
    rewrite repeats_are_pairs. lia. }
  split; [intros Hq; apply Hdec; by left|].
  split.
  { intros Hq Hn. apply not_false_is_true. intros E.
    apply Hdec in E as [E|[E _]]; [by destruct Hq|lia]. }
  split; [intros Hn Hq; apply Hdec; right; split; [done|by apply Hmore]|].
  split.
  { intros Hq Hn H0. rewrite Hdec, (Hsingle H0). split.
    - intros [E|[_ E]]; [by destruct Hq|]. by apply exceeds_30_percent_Qlt in E.
    - intros E. right. split; [done|]. by apply exceeds_30_percent_Qlt. }
  intros s k Hk Hrep. apply Hdec. right.
  assert (En : n = k) by (unfold n; by rewrite Hrep, repeat_length).
  split; [lia|].
  apply exceeds_30_percent_spec; [lia|].
  rewrite Hrep, En.
  destruct k as [|k]; [lia|].
  destruct (repeated_in_repeat s k) as [-> ->]. lia.
Qed.

(** C7, two instances: six identical samples; seven samples with two
    single repeats, two sevenths of the samples. *)
Lemma analyzeInteractions_decision_witness :
  ((6 <= 6)%nat
   /\ movementPatterns uniform_data = repeat (mkSample (3 # 2) (1 # 4)) 6
   /\ analyzeInteractions 1000 uniform_data = false)
  /\ (~ (1000 - startTime two_repeats_data > 2000
         /\ mouseMoves two_repeats_data + mouseClicks two_repeats_data
            + keyPresses two_repeats_data + touchEvents two_repeats_data < 3)
      /\ (5 < length (movementPatterns two_repeats_data))%nat
      /\ doubly_uniform_pairs (movementPatterns two_repeats_data) = 0%nat
      /\ (uniform_pair_fraction_of_samples (movementPatterns two_repeats_data) == 2 # 7)%Q
      /\ (analyzeInteractions 1000 two_repeats_data = false
          <-> (3 # 10 < uniform_pair_fraction_of_samples
                          (movementPatterns two_repeats_data))%Q)).
Proof.
  split.
  - split; [lia|]. split; [reflexivity|].
    destruct (analyzeInteractions_decision 1000 uniform_data) as (_ & _ & _ & _ & H).
    exact (H (mkSample (3 # 2) (1 # 4)) 6%nat (le_n 6) eq_refl).
  - assert (Hq : ~ (1000 - startTime two_repeats_data > 2000
                    /\ mouseMoves two_repeats_data + mouseClicks two_repeats_data
                       + keyPresses two_repeats_data + touchEvents two_repeats_data < 3))
      by (cbn; lia).
    assert (Hn : (5 < length (movementPatterns two_repeats_data))%nat) by (cbn; lia).
    split; [exact Hq|]. split; [exact Hn|]. split; [reflexivity|].
    split; [reflexivity|].
    destruct (analyzeInteractions_decision 1000 two_repeats_data) as (_ & _ & _ & H & _).
    exact (H Hq Hn eq_refl).
Defined.

(** C7 as stated fails: of seven samples two repeat their predecessor,
    one in velocity and one in direction; two pairs out of six is a
    fraction of one third, above 30%, the time test does not apply, and
    yet the answer is true: the count is divided by the seven samples. *)
Lemma analyzeInteractions_counterexample :
  ~ (1000 - startTime two_repeats_data > 2000)
  /\ (5 < length (movementPatterns two_repeats_data))%nat
  /\ (uniform_pair_fraction (movementPatterns two_repeats_data) == 1 # 3)%Q
  /\ (3 # 10 < uniform_pair_fraction (movementPatterns two_repeats_data))%Q
  /\ scanPatterns (movementPatterns two_repeats_data) 0 None None = 2%nat
  /\ analyzeInteractions 1000 two_repeats_data = true.
Proof.
  split; [cbn; lia|]. split; [cbn; lia|]. split; [reflexivity|].
  split; [by vm_compute|]. split; reflexivity.
Qed.

(** The loop has one test for the velocity and one for the direction, and
    each adds a point: of six samples one repeats its predecessor in both,
    one pair out of five, and the count is 2, a third of the samples. *)
Example pair_equal_in_both_counts_twice :
  doubly_uniform_pairs (movementPatterns one_repeat_data) = 1%nat
  /\ uniform_pairs (movementPatterns one_repeat_data) = 1%nat
  /\ scanPatterns (movementPatterns one_repeat_data) 0 None None = 2%nat
  /\ analyzeInteractions 1000 one_repeat_data = false.
Proof. repeat split. Qed.

End InteractionMonitor.

(** ** Signal collection and the score *)

Module FingerprintFacts.
Import Fingerprint.

Lemma generateCanvasFingerprint_returns win :
  generateCanvasFingerprint win
  = Returns (match canvas_probe win with
             | Returns h => h
             | Throws _ => canvas_not_supported
             end).
Proof. unfold generateCanvasFingerprint, otry. by destruct (canvas_probe win). Qed.

Lemma getWebGLInfo_returns win : exists info, getWebGLInfo win = Returns info.
Proof.
  unfold getWebGLInfo, otry, obind.
  destruct (webgl_getContext win) as [[]|]; cbn; eauto.
  destruct (webgl_getExtension win) as [[]|]; cbn; eauto.
  destruct (webgl_vendor win); cbn; eauto.
  destruct (webgl_renderer win); cbn; eauto.
Qed.

Lemma getWebGLInfo_unavailable win :
  webgl_available win = false -> getWebGLInfo win = Returns null_info.
Proof.
  unfold webgl_available, getWebGLInfo, otry, obind.
  destruct (webgl_getContext win) as [[]|]; cbn; try done.
  destruct (webgl_getExtension win) as [[]|]; cbn; try done.
  destruct (webgl_vendor win); cbn; try done.
  destruct (webgl_renderer win); cbn; try done.
Qed.

(** An exception of an unguarded operation leaves
    [collectFingerprintComponents]. *)
Lemma collect_propagates_storage win tz e :
  Intl_timeZone win = Returns tz ->
  window_localStorage win = Throws e ->
  collectFingerprintComponents win = Throws e.
Proof. unfold collectFingerprintComponents. by intros -> ->. Qed.

(** The first unguarded operation that throws ends the collection. *)
Lemma collect_first_throw win e :
  first_unguarded_throw win = Some e ->
  collectFingerprintComponents win = Throws e.
Proof.
  unfold first_unguarded_throw, collectFingerprintComponents, detectAudioCodecs,
    detectVideoCodecs, detectFonts, benchmarkPerformance, detectAdBlocker,
    getPluginsInfo, getBatteryInfo, getConnectionType.
  rewrite generateCanvasFingerprint_returns.
  destruct (Intl_timeZone win); cbn [thrown first_thrown obind]; [|congruence].
  destruct (window_localStorage win); cbn [thrown first_thrown obind]; [|congruence].
  destruct (window_sessionStorage win); cbn [thrown first_thrown obind]; [|congruence].
  destruct (window_indexedDB win); cbn [thrown first_thrown obind]; [|congruence].
  destruct (audioCodecs_probe win); cbn [thrown first_thrown obind]; [|congruence].
  destruct (videoCodecs_probe win); cbn [thrown first_thrown obind]; [|congruence].
  destruct (fonts_probe win); cbn [thrown first_thrown obind]; [|congruence].
  destruct (battery_probe win), (connection_probe win); cbn [otry obind];
    (destruct (benchmark_probe win); cbn [thrown first_thrown obind]; [|congruence];
     destruct (adBlocker_probe win); cbn [thrown first_thrown obind]; [discriminate|];
     intros [= <-]; by destruct (getWebGLInfo win)).
Qed.

Lemma unguarded_probes_throw win :
  unguarded_probes_return win = false -> exists e, first_unguarded_throw win = Some e.
Proof.
  unfold unguarded_probes_return, first_unguarded_throw.
  destruct (Intl_timeZone win); cbn; [|eauto].
  destruct (window_localStorage win); cbn; [|eauto].
  destruct (window_sessionStorage win); cbn; [|eauto].
  destruct (window_indexedDB win); cbn; [|eauto].
  destruct (audioCodecs_probe win); cbn; [|eauto].
  destruct (videoCodecs_probe win); cbn; [|eauto].
  destruct (fonts_probe win); cbn; [|eauto].
  destruct (benchmark_probe win); cbn; [|eauto].
  destruct (adBlocker_probe win); cbn; [discriminate|eauto].
Qed.

(** [generateBrowserFingerprint] catches it and falls back. *)
Lemma generateBrowserFingerprint_falls_back win e :
  collectFingerprintComponents win = Throws e ->
  generateBrowserFingerprint win = generateFallbackFingerprint win.
Proof. unfold generateBrowserFingerprint. by intros ->. Qed.

(** *** The suspicious-pattern score *)

Lemma hasTooManySuspiciousPatterns_ratio win fp sm :
  storage_missing win = Returns sm ->
  hasTooManySuspiciousPatterns win fp
  = Returns (negb (Qle_bool (suspicious_ratio win fp sm) (4 # 10))).
Proof.
  intros Hs. unfold hasTooManySuspiciousPatterns. rewrite Hs.
  unfold suspicious_ratio, suspicious_points, full_weight_triggers, triggered,
    over_threshold.
  cbn [obind].
  destruct (fonts_missing fp), (canvas_blocked fp), (webgl_missing fp),
    (chrome_mismatch win), (firefox_mismatch win), (languages_empty win),
    sm, (pixel_ratio_whole win), (plugins_empty win); reflexivity.
Qed.

(** Checks and conditions count alike unless the user-agent check counts
    twice. *)
Lemma checks_are_conditions win fp sm :
  ua_counts_twice win = false ->
  triggered (full_weight_triggers win fp sm) = triggered (full_weight_checks win fp sm).
Proof.
  unfold ua_counts_twice, full_weight_triggers, full_weight_checks, ua_mismatch, triggered.
  destruct (fonts_missing fp), (canvas_blocked fp), (webgl_missing fp),
    (chrome_mismatch win), (firefox_mismatch win), (languages_empty win),
    sm, (plugins_empty win); (discriminate || reflexivity).
Qed.

(** Where the storage getter throws, so does the score. *)
Lemma hasTooManySuspiciousPatterns_throws win fp e :
  window_localStorage win = Throws e ->
  hasTooManySuspiciousPatterns win fp = Throws e.
Proof.
  intros H. unfold hasTooManySuspiciousPatterns, storage_missing.
  cbn [noStorage suspiciousPatterns]. by rewrite H.
Qed.

End FingerprintFacts.

(** ** Signal collection and the score: the properties of the specification *)

Section SignalsAndScore.
Import Fingerprint FingerprintFacts Scenarios.

(** C9 (the code at every input, the failing ones included). When the
    operations that no [try] guards return,
    [collectFingerprintComponents] returns; a canvas probe that throws
    gives [canvasHash = "canvas_not_supported"], and WebGL that does not
    answer gives null for vendor and renderer; battery and connection
    probes that throw give null. When one of the unguarded operations
    throws, the first of them to do so ends the collection with its
    exception, and [generateBrowserFingerprint] goes on with
    [generateFallbackFingerprint]. *)
Theorem collect_sentinels (win : Window) :
  (unguarded_probes_return win = true ->
   exists c,
     collectFingerprintComponents win = Returns c
     /\ canvasHash c = match canvas_probe win with
                       | Returns h => h
                       | Throws _ => "canvas_not_supported"%string
                       end
     /\ (webgl_available win = false -> webglVendor c = None /\ webglRenderer c = None)
     /\ (returns (battery_probe win) = false -> batteryInfo c = None)
     /\ (returns (connection_probe win) = false -> connectionType c = None))
  /\ (unguarded_probes_return win = false ->
      exists e,
        first_unguarded_throw win = Some e
        /\ collectFingerprintComponents win = Throws e
        /\ generateBrowserFingerprint win = generateFallbackFingerprint win).
Proof.
  split.
  - unfold unguarded_probes_return. rewrite !andb_true_iff.
    intros ((((((((H1 & H2) & H3) & H4) & H5) & H6) & H7) & H8) & H9).
    unfold collectFingerprintComponents, detectAudioCodecs, detectVideoCodecs,
      detectFonts, benchmarkPerformance, detectAdBlocker, getPluginsInfo,
      getBatteryInfo, getConnectionType.
    rewrite generateCanvasFingerprint_returns.
    destruct (Intl_timeZone win); [|discriminate].
    destruct (window_localStorage win); [|discriminate].
    destruct (window_sessionStorage win); [|discriminate].
    destruct (window_indexedDB win); [|discriminate].
    destruct (audioCodecs_probe win); [|discriminate].
    destruct (videoCodecs_probe win); [|discriminate].
    destruct (fonts_probe win); [|discriminate].
    destruct (benchmark_probe win); [|discriminate].
    destruct (adBlocker_probe win); [|discriminate].
    cbn [obind].
    destruct (getWebGLInfo_returns win) as [info Hinfo]. rewrite Hinfo.
    destruct (battery_probe win) eqn:Hb, (connection_probe win) eqn:Hc;
      cbn [obind otry returns];
      (eexists; split; [reflexivity|]; split; [reflexivity|]; split;
       [intros Hw; rewrite (getWebGLInfo_unavailable win Hw) in Hinfo;
        injection Hinfo as <-; by split
       |split; intros; by try discriminate]).
  - intros H. destruct (unguarded_probes_throw win H) as [e He].
    pose proof (collect_first_throw win e He) as Hc.
    exists e. split; [exact He|]. split; [exact Hc|].
    exact (generateBrowserFingerprint_falls_back win e Hc).
Qed.

(** C9, two instances: a headless browser without canvas and WebGL; and
    the failing input, a browser with storage refused, where the read of
    [window.localStorage] throws although canvas and WebGL work. *)
Lemma collect_sentinels_witness :
  (unguarded_probes_return headless_window = true
   /\ exists c,
        collectFingerprintComponents headless_window = Returns c
        /\ canvasHash c = "canvas_not_supported"%string
        /\ webglVendor c = None /\ webglRenderer c = None)
  /\ (unguarded_probes_return storage_refused_window = false
      /\ generateCanvasFingerprint storage_refused_window = Returns "5f2a"%string
      /\ webgl_available storage_refused_window = true
      /\ collectFingerprintComponents storage_refused_window = Throws DOMException).
Proof.
  split.
  - split; [reflexivity|].
    destruct (proj1 (collect_sentinels headless_window) eq_refl)
      as (c & Hc & Hcanvas & Hgl & _).
    exists c. split; [exact Hc|]. split; [exact Hcanvas|]. exact (Hgl eq_refl).
  - split; [reflexivity|]. split; [reflexivity|]. split; [reflexivity|].
    destruct (proj2 (collect_sentinels storage_refused_window) eq_refl)
      as (e & He & Hc & _).
    injection He as <-. exact Hc.
Defined.

(** C6. Where the storage getters return, [hasTooManySuspiciousPatterns]
    returns true exactly when the points (one per full-weight condition
    that holds, half a point for a whole pixel ratio) over the fixed
    denominator 8 exceed 0.4. With the pixel-ratio check not triggered and
    every triggered check weighing 1, four triggered checks give 0.5 and
    true; three give 0.375 and false. *)
Theorem suspicious_ratio_threshold (win : Window) (fp : Components) (sm : bool) :
  storage_missing win = Returns sm ->
  let ratio := suspicious_ratio win fp sm in
  let checks := triggered (full_weight_checks win fp sm) in
  (hasTooManySuspiciousPatterns win fp = Returns true <-> (4 # 10 < ratio)%Q)
  /\ (hasTooManySuspiciousPatterns win fp = Returns false <-> (ratio <= 4 # 10)%Q)
  /\ (pixel_ratio_whole win = false -> ua_counts_twice win = false -> checks = 4%nat ->
      (ratio == 1 # 2)%Q /\ hasTooManySuspiciousPatterns win fp = Returns true)
  /\ (pixel_ratio_whole win = false -> ua_counts_twice win = false -> checks = 3%nat ->
      (ratio == 3 # 8)%Q /\ hasTooManySuspiciousPatterns win fp = Returns false).
Proof.
  intros Hs ratio checks.
  set (n := triggered (full_weight_triggers win fp sm)).
  pose proof (hasTooManySuspiciousPatterns_ratio win fp sm Hs) as Hr.
  fold ratio in Hr.
  assert (Ht : hasTooManySuspiciousPatterns win fp = Returns true <-> (4 # 10 < ratio)%Q).
  { rewrite Hr. split.
    - intros [= H]. apply negb_true_iff in H. apply Qnot_le_lt.
      rewrite <- Qle_bool_iff. by rewrite H.
    - intros H. f_equal. apply negb_true_iff. apply not_true_iff_false.
      rewrite Qle_bool_iff. by apply Qlt_not_le. }
  assert (Hf : hasTooManySuspiciousPatterns win fp = Returns false <-> (ratio <= 4 # 10)%Q).
  { rewrite Hr. split.
    - intros [= H]. apply negb_false_iff in H. by apply Qle_bool_iff.
    - intros H. f_equal. apply negb_false_iff. by apply Qle_bool_iff. }
  split; [exact Ht|]. split; [exact Hf|].
  assert (Hratio : pixel_ratio_whole win = false ->
                   (ratio == inject_Z (Z.of_nat n) / 8)%Q).
  { intros Hp. unfold ratio, suspicious_ratio, suspicious_points. fold n.
    rewrite Hp. by rewrite Qplus_0_r. }
  split; intros Hp Hua Hn; specialize (Hratio Hp);
    unfold n in Hratio; rewrite (checks_are_conditions win fp sm Hua) in Hratio;
    fold checks in Hratio; rewrite Hn in Hratio.
  - split; [by rewrite Hratio|]. apply Ht. by rewrite Hratio.
  - split; [by rewrite Hratio|]. apply Hf. by rewrite Hratio.
Qed.

(** C6, two instances: four full-weight conditions, and three. *)
Lemma suspicious_ratio_threshold_witness :
  storage_missing (bare_window 0) = Returns false
  /\ pixel_ratio_whole (bare_window 0) = false
  /\ ua_counts_twice (bare_window 0) = false
  /\ triggered (full_weight_checks (bare_window 0) bare_components false) = 4%nat
  /\ ((suspicious_ratio (bare_window 0) bare_components false == 1 # 2)%Q
      /\ hasTooManySuspiciousPatterns (bare_window 0) bare_components = Returns true)
  /\ triggered (full_weight_checks (bare_window 3) bare_components false) = 3%nat
  /\ ((suspicious_ratio (bare_window 3) bare_components false == 3 # 8)%Q
      /\ hasTooManySuspiciousPatterns (bare_window 3) bare_components = Returns false).
Proof.
  split; [reflexivity|]. split; [reflexivity|]. split; [reflexivity|].
  split; [reflexivity|]. split.
  - destruct (suspicious_ratio_threshold (bare_window 0) bare_components false eq_refl)
      as (_ & _ & H4 & _).
    exact (H4 eq_refl eq_refl eq_refl).
  - split; [reflexivity|].
    destruct (suspicious_ratio_threshold (bare_window 3) bare_components false eq_refl)
      as (_ & _ & _ & H3).
    exact (H3 eq_refl eq_refl eq_refl).
Defined.

(** The user-agent check can weigh 2: with a user agent naming Chrome and
    Firefox and neither [window.chrome] nor [InstallTrigger], three
    triggered checks make four points, a ratio of 0.5, and the answer
    true. *)
Example double_mismatch_counts_twice :
  storage_missing spoofed_window = Returns false
  /\ pixel_ratio_whole spoofed_window = false
  /\ ua_counts_twice spoofed_window = true
  /\ triggered (full_weight_checks spoofed_window spoofed_components false) = 3%nat
  /\ (suspicious_ratio spoofed_window spoofed_components false == 1 # 2)%Q
  /\ hasTooManySuspiciousPatterns spoofed_window spoofed_components = Returns true.
Proof. repeat split. Qed.

End SignalsAndScore.

(** ** The blacklist store: invariants *)

Module StoreInvariantFacts.
Import Store StoreFacts StoreInvariant.

(** The in-memory map after [recordFailedAttempt]: the record of the
    client is created, advanced or deleted; nothing else moves. *)
Lemma recordFailedAttempt_attempts why w :
  identified w ->
  exists w' t0 t1,
    runs (recordFailedAttempt why) w (Returns tt) w'
    /\ same_browser w w'
    /\ failedAttempts w' =
       match failedAttempts w !! clientIdentifier w with
       | None =>
           <[clientIdentifier w := noted why t1 (mkAttempt 0 [] t0)]> (failedAttempts w)
       | Some r =>
           if decide (count r + 1 < maxFailedAttempts)
           then <[clientIdentifier w := noted why t1 r]> (failedAttempts w)
           else delete (clientIdentifier w) (failedAttempts w)
       end.
Proof.
  intros Hw.
  destruct (failedAttempts w !! clientIdentifier w) as [r|] eqn:Hid.
  - destruct (decide (count r + 1 < maxFailedAttempts)) as [Hlt|Hge].
    + eexists _, 0, _. split; [by apply recordFailedAttempt_next|]. split.
      * eapply same_browser_trans; [|apply saved_same_browser]. by repeat split.
      * by rewrite saved_failedAttempts.
    + destruct (addToBlacklist_frame (clientIdentifier w)
                  (reasons (noted why (clock w) r))
                  (with_failedAttempts (tick w)
                     (<[clientIdentifier w := noted why (clock w) r]> (failedAttempts w))))
        as (w2 & Hrun & Hfa & _ & Hsb).
      eexists _, 0, 0.
      split; [eapply recordFailedAttempt_escalates; [done|done|lia|exact Hrun]|].
      split.
      * eapply same_browser_trans; [|apply saved_same_browser].
        destruct Hsb as (a1 & a2 & a3 & a4 & a5). by repeat split.
      * rewrite saved_failedAttempts. cbn. rewrite Hfa. cbn.
        by rewrite delete_insert_eq.
  - eexists _, _, _. split; [by apply recordFailedAttempt_first|]. split.
    + eapply same_browser_trans; [|apply saved_same_browser]. by repeat split.
    + by rewrite saved_failedAttempts.
Qed.

Lemma live_noted why t r :
  live_record r \/ r = mkAttempt 0 [] (firstAttempt r) ->
  count r + 1 < maxFailedAttempts ->
  live_record (noted why t r).
Proof.
  unfold live_record, noted, maxFailedAttempts. cbn.
  intros [[Hc Hl]| ->] Hlt; rewrite length_app; cbn; lia.
Qed.

(** [addToBlacklist] writes the entry of its client only. *)
Lemma addToBlacklist_other id rs w other :
  other <> id ->
  persisted_entry (world_of (addToBlacklist id rs w)) other = persisted_entry w other.
Proof.
  intros Hne. unfold persisted_entry.
  destruct (readable_blacklist (localStorage w)) as [bl|] eqn:Hr.
  - destruct (setItem_throws (localStorage w)) eqn:Hs.
    + rewrite (runs_world _ _ _ _ (addToBlacklist_unwritable id rs bl w Hr Hs)).
      cbn. by rewrite Hr.
    + rewrite (runs_world _ _ _ _ (runs_addToBlacklist id rs bl w Hr Hs)).
      unfold listed, readable_blacklist in *. cbn.
      destruct (getItem_throws (localStorage w)); [discriminate|].
      by rewrite lookup_insert_ne.
  - rewrite (runs_world _ _ _ _ (addToBlacklist_unreadable id rs w Hr)). by rewrite Hr.
Qed.

Lemma three_attempts_world why w bl :
  identified w ->
  failedAttempts w !! clientIdentifier w = None ->
  readable_blacklist (localStorage w) = Some bl ->
  setItem_throws (localStorage w) = false ->
  let w3 := world_of (repeatFailedAttempt 3 why w) in
  exists e,
    readable_blacklist (localStorage w3) = Some (<[clientIdentifier w := e]> bl)
    /\ expires e = clock w3 - nth 5 (ticks w) 0 + blacklistDuration * 1000
    /\ same_browser w w3
    /\ In (clientIdentifier w) (blacklistedIPs w3).
Proof.
  intros Hx H Hbl Hw w3.
  destruct (two_attempts why w Hx H)
    as (v2 & r2 & R2 & Hr2 & Hc2 & Hl2 & Hid2 & Ht2 & Hrd2 & Hst2 & Hx2 & _).
  assert (Hr2' : failedAttempts v2 !! clientIdentifier v2 = Some r2) by (by rewrite Hid2).
  assert (Hge : count r2 + 1 >= maxFailedAttempts) by (unfold maxFailedAttempts; lia).
  set (pre := with_failedAttempts (tick v2)
                (<[clientIdentifier v2 := noted why (clock v2) r2]> (failedAttempts v2))).
  assert (Hpre_r : readable_blacklist (localStorage pre) = Some bl)
    by (unfold pre; cbn; by rewrite Hrd2).
  assert (Hpre_w : setItem_throws (localStorage pre) = false)
    by (unfold pre; cbn; by rewrite Hst2).
  pose proof (runs_addToBlacklist (clientIdentifier v2)
                (reasons (noted why (clock v2) r2)) bl pre Hpre_r Hpre_w) as Hv.
  pose proof (recordFailedAttempt_escalates why v2 r2 _ Hx2 Hr2' Hge Hv) as R3.
  assert (R : runs (repeatFailedAttempt 3 why) w (Returns tt)
                (saved (with_failedAttempts
                          (listed (clientIdentifier v2) (reasons (noted why (clock v2) r2)) bl pre)
                          (delete (clientIdentifier v2)
                             (failedAttempts
                                (listed (clientIdentifier v2)
                                   (reasons (noted why (clock v2) r2)) bl pre)))))).
  { change (repeatFailedAttempt 3 why)
      with (bind (recordFailedAttempt why)
              (fun _ => bind (recordFailedAttempt why)
                 (fun _ => bind (recordFailedAttempt why) (fun _ => ret tt)))).
    assert (R2' : runs (bind (recordFailedAttempt why)
                      (fun _ => bind (recordFailedAttempt why) (fun _ => ret tt)))
                    w (Returns tt) v2) by exact R2.
    unfold runs, bind in R2' |- *.
    destruct (recordFailedAttempt why w) as [[[]|e1] u1]; [|discriminate].
    destruct (recordFailedAttempt why u1) as [[[]|e2] u2]; [|discriminate].
    injection R2' as <-. unfold runs in R3. by rewrite R3. }
  unfold w3. rewrite (runs_world _ _ _ _ R).
  eexists. split; [|split; [|split]].
  - rewrite saved_readable. cbn. unfold readable_blacklist in Hpre_r |- *.
    cbn in Hpre_r |- *. rewrite <- Hid2.
    destruct (getItem_throws (localStorage v2)); [discriminate|reflexivity].
  - rewrite (proj1 (saved_clock _)). cbn. rewrite Ht2.
    destruct (ticks w) as [|? [|? [|? [|? [|? [|? ?]]]]]]; cbn; lia.
  - assert (Hsb2 : same_browser w v2).
    { clear -R2 H Hx. revert R2.
      change (repeatFailedAttempt 2 why)
        with (bind (recordFailedAttempt why)
                (fun _ => bind (recordFailedAttempt why) (fun _ => ret tt))).
      unfold runs, bind.
      destruct (recordFailedAttempt_total why w Hx) as (u1 & Hu1 & _ & Hs1).
      unfold runs in Hu1. rewrite Hu1.
      assert (Hx1 : identified u1).
      { destruct Hs1 as (_ & _ & _ & _ & E). unfold identified. by rewrite E. }
      destruct (recordFailedAttempt_total why u1 Hx1) as (u2 & Hu2 & _ & Hs2).
      unfold runs in Hu2. rewrite Hu2. intros [= <-].
      by eapply same_browser_trans. }
    eapply same_browser_trans; [exact Hsb2|].
    eapply same_browser_trans; [|apply saved_same_browser].
    unfold same_browser. cbn. cbn in Hpre_w. by rewrite Hpre_w.
  - rewrite <- Hid2. unfold saved. 
    destruct (setItem_throws _); cbn; apply in_or_app; right; by left.
Qed.

Lemma cleanup_persisted w bl :
  readable_blacklist (localStorage w) = Some bl ->
  let w' := world_of (cleanupExpiredEntries w) in
  (readable_blacklist (localStorage w') = Some bl
   \/ readable_blacklist (localStorage w') = Some (unexpired (clock w) bl))
  /\ clock w' = clock w + hd 0 (ticks w)
  /\ same_browser w w'
  /\ failedAttempts w' = failedAttempts w.
Proof.
  intros Hr w'. subst w'.
  destruct (decide (map_Forall (fun _ e => ~ (expires e < clock w)) bl)) as [Ha|Ha].
  - rewrite (runs_world _ _ _ _ (cleanup_nothing_due w bl Hr Ha)).
    split; [by left|by repeat split].
  - destruct (setItem_throws (localStorage w)) eqn:Hs.
    + rewrite (runs_world _ _ _ _ (cleanup_cannot_write w bl Hr Ha Hs)).
      split; [by left|by repeat split].
    + rewrite (runs_world _ _ _ _ (cleanup_sweeps w bl Hr Ha Hs)).
      split; [right|by repeat split].
      unfold swept, readable_blacklist in *. cbn.
      by destruct (getItem_throws (localStorage w)).
Qed.

(** The persisted blacklist and the clock after a page load. *)
Lemma pageLoad_persisted w bl :
  readable_blacklist (localStorage w) = Some bl ->
  let w' := world_of (pageLoad w) in
  (readable_blacklist (localStorage w') = Some bl
   \/ readable_blacklist (localStorage w') = Some (unexpired (clock w) bl))
  /\ clock w' = clock w + hd 0 (ticks w)
  /\ same_browser w w'.
Proof.
  intros Hr w'. subst w'.
  pose proof (loadBlacklist_readable (freshPage w) bl Hr) as Hl.
  set (w1 := with_blacklistedIPs (freshPage w) (map_to_list bl).*1) in Hl.
  assert (Hr1 : readable_blacklist (localStorage w1) = Some bl) by exact Hr.
  destruct (cleanup_persisted w1 bl Hr1) as (Hp & Hc & Hsb & _).
  destruct (cleanup_frame w1) as (w2 & Hrun & _).
  assert (E : world_of (pageLoad w) = world_of (cleanupExpiredEntries w1)).
  { unfold pageLoad, init, world_of, bind. unfold runs in Hl. by rewrite Hl. }
  rewrite E. split; [exact Hp|]. split; [exact Hc|]. exact Hsb.
Qed.

End StoreInvariantFacts.

(** ** The blacklist store: what the code keeps *)

Section BlacklistStoreInvariants.
Import Store StoreFacts StoreInvariant StoreInvariantFacts Scenarios.

(** X1. [recordFailedAttempt] keeps the in-memory records live: every
    record has between 1 and [maxFailedAttempts - 1] attempts and as many
    reasons as attempts. *)
Theorem recordFailedAttempt_keeps_records_live (why : string) (w : World) :
  live_attempts w ->
  live_attempts (world_of (recordFailedAttempt why w)).
Proof.
  intros Hinv.
  destruct (wideCharacters w) eqn:Hx;
    [by rewrite (runs_world _ _ _ _ (recordFailedAttempt_wide why w Hx))|].
  destruct (recordFailedAttempt_attempts why w Hx) as (w' & t0 & t1 & Hrun & _ & Hfa).
  rewrite (runs_world _ _ _ _ Hrun). unfold live_attempts. rewrite Hfa.
  destruct (failedAttempts w !! clientIdentifier w) as [r|] eqn:Hid.
  - destruct (decide (count r + 1 < maxFailedAttempts)) as [Hlt|Hge].
    + apply map_Forall_insert_2; [|exact Hinv].
      apply live_noted; [left; exact (Hinv _ _ Hid)|exact Hlt].
    + by apply map_Forall_delete.
  - apply map_Forall_insert_2; [|exact Hinv].
    apply live_noted; [by right|unfold maxFailedAttempts; cbn; lia].
Qed.

Lemma recordFailedAttempt_keeps_records_live_witness :
  live_attempts one_attempt_world
  /\ live_attempts (world_of (recordFailedAttempt "no_interactions" one_attempt_world)).
Proof.
  assert (H : live_attempts one_attempt_world).
  { apply map_Forall_singleton. split; [vm_compute; intuition discriminate|reflexivity]. }
  split; [exact H|].
  exact (recordFailedAttempt_keeps_records_live "no_interactions" one_attempt_world H).
Defined.

(** X2. [recordFailedAttempt] touches the current client only: the
    in-memory record and the persisted blacklist entry of any other
    identifier are what they were. *)
Theorem recordFailedAttempt_other_clients (why : string) (w : World) (other : string) :
  other <> clientIdentifier w ->
  let w' := world_of (recordFailedAttempt why w) in
  failedAttempts w' !! other = failedAttempts w !! other
  /\ persisted_entry w' other = persisted_entry w other.
Proof.
  intros Hne w'. subst w'.
  destruct (wideCharacters w) eqn:Hx;
    [by rewrite (runs_world _ _ _ _ (recordFailedAttempt_wide why w Hx))|].
  split.
  - destruct (recordFailedAttempt_attempts why w Hx) as (w' & t0 & t1 & Hrun & _ & Hfa).
    rewrite (runs_world _ _ _ _ Hrun), Hfa.
    destruct (failedAttempts w !! clientIdentifier w) as [r|];
      [destruct (decide (count r + 1 < maxFailedAttempts))|].
    + by rewrite lookup_insert_ne.
    + by rewrite lookup_delete_ne.
    + by rewrite lookup_insert_ne.
  - destruct (failedAttempts w !! clientIdentifier w) as [r|] eqn:Hid.
    + destruct (decide (count r + 1 < maxFailedAttempts)) as [Hlt|Hge].
      * rewrite (runs_world _ _ _ _ (recordFailedAttempt_next why w r Hx Hid Hlt)).
        unfold persisted_entry. by rewrite saved_readable.
      * set (pre := with_failedAttempts (tick w)
                      (<[clientIdentifier w := noted why (clock w) r]> (failedAttempts w))).
        pose proof (addToBlacklist_other (clientIdentifier w)
                      (reasons (noted why (clock w) r)) pre other Hne) as Hadd.
        destruct (addToBlacklist_frame (clientIdentifier w)
                    (reasons (noted why (clock w) r)) pre) as (w2 & Hrun & _).
        rewrite (runs_world _ _ _ _ Hrun) in Hadd.
        assert (Hge' : count r + 1 >= maxFailedAttempts) by lia.
        rewrite (runs_world _ _ _ _
                   (recordFailedAttempt_escalates why w r w2 Hx Hid Hge' Hrun)).
        unfold persisted_entry in *. rewrite saved_readable. exact Hadd.
    + rewrite (runs_world _ _ _ _ (recordFailedAttempt_first why w Hx Hid)).
      unfold persisted_entry. by rewrite saved_readable.
Qed.

Lemma recordFailedAttempt_other_clients_witness :
  curl_id <> clientIdentifier two_clients_world
  /\ failedAttempts (world_of (recordFailedAttempt "no_interactions" two_clients_world))
       !! curl_id
     = failedAttempts two_clients_world !! curl_id
  /\ persisted_entry (world_of (recordFailedAttempt "no_interactions" two_clients_world))
       curl_id
     = persisted_entry two_clients_world curl_id.
Proof.
  assert (H : curl_id <> clientIdentifier two_clients_world) by discriminate.
  split; [exact H|].
  exact (recordFailedAttempt_other_clients "no_interactions" two_clients_world curl_id H).
Defined.

(** X3. Three failed attempts of a new client that has an identifier and
    a clean user agent, on a store that can be read and written, make the
    next [checkBlacklist] answer "blacklisted", as long as less than the
    blacklist duration passes between the write of the entry and the
    check. *)
Theorem three_strikes_then_blacklisted (why : string) (w : World)
    (bl : gmap string BlacklistEntry) :
  identified w ->
  failedAttempts w !! clientIdentifier w = None ->
  readable_blacklist (localStorage w) = Some bl ->
  setItem_throws (localStorage w) = false ->
  matches knownBotSignatures w = false ->
  matches securityTools w = false ->
  nth 5 (ticks w) 0 < blacklistDuration * 1000 ->
  result_of (checkBlacklist (world_of (repeatFailedAttempt 3 why w)))
  = Returns (mkVerdict true (Some "blacklisted"%string)).
Proof.
  intros Hx H Hbl Hw Hb Ht Htick.
  destruct (three_attempts_world why w bl Hx H Hbl Hw) as (e & Hr & He & Hsb & _).
  set (w3 := world_of (repeatFailedAttempt 3 why w)) in *.
  destruct Hsb as (Hua & Hid & _ & _ & Hwide).
  assert (Hx3 : identified w3) by (unfold identified; by rewrite Hwide).
  assert (Hb3 : matches knownBotSignatures w3 = false) by (unfold matches; by rewrite Hua).
  assert (Ht3 : matches securityTools w3 = false) by (unfold matches; by rewrite Hua).
  assert (Hlk : (<[clientIdentifier w := e]> bl) !! clientIdentifier w3 = Some e)
    by (rewrite Hid; apply lookup_insert_eq).
  pose proof (isClientBlacklisted_entry _ w3 _ e Hr Hlk) as Hrun.
  rewrite bool_decide_eq_true_2 in Hrun by lia.
  exact (runs_result _ _ _ _ (checkBlacklist_lookup w3 true _ Hx3 Hb3 Ht3 Hrun)).
Qed.

Lemma three_strikes_then_blacklisted_witness :
  identified ticking_world
  /\ nth 5 (ticks ticking_world) 0 < blacklistDuration * 1000
  /\ result_of (checkBlacklist
                  (world_of (repeatFailedAttempt 3 "honeypot_filled" ticking_world)))
     = Returns (mkVerdict true (Some "blacklisted"%string)).
Proof.
  assert (H : nth 5 (ticks ticking_world) 0 < blacklistDuration * 1000) by reflexivity.
  split; [reflexivity|]. split; [exact H|].
  exact (three_strikes_then_blacklisted "honeypot_filled" ticking_world ∅
           eq_refl eq_refl eq_refl eq_refl eq_refl eq_refl H).
Defined.

(** X4. [cleanupExpiredEntries] never removes an entry that has not
    expired and never adds or alters one, whatever the storage does: an
    entry present afterwards was present before, and an entry with
    [expires >= now] is still there. *)
Theorem cleanup_keeps_unexpired (w : World) (id : string) (e : BlacklistEntry) :
  let w' := world_of (cleanupExpiredEntries w) in
  (persisted_entry w' id = Some e -> persisted_entry w id = Some e)
  /\ (persisted_entry w id = Some e -> expires e >= clock w ->
      persisted_entry w' id = Some e).
Proof.
  intros w'. subst w'. unfold persisted_entry.
  destruct (readable_blacklist (localStorage w)) as [bl|] eqn:Hr.
  - destruct (cleanup_persisted w bl Hr) as ([-> | ->] & _); [done|].
    unfold unexpired. split.
    + intros H. by apply map_lookup_filter_Some in H as [H _].
    + intros H He. apply map_lookup_filter_Some. split; [done|]. cbn. lia.
  - rewrite (runs_world _ _ _ _ (cleanup_unreadable w Hr)). by rewrite Hr.
Qed.

Lemma cleanup_keeps_unexpired_witness :
  persisted_entry listed_browser_world plain_id = Some listed_entry
  /\ expires listed_entry >= clock listed_browser_world
  /\ persisted_entry (world_of (cleanupExpiredEntries listed_browser_world)) plain_id
     = Some listed_entry.
Proof.
  assert (H : expires listed_entry >= clock listed_browser_world)
    by (vm_compute; discriminate).
  split; [reflexivity|]. split; [exact H|].
  exact (proj2 (cleanup_keeps_unexpired listed_browser_world plain_id listed_entry)
           eq_refl H).
Defined.

(** X5. Unlike the attempt counts, a blacklist entry survives a page
    load: a client with an identifier and a clean user agent whose entry
    is unexpired at the cleanup and at the check is answered "blacklisted"
    by the [checkBlacklist] of the new page. *)
Theorem blacklisted_across_page_load (w : World) (bl : gmap string BlacklistEntry)
    (e : BlacklistEntry) :
  identified w ->
  readable_blacklist (localStorage w) = Some bl ->
  bl !! clientIdentifier w = Some e ->
  matches knownBotSignatures w = false ->
  matches securityTools w = false ->
  expires e >= clock w ->
  expires e > clock w + hd 0 (ticks w) ->
  result_of (checkBlacklist (world_of (pageLoad w)))
  = Returns (mkVerdict true (Some "blacklisted"%string)).
Proof.
  intros Hx Hr Hid Hb Ht He1 He2.
  destruct (pageLoad_persisted w bl Hr) as (Hp & Hc & Hua & Hcid & _ & _ & Hwide).
  set (w' := world_of (pageLoad w)) in *.
  assert (Hx' : identified w') by (unfold identified; by rewrite Hwide).
  assert (Hb' : matches knownBotSignatures w' = false) by (unfold matches; by rewrite Hua).
  assert (Ht' : matches securityTools w' = false) by (unfold matches; by rewrite Hua).
  assert (Hentry : exists bl', readable_blacklist (localStorage w') = Some bl'
                               /\ bl' !! clientIdentifier w' = Some e).
  { rewrite Hcid. destruct Hp as [Hp|Hp]; eexists; (split; [exact Hp|]); [done|].
    unfold unexpired. apply map_lookup_filter_Some. split; [done|]. cbn. lia. }
  destruct Hentry as (bl' & Hr' & Hid').
  pose proof (isClientBlacklisted_entry _ w' bl' e Hr' Hid') as Hrun.
  rewrite bool_decide_eq_true_2 in Hrun by lia.
  exact (runs_result _ _ _ _ (checkBlacklist_lookup w' true _ Hx' Hb' Ht' Hrun)).
Qed.

Lemma blacklisted_across_page_load_witness :
  identified listed_browser_world
  /\ expires listed_entry > clock listed_browser_world + hd 0 (ticks listed_browser_world)
  /\ result_of (checkBlacklist (world_of (pageLoad listed_browser_world)))
     = Returns (mkVerdict true (Some "blacklisted"%string)).
Proof.
  assert (H1 : expires listed_entry >= clock listed_browser_world)
    by (vm_compute; discriminate).
  assert (H2 : expires listed_entry
               > clock listed_browser_world + hd 0 (ticks listed_browser_world))
    by reflexivity.
  split; [reflexivity|]. split; [exact H2|].
  exact (blacklisted_across_page_load listed_browser_world {[ plain_id := listed_entry ]}
           listed_entry eq_refl eq_refl eq_refl eq_refl eq_refl H1 H2).
Defined.

(** X6. Saving and then loading the attempts gives the in-memory map back
    when the store can be written and read; when the read throws, loading
    empties the map. *)
Theorem save_then_load_attempts (w : World) :
  let w' := world_of (loadFailedAttempts (world_of (saveFailedAttempts w))) in
  (getItem_throws (localStorage w) = false -> setItem_throws (localStorage w) = false ->
   failedAttempts w' = failedAttempts w)
  /\ (getItem_throws (localStorage w) = true -> failedAttempts w' = ∅).
Proof.
  intros w'. subst w'.
  rewrite (runs_world _ _ _ _ (runs_saveFailedAttempts w)).
  split.
  - intros Hg Hs.
    assert (Hg' : getItem_throws (localStorage (saved w)) = false).
    { unfold saved. rewrite Hs. exact Hg. }
    rewrite (runs_world _ _ _ _
               (loadFailedAttempts_restores (saved w) (failedAttempts w) Hg'
                  (saved_persists w Hs))).
    reflexivity.
  - intros Hg.
    assert (Hg' : getItem_throws (localStorage (saved w)) = true).
    { unfold saved. destruct (setItem_throws (localStorage w)); exact Hg. }
    unfold loadFailedAttempts, try_catch, bind, parse_captcha_failed_attempts, world_of.
    rewrite Hg'. reflexivity.
Qed.

Lemma save_then_load_attempts_witness :
  failedAttempts
    (world_of (loadFailedAttempts (world_of (saveFailedAttempts one_attempt_world))))
  = failedAttempts one_attempt_world
  /\ failedAttempts
       (world_of (loadFailedAttempts (world_of (saveFailedAttempts storeless_world))))
     = ∅.
Proof.
  split.
  - exact (proj1 (save_then_load_attempts one_attempt_world) eq_refl eq_refl).
  - exact (proj2 (save_then_load_attempts storeless_world) eq_refl).
Defined.

(** X7. For a browser that has an identifier, [checkBlacklist] returns,
    and its verdict is a function of the user agent, the readable
    persisted entry of the client and the clock: bot signatures first,
    then security tools, then an unexpired entry; otherwise the visitor
    is not blocked, which includes every case where the store cannot be
    read. For a browser without an identifier, [btoa] rejecting the text,
    [checkBlacklist] throws [InvalidCharacterError]. *)
Theorem checkBlacklist_verdict (w : World) :
  result_of (checkBlacklist w) =
  if wideCharacters w then Throws InvalidCharacterError
  else
    Returns
      (if matches knownBotSignatures w then mkVerdict true (Some "known_bot"%string)
       else if matches securityTools w then mkVerdict true (Some "security_tool"%string)
       else match persisted_entry w (clientIdentifier w) with
            | Some e =>
                if bool_decide (expires e > clock w)
                then mkVerdict true (Some "blacklisted"%string)
                else mkVerdict false None
            | None => mkVerdict false None
            end).
Proof.
  destruct (wideCharacters w) eqn:Hx;
    [exact (runs_result _ _ _ _ (checkBlacklist_wide w Hx))|].
  destruct (matches knownBotSignatures w) eqn:Hb.
  - destruct (recordFailedAttempt_total "known_bot_useragent" w Hx) as (v & Hrec & _).
    exact (runs_result _ _ _ _ (checkBlacklist_known_bot w v Hb Hrec)).
  - destruct (matches securityTools w) eqn:Ht.
    + destruct (recordFailedAttempt_total "security_tool_detected" w Hx) as (v & Hrec & _).
      exact (runs_result _ _ _ _ (checkBlacklist_security_tool w v Hb Ht Hrec)).
    + unfold persisted_entry.
      destruct (readable_blacklist (localStorage w)) as [bl|] eqn:Hr.
      * destruct (bl !! clientIdentifier w) as [e|] eqn:Hid.
        -- rewrite (runs_result _ _ _ _
                      (checkBlacklist_lookup w _ _ Hx Hb Ht
                         (isClientBlacklisted_entry _ w bl e Hr Hid))).
           reflexivity.
        -- exact (runs_result _ _ _ _
                    (checkBlacklist_lookup w false _ Hx Hb Ht
                       (isClientBlacklisted_absent _ w bl Hr Hid))).
      * exact (runs_result _ _ _ _
                 (checkBlacklist_lookup w false _ Hx Hb Ht
                    (isClientBlacklisted_unreadable _ w Hr))).
Qed.

(** X8. After [loadBlacklist] the runtime list holds exactly the
    identifiers of the persisted blacklist, each once; it is empty when
    the store cannot be read. *)
Theorem loadBlacklist_lists_keys (w : World) :
  let l := blacklistedIPs (world_of (loadBlacklist w)) in
  NoDup l
  /\ (forall id, id ∈ l <-> is_Some (persisted_entry w id)).
Proof.
  intros l. subst l. unfold persisted_entry.
  destruct (readable_blacklist (localStorage w)) as [bl|] eqn:Hr.
  - rewrite (runs_world _ _ _ _ (loadBlacklist_readable w bl Hr)). cbn. split.
    + apply NoDup_fst_map_to_list.
    + intros id. rewrite list_elem_of_fmap. split.
      * intros ([k v] & -> & Hin). apply elem_of_map_to_list in Hin. by exists v.
      * intros [v Hv]. exists (id, v). split; [done|]. by apply elem_of_map_to_list.
  - rewrite (runs_world _ _ _ _ (loadBlacklist_unreadable w Hr)). cbn. split.
    + constructor.
    + intros id. split; [intros H; by apply elem_of_nil in H|intros [? ?]; discriminate].
Qed.

End BlacklistStoreInvariants.

(** ** URL fragments *)

Module FragmentFacts.
Import Fragment StrFacts.

Lemma sforall_app p (a b : string) :
  sforall p (String.append a b) = sforall p a && sforall p b.
Proof.
  induction a as [|c a IH]; [reflexivity|].
  rewrite append_cons. cbn [sforall]. rewrite IH. by rewrite andb_assoc.
Qed.

Lemma sforall_sfilter p (s : string) : sforall p (sfilter p s) = true.
Proof.
  induction s as [|c s IH]; [reflexivity|].
  cbn [sfilter]. destruct (p c) eqn:Hc; [|exact IH].
  cbn [sforall]. by rewrite Hc, IH.
Qed.

Lemma sfilter_id p (s : string) : sforall p s = true -> sfilter p s = s.
Proof.
  induction s as [|c s IH]; [reflexivity|].
  cbn [sforall sfilter]. intros [Hc Hs]%andb_prop. rewrite Hc. by rewrite IH.
Qed.

Lemma sforall_occurrences p c (s : string) :
  p c = false -> sforall p s = true -> occurrences c s = O.
Proof.
  intros Hc. induction s as [|a s IH]; [reflexivity|].
  cbn [sforall occurrences]. intros [Ha Hs]%andb_prop.
  destruct (Ascii.eqb a c) eqn:E; [|by apply IH].
  apply Ascii.eqb_eq in E. congruence.
Qed.

Lemma sforall_weaken (p q : ascii -> bool) (s : string) :
  (forall c, p c = true -> q c = true) -> sforall p s = true -> sforall q s = true.
Proof.
  intros Hpq. induction s as [|a s IH]; [reflexivity|].
  cbn [sforall]. intros [Ha Hs]%andb_prop. by rewrite (Hpq a Ha), IH.
Qed.

Lemma occurrences_app c (a b : string) :
  occurrences c (String.append a b) = (occurrences c a + occurrences c b)%nat.
Proof.
  induction a as [|x a IH]; [reflexivity|].
  rewrite append_cons. cbn [occurrences]. destruct (Ascii.eqb x c); lia.
Qed.

Lemma occurrences_before c (s : string) : occurrences c (before c s) = O.
Proof.
  induction s as [|a s IH]; [reflexivity|].
  cbn [before]. destruct (Ascii.eqb a c) eqn:E; [reflexivity|].
  cbn [occurrences]. by rewrite E.
Qed.

Lemma includes_occurrences c (s : string) :
  Str.includes s (String c EmptyString) = false -> occurrences c s = O.
Proof.
  induction s as [|a s IH]; [reflexivity|].
  cbn [Str.includes Str.startsWith occurrences].
  rewrite andb_true_r. intros [H1 H2]%orb_false_elim.
  rewrite Ascii.eqb_sym in H1. rewrite H1. by apply IH.
Qed.

Lemma length_append (a b : string) :
  String.length (String.append a b) = (String.length a + String.length b)%nat.
Proof.
  induction a as [|x a IH]; [reflexivity|].
  rewrite append_cons. cbn [String.length]. by rewrite IH.
Qed.

Lemma cut_first_spec c (s p q : string) :
  cut_first c s = Some (p, q) ->
  s = String.append p (String c q) /\ occurrences c p = O.
Proof.
  revert p. induction s as [|a s IH]; intros p; [discriminate|].
  cbn [cut_first]. destruct (Ascii.eqb a c) eqn:E.
  - apply Ascii.eqb_eq in E. intros [= <- <-]. by subst.
  - destruct (cut_first c s) as [[p' q']|]; [|discriminate].
    intros [= <- <-]. destruct (IH p' eq_refl) as [-> Ho].
    split; [reflexivity|]. cbn [occurrences]. by rewrite E.
Qed.

Lemma cut_first_app c (p q : string) :
  occurrences c p = O -> cut_first c (String.append p (String c q)) = Some (p, q).
Proof.
  induction p as [|a p IH].
  - intros _. rewrite append_nil. cbn [cut_first]. by rewrite Ascii.eqb_refl.
  - rewrite append_cons. cbn [occurrences cut_first].
    destruct (Ascii.eqb a c); [discriminate|]. intros H. by rewrite IH.
Qed.

Lemma cut_last_spec c (s p q : string) :
  cut_last c s = Some (p, q) ->
  s = String.append p (String c q) /\ occurrences c q = O.
Proof.
  revert p. induction s as [|a s IH]; intros p; [discriminate|].
  cbn [cut_last]. destruct (cut_last c s) as [[p' q']|] eqn:Hs.
  - intros [= <- <-]. destruct (IH p' eq_refl) as [-> Ho]. by split.
  - destruct (Ascii.eqb a c) eqn:E; [|discriminate].
    apply Ascii.eqb_eq in E. intros [= <- <-]. subst. split; [reflexivity|].
    clear IH. revert Hs. induction s as [|b s IH]; [reflexivity|].
    cbn [cut_last occurrences]. destruct (cut_last c s) as [[? ?]|]; [discriminate|].
    destruct (Ascii.eqb b c); [discriminate|]. intros _. by apply IH.
Qed.

Lemma cut_last_none c (s : string) : occurrences c s = O -> cut_last c s = None.
Proof.
  induction s as [|a s IH]; [reflexivity|].
  cbn [occurrences cut_last]. destruct (Ascii.eqb a c); [discriminate|].
  intros H. by rewrite IH.
Qed.

Lemma cut_last_app c (p q : string) :
  occurrences c q = O -> cut_last c (String.append p (String c q)) = Some (p, q).
Proof.
  intros Hq. induction p as [|a p IH].
  - rewrite append_nil. cbn [cut_last]. rewrite (cut_last_none c q Hq).
    by rewrite Ascii.eqb_refl.
  - rewrite append_cons. cbn [cut_last]. by rewrite IH.
Qed.

(** The classes of the patterns lie within what [sanitizeFragment] keeps;
    "#" does not. *)
Lemma email_local_kept c : email_local c = true -> kept c = true.
Proof. destruct c as [[] [] [] [] [] [] [] []]; by vm_compute. Qed.

Lemma email_domain_kept c : email_domain c = true -> kept c = true.
Proof. destruct c as [[] [] [] [] [] [] [] []]; by vm_compute. Qed.

Lemma letter_kept c : letter c = true -> kept c = true.
Proof. destruct c as [[] [] [] [] [] [] [] []]; by vm_compute. Qed.

Lemma identifier_char_kept c : identifier_char c = true -> kept c = true.
Proof. destruct c as [[] [] [] [] [] [] [] []]; by vm_compute. Qed.

Lemma nonempty_length (s : string) : nonempty s = true <-> (1 <= String.length s)%nat.
Proof. destruct s; cbn; split; (done || lia). Qed.

(** The matcher accepts the language of the pattern. *)
Lemma emailPattern_shape (s : string) : emailPattern s = true <-> email_shape s.
Proof.
  unfold emailPattern, email_shape. split.
  - destruct (cut_first "@" s) as [[l rest]|] eqn:Hf; [|discriminate].
    destruct (cut_first_spec _ _ _ _ Hf) as [-> _].
    destruct (cut_last "." rest) as [[d t]|] eqn:Hl;
      [|rewrite andb_false_r; discriminate].
    destruct (cut_last_spec _ _ _ _ Hl) as [-> _].
    rewrite !andb_true_iff.
    intros [[Hl1 Hl2] [[[Hd1 Hd2] Ht1] Ht2]].
    exists l, d, t. apply Nat.leb_le in Ht1. by repeat split.
  - intros (l & d & t & -> & Hl1 & Hl2 & Hd1 & Hd2 & Ht1 & Ht2).
    rewrite cut_first_app by (by apply (sforall_occurrences email_local)).
    rewrite cut_last_app by (by apply (sforall_occurrences letter)).
    rewrite Hl1, Hl2, Hd1, Hd2, Ht2. apply Nat.leb_le in Ht1. by rewrite Ht1.
Qed.

Lemma emailPattern_kept (s : string) :
  emailPattern s = true -> sforall kept s = true /\ (6 <= String.length s)%nat.
Proof.
  intros (l & d & t & -> & Hl1 & Hl2 & Hd1 & Hd2 & Ht1 & Ht2)%emailPattern_shape.
  split.
  - rewrite sforall_app. cbn [sforall]. rewrite sforall_app. cbn [sforall].
    rewrite (sforall_weaken _ _ _ email_local_kept Hl2),
      (sforall_weaken _ _ _ email_domain_kept Hd2),
      (sforall_weaken _ _ _ letter_kept Ht2).
    reflexivity.
  - apply nonempty_length in Hl1, Hd1.
    rewrite length_append. cbn [String.length]. rewrite length_append.
    cbn [String.length]. lia.
Qed.

Lemma sanitizeFragment_filter (s : string) : sanitizeFragment s = sfilter kept s.
Proof. by destruct s. Qed.

Lemma before_no_occurrence c (s : string) : occurrences c s = O -> before c s = s.
Proof.
  induction s as [|a s IH]; [reflexivity|].
  cbn [occurrences before]. destruct (Ascii.eqb a c); [discriminate|].
  intros H. by rewrite IH.
Qed.

(** A fragment for redirection starts with its only "#". *)
Lemma getRedirectFragment_hash (hash : string) :
  getRedirectFragment hash = EmptyString
  \/ exists t, getRedirectFragment hash = String "#" t /\ occurrences "#" t = O.
Proof.
  unfold getRedirectFragment, getFragment.
  destruct (negb (nonempty hash) || (String.length hash <=? 1)%nat); [by left|].
  destruct (nonempty (sanitizeFragment hash)); [right|by left].
  eexists. split; [reflexivity|].
  apply (sforall_occurrences kept); [reflexivity|].
  rewrite sanitizeFragment_filter. apply sforall_sfilter.
Qed.

(** With a fragment to carry, the destination is cut at its first "#". *)
Lemma appendFragmentToUrl_cut (hash baseUrl : string) :
  getRedirectFragment hash <> EmptyString ->
  appendFragmentToUrl hash baseUrl
  = String.append (before "#" baseUrl) (getRedirectFragment hash).
Proof.
  intros Hne. unfold appendFragmentToUrl.
  destruct (getRedirectFragment hash) as [|c t]; [done|]. cbn [nonempty negb].
  destruct (Str.includes baseUrl "#") eqn:Hi; [reflexivity|].
  by rewrite (before_no_occurrence _ _ (includes_occurrences _ _ Hi)).
Qed.

(** What [extractIdentifier] returns passes both patterns' classes. *)
Lemma extractIdentifier_some (hash id : string) :
  extractIdentifier hash = Some id ->
  id = substring1 hash /\ (4 <= String.length id)%nat /\ sforall kept id = true.
Proof.
  unfold extractIdentifier, getFragment.
  destruct (negb (nonempty hash) || (String.length hash <=? 1)%nat); [discriminate|].
  destruct (emailPattern (substring1 hash)) eqn:He.
  - intros [= <-]. destruct (emailPattern_kept _ He) as [Hk Hlen].
    split; [reflexivity|]. split; [lia|exact Hk].
  - destruct (identifierPattern (substring1 hash)) eqn:Hi; [|discriminate].
    intros [= <-]. unfold identifierPattern in Hi.
    apply andb_prop in Hi as [[Hc Hlo]%andb_prop Hhi].
    apply Nat.leb_le in Hlo. split; [reflexivity|]. split; [exact Hlo|].
    exact (sforall_weaken _ _ _ identifier_char_kept Hc).
Qed.

(** The identifier and the fragment agree. *)
Lemma identifier_fragment (content id : string) :
  extractIdentifier (String "#" content) = Some id ->
  getRedirectFragment (String "#" content) = String "#" id.
Proof.
  intros H. destruct (extractIdentifier_some _ _ H) as (Hid & Hlen & Hk).
  cbn [substring1] in Hid. subst id.
  unfold getRedirectFragment, getFragment. cbn [nonempty negb orb String.length].
  destruct content as [|c content]; [cbn in Hlen; lia|].
  cbn [String.length Nat.leb].
  assert (E : sanitizeFragment (String "#" (String c content)) = String c content).
  { rewrite sanitizeFragment_filter. cbn [sfilter].
    replace (kept "#") with false by (by vm_compute).
    change (sfilter kept (String c content) = String c content).
    by apply sfilter_id. }
  rewrite E. reflexivity.
Qed.

End FragmentFacts.

Section FragmentHandler.
Import Fragment FragmentFacts StrFacts.

(** X9. [sanitizeFragment] returns only letters, digits and "@._-+%"; it
    leaves a string of such characters as it is, and sanitizing twice is
    sanitizing once. *)
Theorem sanitizeFragment_kept (fragment : string) :
  sforall kept (sanitizeFragment fragment) = true
  /\ sanitizeFragment (sanitizeFragment fragment) = sanitizeFragment fragment
  /\ (sforall kept fragment = true -> sanitizeFragment fragment = fragment).
Proof.
  rewrite !sanitizeFragment_filter. split; [apply sforall_sfilter|]. split.
  - apply sfilter_id, sforall_sfilter.
  - apply sfilter_id.
Qed.

(** X10. [getRedirectFragment] returns the empty string or "#" followed by
    at least one character, all of them kept by [sanitizeFragment]: the
    result never holds a second "#". *)
Theorem getRedirectFragment_shape (hash : string) :
  getRedirectFragment hash = EmptyString
  \/ exists t, getRedirectFragment hash = String "#" t
               /\ nonempty t = true /\ sforall kept t = true
               /\ occurrences "#" t = O
               /\ t = sanitizeFragment hash.
Proof.
  unfold getRedirectFragment, getFragment.
  destruct (negb (nonempty hash) || (String.length hash <=? 1)%nat); [by left|].
  destruct (nonempty (sanitizeFragment hash)) eqn:Hn; [right|by left].
  exists (sanitizeFragment hash).
  assert (Hk : sforall kept (sanitizeFragment hash) = true)
    by (rewrite sanitizeFragment_filter; apply sforall_sfilter).
  repeat split; try done.
  by apply (sforall_occurrences kept).
Qed.

(** X11. [appendFragmentToUrl] returns the base URL unchanged when there is
    no fragment to carry; otherwise the base URL up to its first "#"
    followed by the fragment, so that the result holds exactly one "#". *)
Theorem appendFragmentToUrl_one_hash (hash baseUrl : string) :
  (getRedirectFragment hash = EmptyString -> appendFragmentToUrl hash baseUrl = baseUrl)
  /\ (getRedirectFragment hash <> EmptyString ->
      appendFragmentToUrl hash baseUrl
      = String.append (before "#" baseUrl) (getRedirectFragment hash)
      /\ occurrences "#" (appendFragmentToUrl hash baseUrl) = 1%nat).
Proof.
  split.
  - unfold appendFragmentToUrl. by intros ->.
  - intros Hne. rewrite (appendFragmentToUrl_cut hash baseUrl Hne).
    split; [reflexivity|].
    destruct (getRedirectFragment_hash hash) as [E|(t & E & Ho)]; [done|].
    rewrite E, occurrences_app, occurrences_before. cbn [occurrences].
    rewrite Ascii.eqb_refl, Ho. reflexivity.
Qed.

Lemma appendFragmentToUrl_one_hash_witness :
  getRedirectFragment "#track_123" <> EmptyString
  /\ appendFragmentToUrl "#track_123" "https://example.com/redirect#old"
     = "https://example.com/redirect#track_123"%string
  /\ appendFragmentToUrl "#" "https://example.com/redirect#old"
     = "https://example.com/redirect#old"%string.
Proof.
  assert (H : getRedirectFragment "#track_123" <> EmptyString) by discriminate.
  split; [exact H|]. split.
  - exact (proj1 (proj2 (appendFragmentToUrl_one_hash
                           "#track_123" "https://example.com/redirect#old") H)).
  - exact (proj1 (appendFragmentToUrl_one_hash "#" "https://example.com/redirect#old")
             eq_refl).
Defined.

(** X12. [extractIdentifier] returns null or the fragment without its
    first character; what it returns has at least 4 characters and passes
    [sanitizeFragment] unchanged. A fragment of at most one character
    gives null. *)
Theorem extractIdentifier_sound (hash : string) :
  ((String.length hash <= 1)%nat -> extractIdentifier hash = None)
  /\ (forall id, extractIdentifier hash = Some id ->
        id = substring1 hash
        /\ (4 <= String.length id)%nat
        /\ sanitizeFragment id = id).
Proof.
  split.
  - intros Hl. unfold extractIdentifier, getFragment.
    apply Nat.leb_le in Hl. rewrite Hl. by rewrite orb_true_r.
  - intros id H. destruct (extractIdentifier_some hash id H) as (H1 & H2 & H3).
    split; [exact H1|]. split; [exact H2|].
    rewrite sanitizeFragment_filter. by apply sfilter_id.
Qed.

Lemma extractIdentifier_sound_witness :
  extractIdentifier "#john.doe@example.com" = Some "john.doe@example.com"%string
  /\ (4 <= String.length "john.doe@example.com")%nat
  /\ sanitizeFragment "john.doe@example.com" = "john.doe@example.com"%string
  /\ extractIdentifier "#" = None.
Proof.
  destruct (proj2 (extractIdentifier_sound "#john.doe@example.com")
              "john.doe@example.com"%string eq_refl) as (_ & H1 & H2).
  split; [reflexivity|]. split; [exact H1|]. split; [exact H2|].
  apply (proj1 (extractIdentifier_sound "#")). apply le_n.
Defined.

(** X13. The identifier kept for the next page and the fragment put on the
    destination URL agree: when the hash starts with "#" and
    [extractIdentifier] returns an identifier, [getRedirectFragment] is "#"
    followed by that identifier. *)
Theorem identifier_is_redirect_fragment (content id : string) :
  extractIdentifier (String "#" content) = Some id ->
  getRedirectFragment (String "#" content) = String "#" id.
Proof. exact (identifier_fragment content id). Qed.

Lemma identifier_is_redirect_fragment_witness :
  extractIdentifier "#john.doe@example.com" = Some "john.doe@example.com"%string
  /\ getRedirectFragment "#john.doe@example.com" = "#john.doe@example.com"%string.
Proof.
  split; [reflexivity|].
  exact (identifier_is_redirect_fragment "john.doe@example.com" "john.doe@example.com"
           eq_refl).
Defined.

(** X14. What [extractIdentifier] accepts: the fragment without its first
    character is returned exactly when it has the shape local@domain.tld of
    the e-mail pattern, of any length, or consists of 4 to 50 characters
    among letters, digits and "_-@.+". *)
Theorem extractIdentifier_accepts (hash : string) :
  (2 <= String.length hash)%nat ->
  let content := substring1 hash in
  (extractIdentifier hash = Some content <->
     email_shape content
     \/ (sforall identifier_char content = true
         /\ (4 <= String.length content <= 50)%nat))
  /\ (extractIdentifier hash = None \/ extractIdentifier hash = Some content).
Proof.
  intros Hlen content.
  assert (Hgo : negb (nonempty hash) || (String.length hash <=? 1)%nat = false).
  { apply orb_false_intro.
    - destruct hash; [cbn in Hlen; lia|reflexivity].
    - apply Nat.leb_gt. lia. }
  unfold extractIdentifier, getFragment. rewrite Hgo. fold content.
  split.
  - rewrite <- emailPattern_shape.
    destruct (emailPattern content); [split; [by left|done]|].
    unfold identifierPattern.
    destruct (sforall identifier_char content); cbn [andb].
    + destruct (Nat.leb_spec 4 (String.length content));
        destruct (Nat.leb_spec (String.length content) 50); cbn [andb];
        split; try discriminate; try (intros _; right; split; [reflexivity|lia]);
        try reflexivity; intros [?|[_ ?]]; (discriminate || lia).
    + split; [discriminate|]. intros [?|[? _]]; discriminate.
  - destruct (emailPattern content); [by right|].
    destruct (identifierPattern content); [by right|by left].
Qed.

Lemma extractIdentifier_accepts_witness :
  (2 <= String.length "#a@b.c")%nat
  /\ ~ email_shape "a@b.c"
  /\ extractIdentifier "#a@b.c" = Some "a@b.c"%string.
Proof.
  assert (H : (2 <= String.length "#a@b.c")%nat) by (vm_compute; lia).
  split; [exact H|]. split.
  - intros He. apply emailPattern_shape in He. discriminate He.
  - apply (proj1 (extractIdentifier_accepts "#a@b.c" H)). right.
    split; [reflexivity|]. vm_compute. lia.
Defined.

End FragmentHandler.

(** ** The client identifier *)

Module ClientIdFacts.
Import ClientId Fragment FragmentFacts StrFacts.

Lemma append_assoc (a b c : string) :
  String.append (String.append a b) c = String.append a (String.append b c).
Proof.
  induction a as [|x a IH]; [by rewrite !append_nil|].
  rewrite !append_cons. by rewrite IH.
Qed.

(** [base64] works on groups of three bytes. *)
Lemma base64_app (n : nat) (p r : string) :
  String.length p = (3 * n)%nat ->
  base64 (String.append p r) = String.append (base64 p) (base64 r)
  /\ String.length (base64 p) = (4 * n)%nat.
Proof.
  revert p. induction n as [|n IH]; intros p Hp.
  - destruct p; [|cbn in Hp; lia]. by rewrite append_nil.
  - destruct p as [|a [|b [|c p]]]; try (cbn in Hp; lia).
    assert (Hp' : String.length p = (3 * n)%nat) by (cbn in Hp; lia).
    destruct (IH p Hp') as [IH1 IH2].
    rewrite !append_cons. cbn [base64]. rewrite IH1. rewrite !append_cons.
    split; [reflexivity|]. cbn [String.length]. rewrite IH2. lia.
Qed.

Lemma substring_0_app (a b : string) :
  String.substring 0 (String.length a) (String.append a b) = a.
Proof.
  induction a as [|x a IH].
  - rewrite append_nil. by destruct b.
  - rewrite append_cons. cbn [String.length String.substring]. by rewrite IH.
Qed.

Lemma substring_0_split (n : nat) (s : string) :
  (n <= String.length s)%nat ->
  exists r, s = String.append (String.substring 0 n s) r
            /\ String.length (String.substring 0 n s) = n.
Proof.
  revert s. induction n as [|n IH]; intros s Hs.
  - exists s. destruct s; by rewrite ?append_nil.
  - destruct s as [|x s]; [cbn in Hs; lia|].
    destruct (IH s) as (r & Hr & Hl); [cbn in Hs; lia|].
    exists r. cbn [String.substring]. rewrite append_cons. cbn [String.length].
    by rewrite <- Hr, Hl.
Qed.

Lemma length_substring_0 (n : nat) (s : string) :
  String.length (String.substring 0 n s) = Nat.min n (String.length s).
Proof.
  revert s. induction n as [|n IH]; intros [|x s]; cbn; try done.
  by rewrite IH.
Qed.

Lemma sforall_substring_0 p (n : nat) (s : string) :
  sforall p s = true -> sforall p (String.substring 0 n s) = true.
Proof.
  revert s. induction n as [|n IH]; intros [|x s]; cbn; try done.
  intros [Hx Hs]%andb_prop. by rewrite Hx, IH.
Qed.

Lemma base64_digit_char (n : N) : base64_char (base64_digit n) = true.
Proof.
  unfold base64_digit.
  assert (H : forall (s : string) (m : nat),
             sforall base64_char s = true ->
             base64_char (match String.get m s with Some c => c | None => "="%char end)
             = true).
  { induction s as [|c s IH]; intros m; [by destruct m|].
    cbn [sforall]. intros [Hc Hs]%andb_prop. destruct m; cbn [String.get]; [exact Hc|].
    by apply IH. }
  apply H. by vm_compute.
Qed.

Lemma base64_chars (s : string) : sforall base64_char (base64 s) = true.
Proof.
  assert (H : forall (n : nat) (s : string),
             (String.length s < n)%nat -> sforall base64_char (base64 s) = true).
  { induction n as [|n IH]; intros s' Hn; [lia|].
    destruct s' as [|a [|b [|c r]]]; cbn [base64 sforall];
      rewrite ?base64_digit_char; try reflexivity.
    apply IH. cbn in Hn. lia. }
  apply (H (S (String.length s))). lia.
Qed.

(** The output of [base64] has four characters per group of three bytes,
    the last group counted whole. *)
Lemma length_base64 (s : string) :
  (4 * String.length s <= 3 * String.length (base64 s))%nat
  /\ exists k, String.length (base64 s) = (4 * k)%nat.
Proof.
  assert (H : forall (n : nat) (s : string),
             (String.length s < n)%nat ->
             (4 * String.length s <= 3 * String.length (base64 s))%nat
             /\ exists k, String.length (base64 s) = (4 * k)%nat).
  { induction n as [|n IH]; intros s' Hn; [lia|].
    destruct s' as [|a [|b [|c r]]]; cbn [base64 String.length].
    - split; [lia|by exists 0%nat].
    - split; [lia|by exists 1%nat].
    - split; [lia|by exists 1%nat].
    - destruct (IH r) as [H1 [k Hk]]; [cbn in Hn; lia|].
      split; [lia|]. exists (S k). lia. }
  apply (H (S (String.length s))). lia.
Qed.

(** *** Code units and bytes *)

Lemma bytes_app (a b : text) : bytes (a ++ b) = String.append (bytes a) (bytes b).
Proof. induction a as [|u a IH]; [reflexivity|]. cbn. by rewrite IH. Qed.

Lemma length_bytes (t : text) : String.length (bytes t) = length t.
Proof. induction t as [|u t IH]; [reflexivity|]. cbn. by rewrite IH. Qed.

Lemma length_units (s : string) : length (units s) = String.length s.
Proof. induction s as [|c s IH]; [reflexivity|]. cbn. by rewrite IH. Qed.

Lemma latin1_app (a b : text) : latin1 (a ++ b) = (latin1 a && latin1 b)%bool.
Proof. apply forallb_app. Qed.

Lemma latin1_units (s : string) : latin1 (units s) = true.
Proof.
  induction s as [|c s IH]; [reflexivity|].
  cbn [units latin1 forallb]. fold (latin1 (units s)). rewrite IH, andb_true_r.
  apply N.leb_le. pose proof (N_ascii_bounded c). lia.
Qed.

Lemma length_join_cons sep x y l :
  length (join sep (x :: y :: l))
  = (length x + length sep + length (join sep (y :: l)))%nat.
Proof.
  cbn [join]. rewrite !length_app. lia.
Qed.

(** [btoa] accepts the joined text exactly when none of the four texts
    of the browser holds a character above U+00FF: the other components
    are numbers and a data URL. *)
Lemma latin1_components (b : Browser) :
  latin1 (join (units "|") (components b)) = negb (wide_text b).
Proof.
  unfold components, wide_text. cbn [app join].
  rewrite !latin1_app, !latin1_units, negb_involutive.
  destruct (latin1 (navigator_userAgent b)), (latin1 (navigator_language b)),
    (latin1 (navigator_platform b)), (latin1 (navigator_vendor b)); reflexivity.
Qed.

Lemma getClientIdentifier_latin1 (b : Browser) :
  wide_text b = false ->
  getClientIdentifier b
  = Returns (String.substring 0 32
               (base64 (bytes (join (units "|") (components b))))).
Proof.
  intros H. unfold getClientIdentifier, btoa. by rewrite latin1_components, H.
Qed.

Lemma getClientIdentifier_wide_text (b : Browser) :
  wide_text b = true -> getClientIdentifier b = Throws InvalidCharacterError.
Proof.
  intros H. unfold getClientIdentifier, btoa. by rewrite latin1_components, H.
Qed.

(** With a user agent of 24 characters or more, an identifier is the
    base64 text of the first 24 of them. *)
Lemma getClientIdentifier_prefix (b : Browser) (id : string) :
  (24 <= length (navigator_userAgent b))%nat ->
  getClientIdentifier b = Returns id ->
  id = base64 (bytes (firstn 24 (navigator_userAgent b)))
  /\ String.length id = 32%nat.
Proof.
  intros Hb Hid.
  destruct (wide_text b) eqn:Hw;
    [rewrite (getClientIdentifier_wide_text b Hw) in Hid; discriminate|].
  rewrite (getClientIdentifier_latin1 b Hw) in Hid.
  assert (Hid' : String.substring 0 32
                   (base64 (bytes (join (units "|") (components b)))) = id)
    by congruence.
  clear Hid. subst id.
  set (p := bytes (firstn 24 (navigator_userAgent b))).
  assert (Hl : String.length p = (3 * 8)%nat).
  { unfold p. rewrite length_bytes, length_firstn. lia. }
  assert (E : exists r, bytes (join (units "|") (components b)) = String.append p r).
  { unfold components. cbn [app join].
    match goal with
    | |- context [bytes (navigator_userAgent b ++ ?rest)] =>
        exists (bytes (skipn 24 (navigator_userAgent b) ++ rest))
    end.
    unfold p. rewrite <- bytes_app.
    rewrite (app_assoc (firstn 24 (navigator_userAgent b))
               (skipn 24 (navigator_userAgent b))).
    by rewrite firstn_skipn. }
  destruct E as [r ->].
  destruct (base64_app 8 p r Hl) as [Happ Hlen]. rewrite Happ.
  change 32%nat with (4 * 8)%nat. rewrite <- Hlen, substring_0_app.
  by split.
Qed.

End ClientIdFacts.

Section ClientIdentifier.
Import ClientId ClientIdFacts Fragment FragmentFacts StrFacts Scenarios.

(** X15. With a user agent of 24 characters or more, an identifier that
    [getClientIdentifier] returns is the base64 text of the first 24
    characters of the user agent, 32 characters long: language, screen,
    cores, memory, platform, vendor and canvas do not enter it, and a
    browser whose user agent starts with the same 24 characters has the
    same identifier, if it has one. *)
Theorem getClientIdentifier_user_agent_prefix (b b' : Browser) (id : string) :
  (24 <= length (navigator_userAgent b))%nat ->
  firstn 24 (navigator_userAgent b') = firstn 24 (navigator_userAgent b) ->
  getClientIdentifier b = Returns id ->
  id = base64 (bytes (firstn 24 (navigator_userAgent b)))
  /\ String.length id = 32%nat
  /\ (forall id', getClientIdentifier b' = Returns id' -> id' = id).
Proof.
  intros Hb Hpre Hid.
  destruct (getClientIdentifier_prefix b id Hb Hid) as [H1 H2].
  split; [exact H1|]. split; [exact H2|].
  intros id' Hid'.
  assert (Hb' : (24 <= length (navigator_userAgent b'))%nat).
  { pose proof (length_firstn 24 (navigator_userAgent b')) as L1.
    pose proof (length_firstn 24 (navigator_userAgent b)) as L2.
    rewrite Hpre in L1. lia. }
  destruct (getClientIdentifier_prefix b' id' Hb' Hid') as [H1' _].
  by rewrite H1', Hpre, H1.
Qed.

Lemma getClientIdentifier_user_agent_prefix_witness :
  (24 <= length (navigator_userAgent linux_browser))%nat
  /\ firstn 24 (navigator_userAgent linux_laptop)
     = firstn 24 (navigator_userAgent linux_browser)
  /\ getClientIdentifier linux_browser
     = Returns "TW96aWxsYS81LjAgKFgxMTsgTGludXgg"%string
  /\ String.length "TW96aWxsYS81LjAgKFgxMTsgTGludXgg" = 32%nat
  /\ forall id', getClientIdentifier linux_laptop = Returns id' ->
                 id' = "TW96aWxsYS81LjAgKFgxMTsgTGludXgg"%string.
Proof.
  assert (H : (24 <= length (navigator_userAgent linux_browser))%nat)
    by (vm_compute; lia).
  assert (E : getClientIdentifier linux_browser
              = Returns "TW96aWxsYS81LjAgKFgxMTsgTGludXgg"%string)
    by (vm_compute; reflexivity).
  split; [exact H|]. split; [reflexivity|]. split; [exact E|].
  destruct (getClientIdentifier_user_agent_prefix linux_browser linux_laptop _
              H eq_refl E) as (_ & H2 & H3).
  split; [exact H2|exact H3].
Defined.

(** X16. [getClientIdentifier] throws [InvalidCharacterError] exactly for
    the browsers whose user agent, language, platform or vendor holds a
    character above U+00FF; for every other browser it returns 12 to 32
    characters of the base64 alphabet (padding included). *)
Theorem getClientIdentifier_base64 (b : Browser) :
  (wide_text b = true -> getClientIdentifier b = Throws InvalidCharacterError)
  /\ (wide_text b = false ->
      exists id,
        getClientIdentifier b = Returns id
        /\ sforall base64_char id = true
        /\ (12 <= String.length id <= 32)%nat).
Proof.
  split; [apply getClientIdentifier_wide_text|].
  intros Hw. eexists. split; [by apply getClientIdentifier_latin1|]. split.
  - apply sforall_substring_0, base64_chars.
  - rewrite length_substring_0.
    set (joined := join (units "|") (components b)).
    assert (Hj : (8 <= length joined)%nat).
    { unfold joined, components. cbn [app].
      rewrite !length_join_cons. cbn [join].
      rewrite !length_units, !length_append. cbn [String.length].
      repeat match goal with
             | |- context [@length N ?x] => generalize (@length N x); intro
             | |- context [String.length ?x] => generalize (String.length x); intro
             end.
      lia. }
    destruct (length_base64 (bytes joined)) as [Hle [k Hk]].
    rewrite length_bytes in Hle. lia.
Qed.

Lemma getClientIdentifier_base64_witness :
  (wide_text wide_curl_browser = true
   /\ getClientIdentifier wide_curl_browser = Throws InvalidCharacterError)
  /\ (wide_text linux_browser = false
      /\ exists id,
           getClientIdentifier linux_browser = Returns id
           /\ sforall base64_char id = true
           /\ (12 <= String.length id <= 32)%nat).
Proof.
  split.
  - split; [reflexivity|].
    exact (proj1 (getClientIdentifier_base64 wide_curl_browser) eq_refl).
  - split; [reflexivity|].
    exact (proj2 (getClientIdentifier_base64 linux_browser) eq_refl).
Defined.

(** The worlds of the blacklist store used as examples carry what
    [getClientIdentifier] does in these browsers. *)
Example scenario_identifiers :
  getClientIdentifier linux_browser = Returns (Store.clientIdentifier ticking_world)
  /\ Store.wideCharacters ticking_world = false
  /\ getClientIdentifier wide_curl_browser = Throws InvalidCharacterError
  /\ Store.wideCharacters wide_curl_world = true.
Proof. repeat split. Qed.

End ClientIdentifier.

(** ** Signal collection and the score: how they compose *)

Module FingerprintScoreFacts.
Import Fingerprint FingerprintFacts.

(** What [collectFingerprintComponents] puts in the fields that the
    score reads, when it returns. *)
Lemma collect_components (win : Window) :
  unguarded_probes_return win = true ->
  exists fp,
    collectFingerprintComponents win = Returns fp
    /\ fonts_probe win = Returns (fonts fp)
    /\ canvasHash fp = match canvas_probe win with
                       | Returns h => h
                       | Throws _ => canvas_not_supported
                       end
    /\ (webgl_available win = false -> webglVendor fp = None /\ webglRenderer fp = None).
Proof.
  unfold unguarded_probes_return. rewrite !andb_true_iff.
  intros ((((((((H1 & H2) & H3) & H4) & H5) & H6) & H7) & H8) & H9).
  unfold collectFingerprintComponents, detectAudioCodecs, detectVideoCodecs,
    detectFonts, benchmarkPerformance, detectAdBlocker, getPluginsInfo,
    getBatteryInfo, getConnectionType.
  rewrite generateCanvasFingerprint_returns.
  destruct (Intl_timeZone win); [|discriminate].
  destruct (window_localStorage win); [|discriminate].
  destruct (window_sessionStorage win); [|discriminate].
  destruct (window_indexedDB win); [|discriminate].
  destruct (audioCodecs_probe win); [|discriminate].
  destruct (videoCodecs_probe win); [|discriminate].
  destruct (fonts_probe win); [|discriminate].
  destruct (benchmark_probe win); [|discriminate].
  destruct (adBlocker_probe win); [|discriminate].
  cbn [obind].
  destruct (getWebGLInfo_returns win) as [info Hinfo]. rewrite Hinfo.
  destruct (battery_probe win), (connection_probe win); cbn [obind otry];
    (eexists; split; [reflexivity|]; split; [reflexivity|]; split; [reflexivity|];
     intros Hw; rewrite (getWebGLInfo_unavailable win Hw) in Hinfo;
     injection Hinfo as <-; by split).
Qed.

(** The storage condition has a value when both getters return. *)
Lemma storage_missing_returns (win : Window) :
  returns (window_localStorage win) = true ->
  returns (window_sessionStorage win) = true ->
  exists sm, storage_missing win = Returns sm.
Proof.
  unfold storage_missing. cbn [noStorage suspiciousPatterns].
  destruct (window_localStorage win) as [[]|]; [| |discriminate];
    destruct (window_sessionStorage win); try discriminate; cbn; eauto.
Qed.


End FingerprintScoreFacts.

Section SignalsAndScoreMore.
Import Fingerprint FingerprintFacts FingerprintScoreFacts Scenarios.

(** X17. In whole numbers: where the storage getters return,
    [hasTooManySuspiciousPatterns] answers true exactly when at least
    four full-weight conditions hold, or three of them together with a
    whole pixel ratio. *)
Theorem hasTooManySuspiciousPatterns_count (win : Window) (fp : Components) (sm : bool) :
  storage_missing win = Returns sm ->
  let n := triggered (full_weight_triggers win fp sm) in
  hasTooManySuspiciousPatterns win fp
  = Returns ((4 <=? n)%nat || ((n =? 3)%nat && pixel_ratio_whole win)).
Proof.
  intros Hs n. subst n.
  rewrite (hasTooManySuspiciousPatterns_ratio win fp sm Hs).
  unfold suspicious_ratio, suspicious_points, full_weight_triggers, triggered.
  destruct (fonts_missing fp), (canvas_blocked fp), (webgl_missing fp),
    (chrome_mismatch win), (firefox_mismatch win), (languages_empty win),
    sm, (pixel_ratio_whole win), (plugins_empty win); reflexivity.
Qed.

Lemma hasTooManySuspiciousPatterns_count_witness :
  storage_missing hardened_window = Returns false
  /\ triggered (full_weight_triggers hardened_window bare_components false) = 3%nat
  /\ pixel_ratio_whole hardened_window = true
  /\ hasTooManySuspiciousPatterns hardened_window bare_components = Returns true
  /\ hasTooManySuspiciousPatterns (bare_window 3) bare_components = Returns false.
Proof.
  split; [reflexivity|]. split; [reflexivity|]. split; [reflexivity|]. split.
  - exact (hasTooManySuspiciousPatterns_count hardened_window bare_components false eq_refl).
  - exact (hasTooManySuspiciousPatterns_count (bare_window 3) bare_components false eq_refl).
Defined.

(** X18. Collection and score together: in a browser whose unguarded
    operations return, whose canvas probe throws, whose font detection
    finds fewer than two fonts and whose WebGL does not answer, a whole
    pixel ratio is enough for [hasTooManySuspiciousPatterns] to answer
    true on the collected components, whatever plugins, languages and
    storage the browser has. *)
Theorem blocked_probes_flagged (win : Window) (l : list string) :
  unguarded_probes_return win = true ->
  returns (canvas_probe win) = false ->
  fonts_probe win = Returns l ->
  (length l < 2)%nat ->
  webgl_available win = false ->
  pixel_ratio_whole win = true ->
  exists fp,
    collectFingerprintComponents win = Returns fp
    /\ hasTooManySuspiciousPatterns win fp = Returns true.
Proof.
  intros Hu Hc Hf Hl Hw Hp.
  destruct (collect_components win Hu) as (fp & Hfp & Hfonts & Hcanvas & Hgl).
  exists fp. split; [exact Hfp|].
  unfold unguarded_probes_return in Hu. rewrite !andb_true_iff in Hu.
  destruct Hu as ((((((((_ & H2) & H3) & _) & _) & _) & _) & _) & _).
  destruct (storage_missing_returns win H2 H3) as [sm Hsm].
  rewrite (hasTooManySuspiciousPatterns_ratio win fp sm Hsm).
  unfold suspicious_ratio, suspicious_points.
  assert (F1 : fonts_missing fp = true).
  { unfold fonts_missing. rewrite Hf in Hfonts. injection Hfonts as <-.
    cbn [noFonts suspiciousPatterns andb]. apply Nat.ltb_lt. exact Hl. }
  assert (F2 : canvas_blocked fp = true).
  { unfold canvas_blocked. rewrite Hcanvas.
    destruct (canvas_probe win); [discriminate|]. reflexivity. }
  assert (F3 : webgl_missing fp = true).
  { unfold webgl_missing. destruct (Hgl Hw) as [-> ->]. reflexivity. }
  unfold full_weight_triggers, triggered. rewrite F1, F2, F3, Hp.
  destruct (chrome_mismatch win), (firefox_mismatch win), (languages_empty win),
    sm, (plugins_empty win); reflexivity.
Qed.

Lemma blocked_probes_flagged_witness :
  unguarded_probes_return hardened_window = true
  /\ plugins_empty hardened_window = false
  /\ languages_empty hardened_window = false
  /\ exists fp,
       collectFingerprintComponents hardened_window = Returns fp
       /\ hasTooManySuspiciousPatterns hardened_window fp = Returns true.
Proof.
  split; [reflexivity|]. split; [reflexivity|]. split; [reflexivity|].
  apply (blocked_probes_flagged hardened_window []); try reflexivity.
  apply Nat.lt_0_succ.
Defined.

(** X19. [generateBrowserFingerprint] fails in these cases only, and then
    with the exception named: a storage getter throws (the fallback reads
    the same getters, so it cannot make up for the failure), or the
    collection or the digest fails and [btoa] rejects the text of the
    fallback. In every other browser a fingerprint comes back, the hashed
    one exactly when the collection and the digest both return. *)
Theorem generateBrowserFingerprint_outcome (win : Window) :
  let hashed :=
    returns (collectFingerprintComponents win) && returns (digest_probe win) in
  (forall e, generateBrowserFingerprint win = Throws e <->
     window_sessionStorage win = Throws e
     \/ (returns (window_sessionStorage win) = true
         /\ window_localStorage win = Throws e)
     \/ (returns (window_sessionStorage win) = true
         /\ returns (window_localStorage win) = true
         /\ hashed = false
         /\ fallback_btoa win = Throws e))
  /\ (returns (window_sessionStorage win) = true ->
      returns (window_localStorage win) = true ->
      generateBrowserFingerprint win
      = match collectFingerprintComponents win, digest_probe win with
        | Returns fp, Returns hashHex => Returns (Hashed fp hashHex)
        | _, _ =>
            match fallback_btoa win with
            | Returns text => Returns (Fallback text)
            | Throws e => Throws e
            end
        end).
Proof.
  intros hashed. subst hashed.
  assert (Hc : returns (window_sessionStorage win) && returns (window_localStorage win)
               = false ->
               exists e', collectFingerprintComponents win = Throws e').
  { unfold collectFingerprintComponents, obind.
    destruct (Intl_timeZone win); [|eauto].
    destruct (window_localStorage win); [|eauto].
    destruct (window_sessionStorage win); [|eauto]. discriminate. }
  unfold generateBrowserFingerprint, generateFallbackFingerprint, otry, obind in *.
  split.
  - intros e. split.
    + destruct (collectFingerprintComponents win) as [fp|e1];
        [destruct (digest_probe win) as [h|e2]; [discriminate|]|];
        (destruct (window_sessionStorage win); [|intros [= ->]; by left]);
        (destruct (window_localStorage win); [|intros [= ->]; right; by left]);
        (destruct (fallback_btoa win); [discriminate|intros [= ->]; right; right;
                                                      by repeat split]).
    + intros [Hss|[[Hss Hls]|(Hss & Hls & Hh & Hb)]].
      * destruct Hc as [e' ->]; [by rewrite Hss|]. by rewrite Hss.
      * destruct Hc as [e' ->]; [by rewrite Hls, andb_false_r|]. rewrite Hls.
        destruct (window_sessionStorage win); [reflexivity|discriminate].
      * rewrite Hb.
        destruct (window_sessionStorage win); [|discriminate].
        destruct (window_localStorage win); [|discriminate].
        destruct (collectFingerprintComponents win); [|reflexivity].
        destruct (digest_probe win); [discriminate|reflexivity].
  - intros Hss Hls.
    destruct (window_sessionStorage win); [|discriminate].
    destruct (window_localStorage win); [|discriminate].
    destruct (collectFingerprintComponents win); [|reflexivity].
    destruct (digest_probe win); reflexivity.
Qed.

Lemma generateBrowserFingerprint_outcome_witness :
  (window_sessionStorage storage_refused_window = Throws DOMException
   /\ generateBrowserFingerprint storage_refused_window = Throws DOMException)
  /\ (returns (digest_probe wide_fallback_window) = false
      /\ fallback_btoa wide_fallback_window = Throws InvalidCharacterError
      /\ generateBrowserFingerprint wide_fallback_window = Throws InvalidCharacterError)
  /\ exists fp,
       collectFingerprintComponents headless_window = Returns fp
       /\ generateBrowserFingerprint headless_window = Returns (Hashed fp "00").
Proof.
  split; [|split].
  - split; [reflexivity|].
    apply (proj1 (generateBrowserFingerprint_outcome storage_refused_window)).
    left. reflexivity.
  - split; [reflexivity|]. split; [reflexivity|].
    apply (proj1 (generateBrowserFingerprint_outcome wide_fallback_window)).
    right. right. repeat split.
  - pose proof (proj2 (generateBrowserFingerprint_outcome headless_window)
                  eq_refl eq_refl) as H.
    destruct (collectFingerprintComponents headless_window) as [fp|e] eqn:E.
    + exists fp. split; [reflexivity|exact H].
    + vm_compute in E. discriminate E.
Defined.

End SignalsAndScoreMore.

(** ** Interaction tracking *)

Module TrackerFacts.
Import Store StoreFacts Interaction InteractionFacts Tracker.

Section FloatingPoint.
Variable velocity_of : Z -> Z -> Z -> Q.
Variable Math_atan2 : Z -> Z -> Q.


Lemma dispatch_returns e d w :
  exists d', dispatch velocity_of Math_atan2 e d w = (Returns d', if is_mousemove e then tick w else w)
   /\ startTime d' = startTime d
   /\ mouseMoves d' + mouseClicks d' + keyPresses d' + touchEvents d'
      = mouseMoves d + mouseClicks d + keyPresses d + touchEvents d + 1
   /\ (if is_mousemove e then
         is_Some (lastPosition d')
         /\ (length (movementPatterns d')
             <= length (movementPatterns d)
                + match lastPosition d with None => 0 | Some _ => 1 end)%nat
       else lastPosition d' = lastPosition d
            /\ movementPatterns d' = movementPatterns d).
Proof.
  destruct e; cbn [dispatch is_mousemove]; try (eexists; split; [reflexivity|]; cbn; split; [done|]; split; [lia|done]).
  unfold trackMouseMovement, bind, Date_now, ret, tick.
  eexists. split; [reflexivity|]. cbn. split; [done|]. split; [lia|].
  split; [by eexists|].
  destruct (lastPosition d); [|lia].
  destruct (0 <? _); rewrite ?length_app; cbn; lia.
Qed.

Lemma replay_invariant events : forall d w,
  exists d' w',
    replay velocity_of Math_atan2 events d w = (Returns d', w')
    /\ startTime d' = startTime d
    /\ mouseMoves d' + mouseClicks d' + keyPresses d' + touchEvents d'
       = mouseMoves d + mouseClicks d + keyPresses d + touchEvents d
         + Z.of_nat (length events)
    /\ (length (movementPatterns d')
        <= length (movementPatterns d)
           + sample_bound (lastPosition d) (length (List.filter is_mousemove events)))%nat.
Proof.
  induction events as [|e events IH]; intros d w.
  - exists d, w. cbn. split; [done|]. split; [done|]. split; [lia|].
    destruct (lastPosition d); cbn; lia.
  - destruct (dispatch_returns e d w) as (d1 & Hrun & Hs & Ht & Hm).
    destruct (IH d1 (if is_mousemove e then tick w else w))
      as (d' & w' & Hrun' & Hs' & Ht' & Hl').
    exists d', w'. cbn [Tracker.replay]. unfold bind. rewrite Hrun.
    split; [exact Hrun'|]. split; [congruence|]. split; [cbn [length]; lia|].
    cbn [List.filter]. destruct (is_mousemove e).
    + destruct Hm as [[p Hp] Hm]. rewrite Hp in Hl'. cbn [sample_bound length] in *.
      destruct (lastPosition d); cbn [sample_bound]; lia.
    + destruct Hm as [Hp Hm]. rewrite Hp, Hm in Hl'. exact Hl'.
Qed.

(** A mouse move at a later clock reading than the last one adds one
    sample. *)
Lemma trackMouseMovement_later x y d w last :
  lastPosition d = Some last ->
  0 < clock w - pos_time last ->
  trackMouseMovement velocity_of Math_atan2 x y d w
  = (Returns
       (mkInteractionData (mouseMoves d + 1) (mouseClicks d) (keyPresses d)
          (touchEvents d)
          (movementPatterns d
           ++ [ mkSample (velocity_of (x - pos_x last) (y - pos_y last)
                                      (clock w - pos_time last))
                         (Math_atan2 (y - pos_y last) (x - pos_x last)) ])
          (Some (mkPosition x y (clock w))) (startTime d)),
     tick w).
Proof.
  intros Hlast Hlt. unfold trackMouseMovement, bind, Date_now, ret, tick.
  rewrite Hlast. cbn [pos_time pos_x pos_y].
  destruct (Z.ltb_spec 0 (clock w - pos_time last)) as [_|]; [reflexivity|lia].
Qed.

(** A straight sweep at a steady clock, from a known last position. *)
Lemma sweep_from (n : nat) : forall (d : InteractionData) (w : World)
    (x y dx dy dt t : Z) (rest : list Z),
  lastPosition d = Some (mkPosition (x - dx) (y - dy) t) ->
  clock w = t + dt ->
  0 < dt ->
  ticks w = repeat dt n ++ rest ->
  exists d' w',
    replay velocity_of Math_atan2 (sweep n x y dx dy) d w = (Returns d', w')
    /\ movementPatterns d'
       = movementPatterns d
         ++ repeat (mkSample (velocity_of dx dy dt) (Math_atan2 dy dx)) n.
Proof.
  induction n as [|n IH]; intros d w x y dx dy dt t rest Hlast Hclock Hdt Hticks.
  - exists d, w. cbn. by rewrite app_nil_r.
  - cbn [sweep replay dispatch]. unfold bind at 1.
    rewrite (trackMouseMovement_later x y d w _ Hlast)
      by (cbn [pos_time]; lia).
    cbn [pos_time pos_x pos_y].
    replace (clock w - t) with dt by lia.
    replace (x - (x - dx)) with dx by lia.
    replace (y - (y - dy)) with dy by lia.
    match goal with
    | |- context [replay _ _ _ ?d1 ?w1] =>
        destruct (IH d1 w1 (x + dx) (y + dy) dx dy dt (clock w) rest)
          as (d' & w' & Hrun & Hp)
    end.
    + cbn [lastPosition]. f_equal. f_equal; lia.
    + unfold tick. cbn [clock with_clock]. rewrite Hticks. reflexivity.
    + exact Hdt.
    + unfold tick. cbn [ticks with_clock]. rewrite Hticks. reflexivity.
    + exists d', w'. split; [exact Hrun|]. rewrite Hp. cbn [movementPatterns].
      rewrite <- app_assoc. reflexivity.
Qed.

(** Samples that are all alike fail the movement test. *)
Lemma uniform_samples_rejected (s : Sample) (n : nat) (now : Z) (d : InteractionData) :
  (6 <= n)%nat ->
  movementPatterns d = repeat s n ->
  analyzeInteractions now d = false.
Proof.
  intros Hn Hp. unfold analyzeInteractions. rewrite Hp, repeat_length.
  destruct (_ && _); [reflexivity|].
  destruct (Nat.ltb_spec 5 n) as [_|]; [|lia].
  rewrite scanPatterns_counts.
  destruct n as [|m]; [lia|].
  destruct (repeated_in_repeat s m) as [-> ->].
  replace (exceeds_30_percent (m + m) (S m)) with true; [reflexivity|].
  symmetry. apply exceeds_30_percent_spec; lia.
Qed.

End FloatingPoint.
End TrackerFacts.

Section InteractionTracking.
Import Store StoreFacts Interaction InteractionFacts Tracker TrackerFacts Scenarios.

(** X20. A scripted pointer is caught: seven or more mouse moves along a
    straight line at equal steps, with the clock advancing by the same
    positive amount between them, leave samples that are all alike, and
    [analyzeInteractions] answers false on them at any time, whatever
    else the visitor did before. *)
Theorem constant_sweep_rejected (velocity_of : Z -> Z -> Z -> Q)
    (Math_atan2 : Z -> Z -> Q) (w : World) (d0 : InteractionData) (n : nat)
    (x y dx dy dt : Z) (rest : list Z) :
  lastPosition d0 = None ->
  movementPatterns d0 = [] ->
  0 < dt ->
  (7 <= n)%nat ->
  ticks w = repeat dt n ++ rest ->
  exists d w',
    replay velocity_of Math_atan2 (sweep n x y dx dy) d0 w = (Returns d, w')
    /\ movementPatterns d
       = repeat (mkSample (velocity_of dx dy dt) (Math_atan2 dy dx)) (n - 1)
    /\ forall now, analyzeInteractions now d = false.
Proof.
  intros Hlast Hp Hdt Hn Hticks.
  destruct n as [|n]; [lia|].
  cbn [sweep replay dispatch]. unfold bind at 1.
  unfold trackMouseMovement, bind at 1, Date_now, ret. rewrite Hlast, Hp.
  match goal with
  | |- context [replay _ _ _ ?d1 ?w1] =>
      destruct (sweep_from velocity_of Math_atan2 n d1 w1
                  (x + dx) (y + dy) dx dy dt (clock w) rest)
        as (d & w' & Hrun & Hpat)
  end.
  - cbn [lastPosition]. f_equal. f_equal; lia.
  - cbn [clock with_clock]. rewrite Hticks. reflexivity.
  - exact Hdt.
  - cbn [ticks with_clock]. rewrite Hticks. reflexivity.
  - exists d, w'. split; [exact Hrun|]. cbn [movementPatterns app] in Hpat.
    replace (S n - 1)%nat with n by lia. split; [exact Hpat|].
    intros now. eapply uniform_samples_rejected; [|exact Hpat]. lia.
Qed.

Lemma constant_sweep_rejected_witness :
  ticks ticking_world = repeat 1 7 ++ [1]
  /\ exists d w',
       replay sample_velocity sample_angle (sweep 7 100 200 3 4) fresh_data ticking_world
       = (Returns d, w')
       /\ movementPatterns d = repeat (mkSample (25 # 1) (4 # 4)) 6
       /\ analyzeInteractions 1500 d = false.
Proof.
  split; [reflexivity|].
  destruct (constant_sweep_rejected sample_velocity sample_angle ticking_world fresh_data
              7 100 200 3 4 1 [1] eq_refl eq_refl eq_refl
              (Nat.le_refl 7) eq_refl)
    as (d & w' & H1 & H2 & H3).
  exists d, w'. split; [exact H1|]. split; [exact H2|]. exact (H3 1500).
Defined.

(** X21. With at most six mouse moves in a visit there are at most five
    samples, so the movement test is not applied: [analyzeInteractions]
    answers false exactly when more than 2000 ms have passed since
    tracking started and fewer than three events were seen. *)
Theorem few_moves_judged_by_count (velocity_of : Z -> Z -> Z -> Q)
    (Math_atan2 : Z -> Z -> Q) (events : list Event) (w : World) :
  (length (List.filter is_mousemove events) <= 6)%nat ->
  exists d w',
    track velocity_of Math_atan2 events w = (Returns d, w')
    /\ startTime d = clock w
    /\ forall now,
         analyzeInteractions now d
         = negb ((2000 <? now - clock w) && (Z.of_nat (length events) <? 3)).
Proof.
  intros Hm. unfold track, initializeInteractionTracking, bind at 1, bind at 1,
    Date_now, ret.
  destruct (replay_invariant velocity_of Math_atan2 events
              (mkInteractionData 0 0 0 0 [] None (clock w)) (tick w))
    as (d & w' & Hrun & Hs & Ht & Hl).
  exists d, w'. split; [exact Hrun|]. split; [exact Hs|].
  intros now. unfold analyzeInteractions. rewrite Hs, Ht.
  cbn [startTime mouseMoves mouseClicks keyPresses touchEvents].
  replace (0 + 0 + 0 + 0 + Z.of_nat (length events)) with (Z.of_nat (length events))
    by lia.
  destruct (_ && _); [reflexivity|].
  cbn [movementPatterns lastPosition sample_bound length] in Hl.
  destruct (Nat.ltb_spec 5 (length (movementPatterns d))) as [Hgt|_]; [lia|reflexivity].
Qed.

Lemma few_moves_judged_by_count_witness :
  exists d w',
    track sample_velocity sample_angle [keydown; keydown; mousedown] ticking_world
    = (Returns d, w')
    /\ analyzeInteractions 60000 d = true.
Proof.
  destruct (few_moves_judged_by_count sample_velocity sample_angle
              [keydown; keydown; mousedown] ticking_world (Nat.le_0_l 6))
    as (d & w' & H1 & _ & H3).
  exists d, w'. split; [exact H1|]. exact (H3 60000).
Defined.

End InteractionTracking.

(** ** The page: bot trap, form handler and redirect *)

Module ParseIntFacts.
Import Page.

Lemma digits_value_acc (d : Decimal.uint) : forall acc : positive,
  digits_value 10 (Z.pos acc) (NilEmpty.string_of_uint d)
  = Z.pos (Pos.of_uint_acc d acc).
Proof.
  induction d; intros acc; cbn [NilEmpty.string_of_uint Pos.of_uint_acc];
    [reflexivity|..];
    (cbn [digits_value]; rewrite <- IHd;
     match goal with
     | |- context [digit_value 10 ?c] =>
         let v := eval vm_compute in (digit_value 10 c) in
         change (digit_value 10 c) with v
     end; f_equal; lia).
Qed.

Lemma digits_value_uint (d : Decimal.uint) :
  digits_value 10 0 (NilEmpty.string_of_uint d) = Z.of_N (Pos.of_uint d).
Proof.
  induction d; cbn [NilEmpty.string_of_uint Pos.of_uint]; [reflexivity|..];
    cbn [digits_value];
    match goal with
    | |- context [digit_value 10 ?c] =>
        let v := eval vm_compute in (digit_value 10 c) in
        change (digit_value 10 c) with v
    end; cbn [Z.mul Z.add]; [exact IHd|..]; apply digits_value_acc.
Qed.

Ltac eval_chars :=
  repeat match goal with
         | |- context [is_whitespace ?c] =>
             let v := eval vm_compute in (is_whitespace c) in
             change (is_whitespace c) with v
         | |- context [digit_value ?r ?c] =>
             let v := eval vm_compute in (digit_value r c) in
             change (digit_value r c) with v
         end.

(** [parseInt] reads a printed number of at least one digit back. *)
Lemma parseInt_uint (d : Decimal.uint) :
  d <> Decimal.Nil ->
  parseInt (NilEmpty.string_of_uint d) = Some (Z.of_N (Pos.of_uint d))
  /\ parseInt (String "-" (NilEmpty.string_of_uint d)) = Some (- Z.of_N (Pos.of_uint d)).
Proof.
  intros Hd. rewrite <- digits_value_uint.
  assert (Hneg : forall x : Z, -1 * x = - x) by (intros; lia).
  assert (Hpos : forall x : Z, 1 * x = x) by (intros; lia).
  destruct d as [|d|d|d|d|d|d|d|d|d|d]; [done|..].
  2-10: split; unfold parseInt; cbn [NilEmpty.string_of_uint trim_start];
    eval_chars; cbv beta iota zeta; eval_chars; cbv beta iota zeta;
    rewrite ?Hneg, ?Hpos; reflexivity.
  destruct d; split; unfold parseInt; cbn [NilEmpty.string_of_uint trim_start];
    eval_chars; cbv beta iota zeta; eval_chars; cbv beta iota zeta;
    rewrite ?Hneg, ?Hpos; reflexivity.
Qed.

Lemma parseInt_show_Z (z : Z) : parseInt (ClientId.show_Z z) = Some z.
Proof.
  unfold ClientId.show_Z. destruct z as [|p|p]; [reflexivity|..];
    cbn [Z.to_int NilZero.string_of_int];
    pose proof (DecimalPos.Unsigned.to_uint_nonnil p) as Hn;
    pose proof (DecimalPos.Unsigned.of_to p) as Hof;
    destruct (parseInt_uint (Pos.to_uint p) Hn) as [H1 H2];
    unfold NilZero.string_of_uint;
    (destruct (Pos.to_uint p) eqn:E; [done|..]); rewrite <- E in *;
    rewrite ?H1, ?H2; unfold Pos.of_uint in *; rewrite Hof; reflexivity.
Qed.

End ParseIntFacts.

Module PageFacts.
Import Store StoreFacts StoreInvariant StoreInvariantFacts Interaction Page ParseIntFacts.

(** The stored records, when the store can be read. *)
Lemma parse_bot_visits_readable p :
  getItem_throws (localStorage (world p)) = false ->
  bot_visits p <> BadText ->
  parse_bot_visits p
  = (Returns (match bot_visits p with Text l => l | _ => [] end), p).
Proof.
  intros Hg Hb. unfold parse_bot_visits. rewrite Hg.
  by destruct (bot_visits p).
Qed.

Lemma length_keep_last_100 (l : list BotVisit) :
  length (keep_last_100 l) = Nat.min 100 (length l).
Proof.
  unfold keep_last_100. destruct (Nat.ltb_spec 100 (length l)).
  - rewrite length_drop. lia.
  - lia.
Qed.

Lemma keep_last_100_suffix (l : list BotVisit) : keep_last_100 l `suffix_of` l.
Proof.
  unfold keep_last_100. destruct (100 <? length l)%nat; [apply suffix_drop|done].
Qed.

Lemma last_keep_last_100 (l : list BotVisit) (v : BotVisit) :
  last (keep_last_100 (l ++ [v])) = Some v.
Proof.
  unfold keep_last_100. destruct (Nat.ltb_spec 100 (length (l ++ [v]))) as [H|H].
  - rewrite length_app in *. cbn [length] in *.
    rewrite drop_app_le by lia. apply last_snoc.
  - apply last_snoc.
Qed.

(** [recordBotVisit] in full. *)
Lemma recordBotVisit_runs why p :
  exists p',
    recordBotVisit why p = (Returns tt, p')
    /\ secureToken p' = secureToken p
    /\ tokenTimestamp p' = tokenTimestamp p
    /\ sessionStorage_throws p' = sessionStorage_throws p
    /\ redirectIdentifier p' = redirectIdentifier p
    /\ environmentVerified p' = environmentVerified p
    /\ (if getItem_throws (localStorage (world p)) then p' = p
        else match bot_visits p with
             | BadText => p' = p
             | _ =>
                 world p' = tick (world p)
                 /\ bot_visits p'
                    = if wideCharacters (world p)
                         || setItem_throws (localStorage (world p))
                      then bot_visits p
                      else Text (keep_last_100
                                   ((match bot_visits p with Text l => l | _ => [] end)
                                    ++ [mkVisit (clock (world p)) (userAgent (world p)) why
                                          (clientIdentifier (world p))]))
             end).
Proof.
  unfold recordBotVisit, ptry, pbind, parse_bot_visits.
  destruct (getItem_throws (localStorage (world p))) eqn:Hg.
  - exists p. cbn. by repeat split.
  - destruct (bot_visits p) as [| |l] eqn:Hb.
    + unfold lift, Date_now, navigator_userAgent, getClientIdentifier, store_bot_visits.
      cbn. destruct (wideCharacters (world p)) eqn:Hx; cbn;
        [|destruct (setItem_throws (localStorage (world p))) eqn:Hs; cbn];
        (eexists; split; [reflexivity|]); cbn; rewrite ?Hb; by repeat split.
    + exists p. cbn. by repeat split.
    + unfold lift, Date_now, navigator_userAgent, getClientIdentifier, store_bot_visits.
      cbn. destruct (wideCharacters (world p)) eqn:Hx; cbn;
        [|destruct (setItem_throws (localStorage (world p))) eqn:Hs; cbn];
        (eexists; split; [reflexivity|]); cbn; rewrite ?Hb; by repeat split.
Qed.

Lemma attempts_tick p :
  attempts (with_world p (tick (world p))) = attempts p.
Proof. reflexivity. Qed.

(** The attempts of the client after [recordFailedAttempt]. *)
Lemma recordFailedAttempt_bumps why p :
  identified (world p) ->
  exists p',
    lift (recordFailedAttempt why) p = (Returns tt, p')
    /\ attempts p' = bump (attempts p)
    /\ same_browser (world p) (world p')
    /\ bot_visits p' = bot_visits p
    /\ secureToken p' = secureToken p
    /\ tokenTimestamp p' = tokenTimestamp p
    /\ sessionStorage_throws p' = sessionStorage_throws p
    /\ redirectIdentifier p' = redirectIdentifier p
    /\ environmentVerified p' = environmentVerified p.
Proof.
  intros Hx.
  destruct (recordFailedAttempt_attempts why (world p) Hx)
    as (w' & t0 & t1 & Hrun & Hsb & Hfa).
  exists (with_world p w'). unfold lift. rewrite Hrun.
  split; [reflexivity|]. split; [|split; [exact Hsb|by repeat split]].
  unfold attempts, bump. cbn [world with_world].
  destruct Hsb as (_ & -> & _). rewrite Hfa.
  destruct (failedAttempts (world p) !! clientIdentifier (world p)) as [r|].
  - destruct (decide (count r + 1 < maxFailedAttempts)) as [Hlt|Hge].
    + rewrite lookup_insert_eq. cbn [count noted].
      destruct (Z.ltb_spec (count r + 1) maxFailedAttempts); [reflexivity|lia].
    + rewrite lookup_delete_eq.
      destruct (Z.ltb_spec (count r + 1) maxFailedAttempts); [lia|reflexivity].
  - rewrite lookup_insert_eq. reflexivity.
Qed.

(** [showConstructionPage] leaves the attempts as they are. *)
Lemma showConstructionPage_runs why p :
  exists p',
    showConstructionPage why p = (Returns (ConstructionPage why), p')
    /\ attempts p' = attempts p
    /\ secureToken p' = secureToken p
    /\ tokenTimestamp p' = tokenTimestamp p.
Proof.
  destruct (recordBotVisit_runs why p) as (p' & Hrun & Hs & Ht & _ & _ & _ & Hw).
  exists p'. unfold showConstructionPage, pbind. rewrite Hrun.
  split; [reflexivity|]. split; [|by split].
  destruct (getItem_throws (localStorage (world p))); [by subst|].
  destruct (bot_visits p); [| by subst |];
    destruct Hw as [Hw _]; unfold attempts; by rewrite Hw.
Qed.

(** A silent rejection: the attempt is recorded, then the construction
    page is shown. *)
Lemma rejection_runs attempt_reason page_reason p :
  identified (world p) ->
  exists p',
    (lift (recordFailedAttempt attempt_reason);; showConstructionPage page_reason)%page p
    = (Returns (ConstructionPage page_reason), p')
    /\ attempts p' = bump (attempts p)
    /\ secureToken p' = secureToken p
    /\ tokenTimestamp p' = tokenTimestamp p.
Proof.
  intros Hx.
  destruct (recordFailedAttempt_bumps attempt_reason p Hx)
    as (p1 & Hrun1 & Ha1 & _ & _ & Hs1 & Ht1 & _).
  destruct (showConstructionPage_runs page_reason p1) as (p2 & Hrun2 & Ha2 & Hs2 & Ht2).
  exists p2. unfold pbind. rewrite Hrun1, Hrun2.
  split; [reflexivity|]. split; [congruence|]. split; congruence.
Qed.

Lemma with_world_id p : with_world p (world p) = p.
Proof. by destruct p. Qed.

(** Where the client has no identifier the attempt cannot be recorded:
    the exception of [btoa] ends the handler. *)
Lemma recordFailedAttempt_page_wide {A} why (k : unit -> P A) p :
  wideCharacters (world p) = true ->
  pbind (lift (recordFailedAttempt why)) k p = (Throws InvalidCharacterError, p).
Proof.
  intros Hx. unfold pbind, lift.
  rewrite (recordFailedAttempt_wide why (world p) Hx). by rewrite with_world_id.
Qed.

(** A rejection either shows the construction page or throws. *)
Lemma rejection_outcome attempt_reason page_reason p :
  exists o p',
    (lift (recordFailedAttempt attempt_reason);; showConstructionPage page_reason)%page p
    = (o, p')
    /\ (o = Returns (ConstructionPage page_reason) \/ o = Throws InvalidCharacterError).
Proof.
  destruct (wideCharacters (world p)) eqn:Hx.
  - eexists _, _. split; [by apply recordFailedAttempt_page_wide|by right].
  - destruct (rejection_runs attempt_reason page_reason p Hx) as (p' & Hrun & _).
    eexists _, _. split; [exact Hrun|by left].
Qed.

Lemma pbind_Date_now {A} (k : Z -> P A) p :
  pbind (lift Date_now) k p = k (clock (world p)) (with_world p (tick (world p))).
Proof. reflexivity. Qed.

Lemma pbind_userAgent {A} (k : string -> P A) p :
  pbind (lift navigator_userAgent) k p = k (userAgent (world p)) p.
Proof. unfold pbind, lift, navigator_userAgent. by rewrite with_world_id. Qed.

Lemma pbind_environmentVerified {A} (k : bool -> P A) p :
  pbind get_environmentVerified k p = k (environmentVerified p) p.
Proof. reflexivity. Qed.

Lemma pbind_pret {A B} (a : A) (k : A -> P B) p : pbind (pret a) k p = k a p.
Proof. reflexivity. Qed.

(** The last step of [handleFormSubmit]: the token and the time are
    stored, or the failure is recorded. *)
Lemma store_token_runs (getter : outcome bool) (token : string) p :
  let r :=
    ptry
      (do present <- (fun p => (getter, p));
       (if present then
          setItem_secureToken token;;
          do now <- lift Date_now;
          setItem_tokenTimestamp (ClientId.show_Z now)
        else pret tt);;
       pret RedirectSection)%page
      (fun _ =>
         (lift (recordFailedAttempt "storage_unavailable");;
          pret StorageUnavailable)%page) p in
  (shown_of r = Returns RedirectSection <->
     getter = Returns false
     \/ (getter = Returns true /\ setItem_throws (localStorage (world p)) = false))
  /\ (shown_of r = Returns RedirectSection ->
      attempts (page_of r) = attempts p
      /\ (getter = Returns true ->
          secureToken (page_of r) = Some token
          /\ tokenTimestamp (page_of r) = Some (ClientId.show_Z (clock (world p)))
          /\ world (page_of r) = tick (world p)))
  /\ (shown_of r <> Returns RedirectSection ->
      if wideCharacters (world p)
      then r = (Throws InvalidCharacterError, p)
      else shown_of r = Returns StorageUnavailable
           /\ attempts (page_of r) = bump (attempts p)).
Proof.
  intros r.
  set (fail := (lift (recordFailedAttempt "storage_unavailable");;
                pret StorageUnavailable)%page p).
  assert (Hshown : shown_of fail
                   = if wideCharacters (world p) then Throws InvalidCharacterError
                     else Returns StorageUnavailable).
  { subst fail. destruct (wideCharacters (world p)) eqn:Hx.
    - by rewrite recordFailedAttempt_page_wide.
    - destruct (recordFailedAttempt_bumps "storage_unavailable" p Hx) as (p1 & Hrun1 & _).
      unfold pbind. by rewrite Hrun1. }
  assert (Hwide : wideCharacters (world p) = true ->
                  fail = (Throws InvalidCharacterError, p)).
  { intros Hx. subst fail. by rewrite recordFailedAttempt_page_wide. }
  assert (Ha : wideCharacters (world p) = false ->
               attempts (page_of fail) = bump (attempts p)).
  { intros Hx. subst fail.
    destruct (recordFailedAttempt_bumps "storage_unavailable" p Hx)
      as (p1 & Hrun1 & Ha1 & _).
    unfold pbind. by rewrite Hrun1. }
  assert (Er : r = match getter with
                   | Returns true =>
                       if setItem_throws (localStorage (world p)) then fail
                       else (Returns RedirectSection,
                             mkPage (tick (world p)) (bot_visits p) (Some token)
                                    (Some (ClientId.show_Z (clock (world p))))
                                    (sessionStorage_throws p) (redirectIdentifier p)
                                    (environmentVerified p))
                   | Returns false => (Returns RedirectSection, p)
                   | Throws _ => fail
                   end).
  { subst r. unfold ptry. unfold pbind at 1. unfold pbind at 1.
    destruct getter as [[]|e]; [|reflexivity|reflexivity].
    unfold pbind at 1, setItem_secureToken.
    destruct (setItem_throws (localStorage (world p))) eqn:Hs; [reflexivity|].
    unfold pbind, lift, Date_now, setItem_tokenTimestamp. cbn. by rewrite Hs. }
  clearbody r fail. subst r.
  assert (Hnot : shown_of fail <> Returns RedirectSection)
    by (rewrite Hshown; destruct (wideCharacters (world p)); discriminate).
  assert (Hrej : if wideCharacters (world p)
                 then fail = (Throws InvalidCharacterError, p)
                 else shown_of fail = Returns StorageUnavailable
                      /\ attempts (page_of fail) = bump (attempts p)).
  { destruct (wideCharacters (world p)); [by apply Hwide|]. split; [exact Hshown|by apply Ha]. }
  destruct getter as [[]|e].
  - destruct (setItem_throws (localStorage (world p))) eqn:Hs.
    + split; [split; [done|intros [?|[_ ?]]; discriminate]|].
      split; [done|]. by intros _.
    + split; [split; [by right|done]|].
      split; [|by intros H]. intros _. split; [reflexivity|]. by intros _.
  - split; [split; [by left|done]|].
    split; [|by intros H]. intros _. split; [reflexivity|discriminate].
  - split; [split; [done|intros [?|[? _]]; discriminate]|].
    split; [done|]. by intros _.
Qed.

(** The signs of automation are the three tests of the handler. *)
Lemma automation_signs_tests ua s n :
  navigator_plugins s = Some n ->
  (navigator_webdriver s || Str.includes ua "HeadlessChrome"
   || Str.includes ua "PhantomJS")
  || negb (0 <? n)%nat
  || negb match navigator_languages s with
          | Some l => (0 <? length l)%nat
          | None => false
          end
  = automation_signs ua s.
Proof.
  intros Hn. unfold automation_signs. rewrite Hn.
  destruct (navigator_webdriver s), (Str.includes ua "HeadlessChrome"),
    (Str.includes ua "PhantomJS"), n, (navigator_languages s) as [[|? ?]|];
    reflexivity.
Qed.

Lemma redirect_runs baseUrl hash token p :
  getItem_throws (localStorage (world p)) = false ->
  exists p',
    redirectToProtectedContent baseUrl hash token p
    = (Returns (redirect_decision baseUrl hash token p), p')
    /\ sessionStorage_throws p' = sessionStorage_throws p
    /\ ((exists href, redirect_decision baseUrl hash token p = Navigate href) ->
        sessionStorage_throws p = false ->
        forall i, Fragment.extractIdentifier hash = Some i ->
                  Fragment.nonempty i = true ->
                  redirectIdentifier p' = Some i).
Proof.
  intros Hg.
  unfold redirectToProtectedContent, redirect_decision.
  unfold pbind at 1, getItem_secureToken. rewrite Hg.
  unfold pbind at 1, getItem_tokenTimestamp. rewrite Hg.
  destruct (negb (truthy (secureToken p)) || negb (bool_decide (secureToken p = Some token))).
  { exists p. split; [reflexivity|]. split; [reflexivity|].
    intros [href Hh]. discriminate. }
  rewrite pbind_Date_now.
  destruct (match parseInt _ with Some t => _ | None => false end).
  { eexists. split; [reflexivity|]. split; [reflexivity|].
    intros [href Hh]. discriminate. }
  unfold pbind, ptry, sessionStorage_setItem, pret.
  destruct (Fragment.extractIdentifier hash) as [i|].
  - destruct (Fragment.nonempty i) eqn:Hi.
    + cbn [sessionStorage_throws with_world].
      destruct (sessionStorage_throws p) eqn:Hs.
      * eexists. split; [reflexivity|]. split; [exact Hs|]. intros _ ?; discriminate.
      * eexists. split; [reflexivity|]. split; [exact Hs|].
        intros _ _ j [= <-] _. reflexivity.
    + eexists. split; [reflexivity|]. split; [reflexivity|].
      intros _ _ j [= <-] Hj. congruence.
  - eexists. split; [reflexivity|]. split; [reflexivity|]. intros _ _ j ?. discriminate.
Qed.

(** The submissions that [handleFormSubmit] accepts, and what it stores
    for them. *)
Lemma handleFormSubmit_accepts (s : Submission) (p : Page) :
  let r := handleFormSubmit s p in
  (shown_of r = Returns RedirectSection <->
     (1 <= String.length (recaptchaResponse s))%nat
     /\ existsb Fragment.nonempty (honeypotFields s) = false
     /\ analyzeInteractions (clock (world p)) (interactionData s) = true
     /\ automation_signs (userAgent (world p)) s = false
     /\ environmentVerified p = true
     /\ (window_localStorage s = Returns false
         \/ (window_localStorage s = Returns true
             /\ setItem_throws (localStorage (world p)) = false)))
  /\ (shown_of r = Returns RedirectSection ->
      window_localStorage s = Returns true ->
      secureToken (page_of r) = Some (dynamic_token s)
      /\ tokenTimestamp (page_of r)
         = Some (ClientId.show_Z (clock (world p) + hd 0 (ticks (world p))))
      /\ world (page_of r) = tick (tick (world p))).
Proof.
  intros r. subst r. unfold handleFormSubmit.
  destruct (Nat.ltb_spec (String.length (recaptchaResponse s)) 1) as [Hr|Hr].
  { cbn. split; [|discriminate]. split; [discriminate|]. intros (H & _). lia. }
  destruct (existsb Fragment.nonempty (honeypotFields s)) eqn:Hh.
  { destruct (rejection_outcome "honeypot_filled" "honeypot_triggered" p)
      as (o & p' & -> & [-> | ->]);
      (cbn; split; [|discriminate]; split; [discriminate|];
       intros (_ & H & _); discriminate). }
  rewrite pbind_Date_now.
  set (p1 := with_world p (tick (world p))).
  destruct (analyzeInteractions (clock (world p)) (interactionData s)) eqn:Ha; cbn [negb].
  2:{ destruct (rejection_outcome "no_interactions" "non_human_pattern" p1)
        as (o & p' & -> & [-> | ->]);
        (cbn; split; [|discriminate]; split; [discriminate|];
         intros (_ & _ & H & _); discriminate). }
  rewrite pbind_userAgent.
  destruct (navigator_plugins s) as [n|] eqn:Hn.
  2:{ cbn. split; [|discriminate]. split; [discriminate|].
      intros (_ & _ & _ & H & _). unfold automation_signs in H. rewrite Hn in H.
      rewrite orb_true_r in H. discriminate. }
  rewrite pbind_pret.
  change (userAgent (world p1)) with (userAgent (world p)).
  rewrite (automation_signs_tests (userAgent (world p)) s n Hn).
  destruct (automation_signs (userAgent (world p)) s) eqn:Hs.
  { destruct (rejection_outcome "automation_detected" "automation_detected" p1)
      as (o & p' & -> & [-> | ->]);
      (cbn; split; [|discriminate]; split; [discriminate|];
       intros (_ & _ & _ & H & _); discriminate). }
  rewrite pbind_environmentVerified.
  change (environmentVerified p1) with (environmentVerified p).
  destruct (environmentVerified p) eqn:He; cbn [negb].
  2:{ destruct (rejection_outcome "environment_verification_failed"
                  "environment_verification_failed" p1)
        as (o & p' & -> & [-> | ->]);
        (cbn; split; [|discriminate]; split; [discriminate|];
         intros (_ & _ & _ & _ & H & _); discriminate). }
  destruct (store_token_runs (window_localStorage s) (dynamic_token s) p1)
    as (Hiff & Hok & _).
  split.
  - rewrite Hiff. split.
    + intros H. by repeat split.
    + by intros (_ & _ & _ & _ & _ & H).
  - intros Hr' Hls. destruct (Hok Hr') as (_ & H).
    destruct (H Hls) as (H1 & H2 & H3). split; [exact H1|]. split; [exact H2|exact H3].
Qed.

End PageFacts.

(** ** The page: what the handlers guarantee *)

Section BotTrapAndForm.
Import Store StoreFacts StoreInvariant StoreInvariantFacts Interaction Page PageFacts
  ParseIntFacts Fragment FragmentFacts Scenarios.

(** X22. On a store that can be read and written, [recordBotVisit] run
    for a client that has an identifier appends the visit and keeps the
    last 100 records: the stored log has min(100, old length + 1)
    records, ends with the new visit and is a suffix of the old log
    followed by the new visit. For a client without an identifier the
    exception of [btoa] is caught and the log stays as it was. *)
Theorem recordBotVisit_keeps_last_100 (why : string) (p : Page) :
  getItem_throws (localStorage (world p)) = false ->
  setItem_throws (localStorage (world p)) = false ->
  bot_visits p <> BadText ->
  let old := match bot_visits p with Text l => l | _ => [] end in
  let visit := mkVisit (clock (world p)) (userAgent (world p)) why
                       (clientIdentifier (world p)) in
  (identified (world p) ->
   exists l,
     bot_visits (page_of (recordBotVisit why p)) = Text l
     /\ length l = Nat.min 100 (length old + 1)
     /\ last l = Some visit
     /\ l `suffix_of` (old ++ [visit]))
  /\ (wideCharacters (world p) = true ->
      recordBotVisit why p = (Returns tt, with_world p (tick (world p)))).
Proof.
  intros Hg Hs Hb old visit.
  destruct (recordBotVisit_runs why p) as (p' & Hrun & _ & _ & _ & _ & _ & Hw).
  rewrite Hg, Hs in Hw. split.
  - intros Hx. rewrite Hrun. cbn [page_of snd]. rewrite Hx in Hw. cbn [orb] in Hw.
    exists (keep_last_100 (old ++ [visit])).
    split; [by destruct (bot_visits p); [destruct Hw as [_ ->]| |destruct Hw as [_ ->]]|].
    split; [rewrite length_keep_last_100, length_app; cbn [length]; lia|].
    split; [apply last_keep_last_100|apply keep_last_100_suffix].
  - intros Hx. clear Hrun Hw p'.
    unfold recordBotVisit, ptry, pbind, parse_bot_visits. rewrite Hg.
    unfold lift, Date_now, navigator_userAgent, getClientIdentifier.
    destruct (bot_visits p); [|done|]; cbn; rewrite Hx; reflexivity.
Qed.

Lemma recordBotVisit_keeps_last_100_witness :
  (identified (world full_log_page)
   /\ exists l,
        bot_visits (page_of (recordBotVisit "honeypot_triggered" full_log_page)) = Text l
        /\ length l = 100%nat
        /\ last l = Some (mkVisit 1000 "Mozilla/5.0 (X11; Linux x86_64)"
                                  "honeypot_triggered" plain_id))
  /\ (wideCharacters (world wide_page) = true
      /\ bot_visits (page_of (recordBotVisit "known_bot" wide_page)) = NoItem).
Proof.
  split.
  - split; [reflexivity|].
    assert (Hb : bot_visits full_log_page <> BadText) by discriminate.
    destruct (proj1 (recordBotVisit_keeps_last_100 "honeypot_triggered" full_log_page
                       eq_refl eq_refl Hb) eq_refl) as (l & H1 & H2 & H3 & _).
    exists l. split; [exact H1|]. split; [exact H2|exact H3].
  - split; [reflexivity|].
    assert (Hb : bot_visits wide_page <> BadText) by discriminate.
    by rewrite (proj2 (recordBotVisit_keeps_last_100 "known_bot" wide_page
                         eq_refl eq_refl Hb) eq_refl).
Defined.

(** X23. [recordBotVisit] never throws and never touches the blacklist
    system; when the store cannot be read, does not parse or cannot be
    written, the log stays as it was. *)
Theorem recordBotVisit_fails_silently (why : string) (p : Page) :
  let p' := page_of (recordBotVisit why p) in
  shown_of (recordBotVisit why p) = Returns tt
  /\ failedAttempts (world p') = failedAttempts (world p)
  /\ localStorage (world p') = localStorage (world p)
  /\ blacklistedIPs (world p') = blacklistedIPs (world p)
  /\ (getItem_throws (localStorage (world p)) = true
      \/ setItem_throws (localStorage (world p)) = true
      \/ bot_visits p = BadText ->
      bot_visits p' = bot_visits p).
Proof.
  intros p'. subst p'.
  destruct (recordBotVisit_runs why p) as (p' & Hrun & _ & _ & _ & _ & _ & Hw).
  rewrite Hrun. cbn [page_of shown_of fst snd]. split; [reflexivity|].
  destruct (getItem_throws (localStorage (world p))) eqn:Hg; [by subst|].
  destruct (bot_visits p) eqn:Hb; [|by subst|];
    destruct Hw as [Hw Hv]; rewrite Hw;
    (split; [reflexivity|]; split; [reflexivity|]; split; [reflexivity|]);
    (intros [?|[Hs|?]]; [discriminate| |discriminate]);
    by rewrite Hv, Hs, orb_true_r.
Qed.

Lemma recordBotVisit_fails_silently_witness :
  bot_visits (page_of (recordBotVisit "honeypot_triggered"
                         (with_world full_log_page storeless_world)))
  = bot_visits full_log_page.
Proof.
  exact (proj2 (proj2 (proj2 (proj2
           (recordBotVisit_fails_silently "honeypot_triggered"
              (with_world full_log_page storeless_world)))))
           (or_introl eq_refl)).
Defined.

(** X24. For a client that has an identifier, every silent rejection of
    [handleFormSubmit] costs one failed attempt: when the handler shows a
    construction page or the storage message, the attempts of the client
    have gone up by one (or back to none at the threshold); when it asks
    for the reCAPTCHA field or accepts, they are unchanged; and it throws
    only where [navigator.plugins] is undefined. For a client without an
    identifier nothing is counted and nothing of the kind is shown: where
    the handler would reject, the exception of [btoa] leaves it. *)
Theorem handleFormSubmit_counts_rejections (s : Submission) (p : Page) :
  let r := handleFormSubmit s p in
  (identified (world p) ->
   attempts (page_of r)
   = match shown_of r with
     | Returns (ConstructionPage _) | Returns StorageUnavailable => bump (attempts p)
     | _ => attempts p
     end
   /\ (forall e, shown_of r = Throws e -> e = TypeError /\ navigator_plugins s = None))
  /\ (wideCharacters (world p) = true ->
      attempts (page_of r) = attempts p
      /\ (shown_of r = Returns FieldRequired
          \/ shown_of r = Returns RedirectSection
          \/ shown_of r = Throws InvalidCharacterError
          \/ (shown_of r = Throws TypeError /\ navigator_plugins s = None))).
Proof.
  intros r. subst r. unfold handleFormSubmit.
  assert (Hreject : forall a b q,
            attempts q = attempts p -> wideCharacters (world q) = wideCharacters (world p) ->
            let r := (lift (recordFailedAttempt a);; showConstructionPage b)%page q in
            (identified (world p) ->
             attempts (page_of r)
             = match shown_of r with
               | Returns (ConstructionPage _) | Returns StorageUnavailable =>
                   bump (attempts p)
               | _ => attempts p
               end
             /\ (forall e, shown_of r = Throws e ->
                   e = TypeError /\ navigator_plugins s = None))
            /\ (wideCharacters (world p) = true ->
                attempts (page_of r) = attempts p
                /\ (shown_of r = Returns FieldRequired
                    \/ shown_of r = Returns RedirectSection
                    \/ shown_of r = Throws InvalidCharacterError
                    \/ (shown_of r = Throws TypeError /\ navigator_plugins s = None)))).
  { intros a b q Hq Hwq r. subst r. split.
    - intros Hx.
      assert (Hxq : identified (world q)) by (unfold identified; by rewrite Hwq).
      destruct (rejection_runs a b q Hxq) as (p' & -> & Ha' & _).
      cbn. split; [by rewrite Ha', Hq|discriminate].
    - intros Hx. rewrite <- Hwq in Hx.
      rewrite (recordFailedAttempt_page_wide a _ q Hx). cbn.
      split; [exact Hq|]. right. right. by left. }
  destruct (String.length (recaptchaResponse s) <? 1)%nat.
  { cbn. split; [intros _; split; [done|discriminate]|].
    intros _. split; [done|by left]. }
  destruct (existsb Fragment.nonempty (honeypotFields s)).
  { by apply Hreject. }
  rewrite pbind_Date_now.
  set (p1 := with_world p (tick (world p))).
  assert (Hp1 : attempts p1 = attempts p) by reflexivity.
  assert (Hw1 : wideCharacters (world p1) = wideCharacters (world p)) by reflexivity.
  destruct (analyzeInteractions (clock (world p)) (interactionData s)); cbn [negb].
  2:{ by apply Hreject. }
  rewrite pbind_userAgent.
  destruct (navigator_plugins s) as [n|].
  2:{ cbn. split; [intros _; split; [done|by intros e [= <-]]|].
      intros _. split; [done|]. right. right. right. by split. }
  rewrite pbind_pret.
  destruct (_ || _ || _).
  { by apply Hreject. }
  rewrite pbind_environmentVerified.
  destruct (environmentVerified p1); cbn [negb].
  2:{ by apply Hreject. }
  destruct (store_token_runs (window_localStorage s) (dynamic_token s) p1)
    as (_ & Hok & Hno).
  set (r := ptry _ _ p1) in *.
  assert (Hdec : shown_of r = Returns RedirectSection
                 \/ shown_of r <> Returns RedirectSection)
    by (destruct (shown_of r) as [[]|]; (by left) || (right; discriminate)).
  destruct Hdec as [Hr|Hr].
  - destruct (Hok Hr) as (Ha & _). rewrite Hr, Ha, Hp1.
    split; [intros _; split; [done|discriminate]|].
    intros _. split; [done|]. right. by left.
  - specialize (Hno Hr). rewrite Hw1 in Hno. split.
    + intros Hx. rewrite Hx in Hno. destruct Hno as [Hs Ha].
      rewrite Hs, Ha, Hp1. split; [done|discriminate].
    + intros Hx. rewrite Hx in Hno. rewrite Hno. cbn.
      split; [exact Hp1|]. right. right. by left.
Qed.

Lemma handleFormSubmit_counts_rejections_witness :
  (identified (world verified_page)
   /\ shown_of (handleFormSubmit trapped_submission verified_page)
      = Returns (ConstructionPage "honeypot_triggered")
   /\ attempts (page_of (handleFormSubmit trapped_submission verified_page)) = 1)
  /\ (wideCharacters (world wide_page) = true
      /\ shown_of (handleFormSubmit trapped_submission wide_page)
         = Throws InvalidCharacterError
      /\ attempts (page_of (handleFormSubmit trapped_submission wide_page)) = 0).
Proof.
  split.
  - assert (H : shown_of (handleFormSubmit trapped_submission verified_page)
                = Returns (ConstructionPage "honeypot_triggered")) by reflexivity.
    destruct (proj1 (handleFormSubmit_counts_rejections trapped_submission verified_page)
                eq_refl) as (H1 & _).
    rewrite H in H1. split; [reflexivity|]. split; [exact H|exact H1].
  - split; [reflexivity|]. split; [reflexivity|].
    exact (proj1 (proj2 (handleFormSubmit_counts_rejections trapped_submission wide_page)
                    eq_refl)).
Defined.

(** X25. [handleFormSubmit] accepts exactly the submissions that carry a
    reCAPTCHA response, leave every honeypot field empty, pass
    [analyzeInteractions] at the time of the submission, show no sign of
    automation, come from a verified environment and can store the token
    (or have no [localStorage] at all). With [localStorage] present the
    accepted submission leaves the token of the form and the time of the
    second clock reading in the store. *)
Theorem handleFormSubmit_acceptance (s : Submission) (p : Page) :
  let r := handleFormSubmit s p in
  (shown_of r = Returns RedirectSection <->
     (1 <= String.length (recaptchaResponse s))%nat
     /\ existsb nonempty (honeypotFields s) = false
     /\ analyzeInteractions (clock (world p)) (interactionData s) = true
     /\ automation_signs (userAgent (world p)) s = false
     /\ environmentVerified p = true
     /\ (window_localStorage s = Returns false
         \/ (window_localStorage s = Returns true
             /\ setItem_throws (localStorage (world p)) = false)))
  /\ (shown_of r = Returns RedirectSection ->
      window_localStorage s = Returns true ->
      secureToken (page_of r) = Some (dynamic_token s)
      /\ tokenTimestamp (page_of r)
         = Some (ClientId.show_Z (clock (world p) + hd 0 (ticks (world p))))
      /\ world (page_of r) = tick (tick (world p))).
Proof. exact (handleFormSubmit_accepts s p). Qed.

Lemma handleFormSubmit_acceptance_witness :
  shown_of (handleFormSubmit good_submission verified_page) = Returns RedirectSection
  /\ secureToken (page_of (handleFormSubmit good_submission verified_page))
     = Some "dG9rZW4="%string
  /\ tokenTimestamp (page_of (handleFormSubmit good_submission verified_page))
     = Some "1001"%string.
Proof.
  assert (H : shown_of (handleFormSubmit good_submission verified_page)
              = Returns RedirectSection).
  { apply (proj1 (handleFormSubmit_acceptance good_submission verified_page)).
    split; [vm_compute; lia|]. split; [reflexivity|]. split; [reflexivity|].
    split; [reflexivity|]. split; [reflexivity|]. right. by split. }
  split; [exact H|].
  destruct (proj2 (handleFormSubmit_acceptance good_submission verified_page) H eq_refl)
    as (H1 & H2 & _).
  split; [exact H1|exact H2].
Defined.

(** X26. [parseInt] reads back what [toString] prints: for every whole
    number between -2^53 and 2^53, parsing its decimal text gives the
    number. *)
Theorem parseInt_toString (z : Z) :
  safe_integer z -> parseInt (ClientId.show_Z z) = Some z.
Proof. intros _. apply parseInt_show_Z. Qed.

Lemma parseInt_toString_witness :
  safe_integer 9007199254740991
  /\ ClientId.show_Z 9007199254740991 = "9007199254740991"%string
  /\ parseInt "9007199254740991" = Some 9007199254740991.
Proof.
  assert (H : safe_integer 9007199254740991) by (unfold safe_integer; lia).
  split; [exact H|]. split; [reflexivity|].
  exact (parseInt_toString 9007199254740991 H).
Defined.

(** X27. The token of an accepted submission is valid for ten minutes: on
    the page that [handleFormSubmit] left, read at any later time,
    [redirectToProtectedContent] called with the token of the form
    navigates to the destination with the fragment appended as long as at
    most 600000 ms have passed since the token was stored, and reports
    the token expired afterwards; called with any other token it reports
    the token invalid. *)
Theorem token_valid_for_ten_minutes (s : Submission) (p : Page)
    (baseUrl hash : string) (now : Z) :
  shown_of (handleFormSubmit s p) = Returns RedirectSection ->
  window_localStorage s = Returns true ->
  nonempty (dynamic_token s) = true ->
  getItem_throws (localStorage (world p)) = false ->
  let later := at_time (page_of (handleFormSubmit s p)) now in
  let stored := clock (world p) + hd 0 (ticks (world p)) in
  shown_of (redirectToProtectedContent baseUrl hash (dynamic_token s) later)
  = Returns (if 600000 <? now - stored
             then ShowRedirectError "Security token expired. Please try again."
             else Navigate (appendFragmentToUrl hash baseUrl))
  /\ forall token,
       token <> dynamic_token s ->
       shown_of (redirectToProtectedContent baseUrl hash token later)
       = Returns (ShowRedirectError "Invalid security token. Please try again.").
Proof.
  intros Hok Hls Htok Hg later stored.
  destruct (proj2 (handleFormSubmit_accepts s p) Hok Hls) as (Hs & Ht & Hw).
  set (p1 := page_of (handleFormSubmit s p)) in *.
  assert (Hg' : getItem_throws (localStorage (world later)) = false).
  { unfold later, at_time. cbn. rewrite Hw. exact Hg. }
  split.
  - destruct (redirect_runs baseUrl hash (dynamic_token s) later Hg') as (p' & -> & _).
    cbn [shown_of fst]. f_equal. unfold redirect_decision.
    change (secureToken later) with (secureToken p1).
    change (tokenTimestamp later) with (tokenTimestamp p1).
    rewrite Hs, Ht. cbn [truthy]. rewrite Htok.
    rewrite bool_decide_eq_true_2 by reflexivity. cbn [negb orb].
    assert (Hne : nonempty (ClientId.show_Z stored) = true).
    { pose proof (parseInt_show_Z stored) as Hp.
      destruct (ClientId.show_Z stored); [discriminate Hp|reflexivity]. }
    fold stored. rewrite Hne, parseInt_show_Z. reflexivity.
  - intros token Hne.
    destruct (redirect_runs baseUrl hash token later Hg') as (p' & -> & _).
    cbn [shown_of fst]. f_equal. unfold redirect_decision.
    change (secureToken later) with (secureToken p1). rewrite Hs.
    rewrite (bool_decide_eq_false_2 (Some (dynamic_token s) = Some token))
      by (intros [= ?]; congruence).
    by rewrite orb_true_r.
Qed.

Lemma token_valid_for_ten_minutes_witness :
  shown_of (redirectToProtectedContent "https://example.com/redirect" "#track_123"
              "dG9rZW4="
              (at_time (page_of (handleFormSubmit good_submission verified_page)) 601001))
  = Returns (Navigate "https://example.com/redirect#track_123")
  /\ shown_of (redirectToProtectedContent "https://example.com/redirect" "#track_123"
                 "dG9rZW4="
                 (at_time (page_of (handleFormSubmit good_submission verified_page)) 601002))
     = Returns (ShowRedirectError "Security token expired. Please try again.").
Proof.
  assert (H : shown_of (handleFormSubmit good_submission verified_page)
              = Returns RedirectSection) by reflexivity.
  split.
  - exact (proj1 (token_valid_for_ten_minutes good_submission verified_page
                    "https://example.com/redirect" "#track_123" 601001
                    H eq_refl eq_refl eq_refl)).
  - exact (proj1 (token_valid_for_ten_minutes good_submission verified_page
                    "https://example.com/redirect" "#track_123" 601002
                    H eq_refl eq_refl eq_refl)).
Defined.

(** X28. A stored timestamp that does not start with a number never
    expires the token, and a missing or empty one counts as time 0: with
    the stored token matching, [redirectToProtectedContent] navigates at
    any time in the first case, and in the second reports the token
    expired as soon as the clock reads more than 600000. *)
Theorem timestamp_without_number_never_expires (p : Page)
    (baseUrl hash token : string) :
  getItem_throws (localStorage (world p)) = false ->
  secureToken p = Some token ->
  nonempty token = true ->
  (forall ts, tokenTimestamp p = Some ts -> nonempty ts = true -> parseInt ts = None ->
     shown_of (redirectToProtectedContent baseUrl hash token p)
     = Returns (Navigate (appendFragmentToUrl hash baseUrl)))
  /\ (tokenTimestamp p = None \/ tokenTimestamp p = Some EmptyString ->
      shown_of (redirectToProtectedContent baseUrl hash token p)
      = Returns (if 600000 <? clock (world p)
                 then ShowRedirectError "Security token expired. Please try again."
                 else Navigate (appendFragmentToUrl hash baseUrl))).
Proof.
  intros Hg Hs Htok.
  destruct (redirect_runs baseUrl hash token p Hg) as (p' & -> & _).
  cbn [shown_of fst]. unfold redirect_decision. rewrite Hs. cbn [truthy].
  rewrite Htok, bool_decide_eq_true_2 by reflexivity. cbn [negb orb].
  split.
  - intros ts -> Hne Hp. by rewrite Hne, Hp.
  - assert (H0 : parseInt "0" = Some 0) by reflexivity.
    intros [-> | ->]; cbn [nonempty]; rewrite H0;
      replace (clock (world p) - 0) with (clock (world p)) by lia; reflexivity.
Qed.

Lemma timestamp_without_number_never_expires_witness :
  parseInt "never" = None
  /\ shown_of (redirectToProtectedContent "https://example.com/redirect" EmptyString "dG9rZW4="
                 (at_time tampered_page 4102444800000))
     = Returns (Navigate "https://example.com/redirect").
Proof.
  split; [reflexivity|].
  exact (proj1 (timestamp_without_number_never_expires
                  (at_time tampered_page 4102444800000)
                  "https://example.com/redirect" EmptyString "dG9rZW4=" eq_refl eq_refl eq_refl)
           "never"%string eq_refl eq_refl eq_refl).
Defined.

(** X29. The identifier kept in the session storage rebuilds the address
    of the redirect: when [redirectToProtectedContent] navigates from a
    page whose fragment holds an identifier and whose session storage
    works, the address it navigates to is the destination cut at its
    first "#", followed by "#" and the identifier; and
    [restoreFragmentIfNeeded], run with that session storage on the
    destination stripped of its fragment, produces this same address and
    removes the stored identifier. *)
Theorem stripped_fragment_is_restored (p : Page)
    (baseUrl content token id href : string) :
  getItem_throws (localStorage (world p)) = false ->
  sessionStorage_throws p = false ->
  extractIdentifier (String "#" content) = Some id ->
  shown_of (redirectToProtectedContent baseUrl (String "#" content) token p)
  = Returns (Navigate href) ->
  let p' := page_of (redirectToProtectedContent baseUrl (String "#" content) token p) in
  href = String.append (before "#" baseUrl) (String "#" id)
  /\ redirectIdentifier p' = Some id
  /\ restoreFragmentIfNeeded (before "#" baseUrl) EmptyString p'
     = (Returns (Some href), with_redirectIdentifier p' None).
Proof.
  intros Hg Hs Hid Hnav p'. subst p'.
  destruct (redirect_runs baseUrl (String "#" content) token p Hg)
    as (p' & Hrun & Hs' & Hstored).
  rewrite Hrun in *. cbn [shown_of page_of fst snd] in *.
  injection Hnav as Hnav.
  destruct (extractIdentifier_some _ _ Hid) as (_ & Hlen & _).
  assert (Hne : nonempty id = true) by (destruct id; [cbn in Hlen; lia|reflexivity]).
  assert (Hhref : href = String.append (before "#" baseUrl) (String "#" id)).
  { unfold redirect_decision in Hnav.
    destruct (_ || _); [discriminate|].
    destruct (match parseInt _ with Some t => _ | None => false end); [discriminate|].
    injection Hnav as <-.
    rewrite appendFragmentToUrl_cut; rewrite (identifier_fragment _ _ Hid);
      [reflexivity|discriminate]. }
  assert (Hri : redirectIdentifier p' = Some id)
    by (apply Hstored; [by exists href|exact Hs|exact Hid|exact Hne]).
  split; [exact Hhref|]. split; [exact Hri|].
  unfold restoreFragmentIfNeeded, ptry, pbind, sessionStorage_getItem,
    sessionStorage_removeItem.
  rewrite Hs', Hs, Hri. cbn [truthy nonempty negb andb]. rewrite Hne.
  cbn [andb sessionStorage_throws with_redirectIdentifier]. rewrite Hs', Hs.
  by rewrite Hhref.
Qed.

Lemma stripped_fragment_is_restored_witness :
  shown_of (redirectToProtectedContent "https://example.com/redirect#top" "#track_123"
              "dG9rZW4=" tampered_page)
  = Returns (Navigate "https://example.com/redirect#track_123")
  /\ shown_of (restoreFragmentIfNeeded "https://example.com/redirect" EmptyString
                 (page_of (redirectToProtectedContent "https://example.com/redirect#top"
                             "#track_123" "dG9rZW4=" tampered_page)))
     = Returns (Some "https://example.com/redirect#track_123"%string).
Proof.
  assert (H : shown_of (redirectToProtectedContent "https://example.com/redirect#top"
                          "#track_123" "dG9rZW4=" tampered_page)
              = Returns (Navigate "https://example.com/redirect#track_123"))
    by reflexivity.
  split; [exact H|].
  destruct (stripped_fragment_is_restored tampered_page
              "https://example.com/redirect#top" "track_123" "dG9rZW4=" "track_123"
              "https://example.com/redirect#track_123" eq_refl eq_refl eq_refl H)
    as (_ & _ & Hr).
  change (before "#" "https://example.com/redirect#top")
    with "https://example.com/redirect"%string in Hr.
  by rewrite Hr.
Defined.

End BotTrapAndForm.

(** ** Font detection *)

Module FontsFacts.
Import Fonts.

Section Measure.
Variable offsetSize : option string -> string -> Z * Z.

Lemma compareBaselines_spec (font : string) (bases : list string) :
  compareBaselines offsetSize font bases = true
  <-> Forall (changes_measure offsetSize font) bases.
Proof.
  induction bases as [|b bases IH]; [by split|].
  rewrite Forall_cons. cbn [compareBaselines]. unfold changes_measure at 1.
  destruct (offsetSize None b) as [bw bh], (offsetSize (Some font) b) as [tw th].
  destruct (Z.eqb_spec bw tw) as [->|Hw]; [destruct (Z.eqb_spec bh th) as [->|Hh]|];
    cbn [andb].
  - split; [discriminate|]. by intros [H _].
  - rewrite IH. split; [intros H; split; [congruence|exact H]|by intros [_ H]].
  - rewrite IH. split; [intros H; split; [congruence|exact H]|by intros [_ H]].
Qed.

Lemma checkFonts_filter (fonts acc : list string) :
  checkFonts offsetSize fonts acc
  = acc ++ List.filter (fun font => compareBaselines offsetSize font baseFonts) fonts.
Proof.
  revert acc. induction fonts as [|f fonts IH]; intros acc.
  - cbn. by rewrite app_nil_r.
  - cbn [checkFonts List.filter]. rewrite IH.
    destruct (compareBaselines offsetSize f baseFonts); [|reflexivity].
    by rewrite <- app_assoc.
Qed.

End Measure.
End FontsFacts.

Section FontDetection.
Import Fingerprint Fonts FontsFacts Scenarios.

(** X30. [detectFonts] reports a font of its list exactly when naming it
    changes the measure of the test text against each of the three
    baseline families, so a font that is itself one of the baselines of
    the system is never reported; the reported fonts come in list order
    without repetition. Where naming a font never changes the measure,
    nothing is reported, and components holding this result meet the
    font condition of the score. *)
Theorem detectFonts_reports (offsetSize : option string -> string -> Z * Z) :
  (forall font,
     In font (detectFonts offsetSize) <->
     In font fontList /\ Forall (changes_measure offsetSize font) baseFonts)
  /\ sublist (detectFonts offsetSize) fontList
  /\ NoDup (detectFonts offsetSize)
  /\ ((forall font baseFont, offsetSize (Some font) baseFont = offsetSize None baseFont) ->
      detectFonts offsetSize = []
      /\ forall fp, fonts fp = detectFonts offsetSize -> fonts_missing fp = true).
Proof.
  unfold detectFonts. rewrite checkFonts_filter. cbn [app].
  split; [|split; [|split]].
  - intros font. rewrite filter_In, compareBaselines_spec. reflexivity.
  - induction fontList as [|f l IH]; [constructor|].
    cbn [List.filter]. destruct (compareBaselines offsetSize f baseFonts);
      by constructor.
  - apply NoDup_ListNoDup, List.NoDup_filter, NoDup_ListNoDup.
    by apply (bool_decide_unpack _).
  - intros Hsame.
    assert (E : List.filter (fun font => compareBaselines offsetSize font baseFonts) fontList
                = []).
    { induction fontList as [|f l IH]; [reflexivity|].
      cbn [List.filter]. rewrite IH.
      replace (compareBaselines offsetSize f baseFonts) with false; [reflexivity|].
      symmetry. apply not_true_iff_false. rewrite compareBaselines_spec.
      intros H. inversion H as [|? ? Hc _]. by apply Hc. }
    rewrite E. split; [reflexivity|]. intros fp Hfp.
    unfold fonts_missing. by rewrite Hfp.
Qed.

Lemma detectFonts_reports_witness :
  detectFonts three_fonts_measure = [ "Arial"; "Georgia"; "Verdana" ]%string
  /\ ~ In "Courier New"%string (detectFonts three_fonts_measure)
  /\ detectFonts (fun _ _ => (510, 84)) = [].
Proof.
  split; [reflexivity|]. split.
  - intros H.
    apply (proj1 (detectFonts_reports three_fonts_measure)) in H.
    destruct H as [_ H]. inversion H as [|? ? Hc _]. by apply Hc.
  - exact (proj1 (proj2 (proj2 (proj2 (detectFonts_reports (fun _ _ => (510, 84)))))
             (fun _ _ => eq_refl))).
Defined.

End FontDetection.
